(** * Validation engine of the data-alchemist configurator

    A shallow embedding of [src/lib/validations/validator.ts] together with
    the record types of [src/types/index.ts], and theorems about the ten
    validation rules and the report that [validateDataSet] builds from them.
    The rules come twice: as functions from the dataset to their findings,
    with the local variables of each loop passed along, and, in [Run], as
    programs on a store that holds the dataset, the objects the programs
    allocate and the random number generator.  The second form is shown to
    compute the first.

    Conventions of the embedding.
    - A TypeScript [string] is a [string]; an array is a [list].
    - The scalar fields [PriorityLevel], [Duration], [MaxLoadPerPhase] and
      [MaxConcurrent] and the entries of [PreferredPhases], which the data
      model declares as integers, are integers [Z].  Where the code itself
      goes beyond integers the model follows it with [Number], an integer,
      an infinity or [NaN]: the entries of [AvailableSlots], which rule 3
      tests with [isNaN], and the totals of rule 10, which are sums of
      doubles ([numAdd] rounds as binary64 does).
    - A template literal [`${n}`] of a number is stdpp's decimal printer
      [pretty], which prints a leading [-] for negative integers.
      JavaScript writes the same digits up to 10^21 and switches to the
      exponent notation from there on; no statement below depends on the
      digits of a number that large.
    - [xs.forEach((x, index) => ...)] over a body that updates local
      variables is [forEach], a left-to-right loop passing the updated
      variables along.
    - A [Map] or [Set] that is only queried by key is a [gmap] or [gset];
      a [Map] that is iterated is an insertion-ordered association list
      ([JSMap]), because the iteration order of a JavaScript [Map] is the
      order in which its keys were first set. *)

From stdpp Require Import base list strings pretty gmap.
From Stdlib Require Import ZArith Lia.
From Stdlib Require Import Floats.SpecFloat.

(** ** JavaScript values *)

(** The values a field of a parsed row can hold at run time.  Only
    [AttributesJSON] is kept as a raw value; the other fields have the
    types their interface declares. *)
#[warnings="-register-all"]
Inductive JSValue : Type :=
| JSUndefined
| JSNull
| JSBool (b : bool)
| JSNumber (n : Z)
| JSNaN
| JSInfinity (negative : bool)
| JSString (s : string)
| JSArray (xs : list JSValue)
| JSObject (kv : list (string * JSValue)).

(** [typeof v]. *)
Definition typeof (v : JSValue) : string :=
  match v with
  | JSUndefined => "undefined"
  | JSNull => "object"
  | JSBool _ => "boolean"
  | JSNumber _ | JSNaN | JSInfinity _ => "number"
  | JSString _ => "string"
  | JSArray _ => "object"
  | JSObject _ => "object"
  end.

(** Truthiness, as [!v] and [if (v)] see it. *)
Definition truthy (v : JSValue) : bool :=
  match v with
  | JSUndefined | JSNull | JSNaN => false
  | JSBool b => b
  | JSNumber n => negb (n =? 0)%Z
  | JSInfinity _ => true
  | JSString s => negb (String.eqb s "")
  | JSArray _ | JSObject _ => true
  end.

(** [Array.isArray(v)]. *)
Definition isArray (v : JSValue) : bool :=
  match v with JSArray _ => true | _ => false end.

(** [(v as any[]).length], read only under [Array.isArray(v)]. *)
Definition arrayLength (v : JSValue) : nat :=
  match v with JSArray xs => length xs | _ => 0 end.

Definition isNull (v : JSValue) : bool :=
  match v with JSNull => true | _ => false end.

(** [s || d] on strings: [s] when it is truthy, that is non-empty. *)
Definition strOr (s d : string) : string :=
  if truthy (JSString s) then s else d.

(** ** Numbers beyond the integers *)

(** A [number] as rule 3 and rule 10 can meet it: an integer, one of the
    two infinities, or [NaN]. *)
Inductive Number : Type :=
| Int (z : Z)
| PosInfinity
| NegInfinity
| NaN.

#[global] Instance Number_eq_dec : EqDecision Number.
Proof. solve_decision. Defined.

(** The number as a value. *)
Definition numberValue (n : Number) : JSValue :=
  match n with
  | Int z => JSNumber z
  | PosInfinity => JSInfinity false
  | NegInfinity => JSInfinity true
  | NaN => JSNaN
  end.

(** [isNaN(n)]. *)
Definition isNaN (n : Number) : bool :=
  match n with NaN => true | _ => false end.

(** [x < y]: false as soon as one side is [NaN]. *)
Definition numLt (x y : Number) : bool :=
  match x, y with
  | NaN, _ | _, NaN => false
  | Int a, Int b => (a <? b)%Z
  | _, NegInfinity => false
  | NegInfinity, _ => true
  | PosInfinity, _ => false
  | Int _, PosInfinity => true
  end.

(** [x > y]. *)
Definition numGt (x y : Number) : bool := numLt y x.

(** The double nearest to the integer [z], ties going to the even
    significand.  Below 2^53 in absolute value every integer is a double.
    From there on a double has 53 significant bits: [z] is cut after its
    first 53 bits and rounded on what is cut off, and a result that
    reaches 2^1024 is an infinity. *)
Definition roundDouble (z : Z) : Number :=
  let a := Z.abs z in
  if (a <? 2 ^ 53)%Z then Int z
  else
    let e := (Z.log2 a - 52)%Z in
    let q := Z.shiftr a e in
    let r := (a - Z.shiftl q e)%Z in
    let half := Z.shiftl 1 (e - 1) in
    let q' :=
      if (r <? half)%Z then q
      else if (half <? r)%Z then (q + 1)%Z
      else if Z.even q then q else (q + 1)%Z in
    let m := Z.shiftl q' e in
    if (2 ^ 1024 <=? m)%Z then
      (if (z <? 0)%Z then NegInfinity else PosInfinity)
    else Int (Z.sgn z * m).

Arguments roundDouble : simpl never.

(** [x + y] on doubles that hold integers. *)
Definition numAdd (x y : Number) : Number :=
  match x, y with
  | NaN, _ | _, NaN => NaN
  | PosInfinity, NegInfinity | NegInfinity, PosInfinity => NaN
  | PosInfinity, _ | _, PosInfinity => PosInfinity
  | NegInfinity, _ | _, NegInfinity => NegInfinity
  | Int a, Int b => roundDouble (a + b)
  end.

(** The same sum by the Standard Library's reference implementation of
    IEEE 754, in binary64: 53 bits of precision, exponents below 1024. *)
Definition binary64OfZ (z : Z) : spec_float := binary_normalize 53 1024 z 0 false.

Definition numberOfBinary64 (f : spec_float) : option Number :=
  match f with
  | S754_zero _ => Some (Int 0)
  | S754_infinity negative => Some (if negative then NegInfinity else PosInfinity)
  | S754_nan => Some NaN
  | S754_finite negative m e =>
      let sign := if negative then (-1)%Z else 1%Z in
      if (0 <=? e)%Z then Some (Int (sign * (Z.pos m * 2 ^ e)))
      else if (Z.pos m mod 2 ^ (- e) =? 0)%Z
           then Some (Int (sign * (Z.pos m / 2 ^ (- e))))
           else None
  end.

(** The integer is a double, and [numAdd] adds two integers as binary64
    does. *)
Definition isBinary64 (z : Z) : bool :=
  bool_decide (numberOfBinary64 (binary64OfZ z) = Some (Int z)).

Definition addsAsBinary64 (a b : Z) : bool :=
  bool_decide (numberOfBinary64 (SFadd 53 1024 (binary64OfZ a) (binary64OfZ b))
               = Some (numAdd (Int a) (Int b))).

(** Doubles around the places where the rounding changes: 2^53, where the
    odd integers stop being doubles, ties, and the largest double. *)
Definition additionSamples : list Z :=
  [0; 1; -1; 2; 3; 5; -7; 2 ^ 52; 2 ^ 53 - 1; -(2 ^ 53 - 1); 2 ^ 53; -(2 ^ 53);
   2 ^ 53 + 2; 2 ^ 54; 2 ^ 54 + 4; -(2 ^ 54 + 4); 2 ^ 60; 2 ^ 60 + 2 ^ 8;
   3 * 2 ^ 99; -(2 ^ 100); 2 ^ 970; 2 ^ 970 - 2 ^ 918; 2 ^ 1023; -(2 ^ 1023);
   (2 ^ 53 - 1) * 2 ^ 971; -((2 ^ 53 - 1) * 2 ^ 971)]%Z.

(** [`${n}`]. *)
Definition numberToString (n : Number) : string :=
  match n with
  | Int z => pretty z
  | PosInfinity => "Infinity"
  | NegInfinity => "-Infinity"
  | NaN => "NaN"
  end.

(** [m.get(k) || d] on numbers: [undefined], [0] and [NaN] all give [d]. *)
Definition numOr (o : option Number) (d : Number) : Number :=
  match o with
  | Some v => if truthy (numberValue v) then v else d
  | None => d
  end.

(** ** Entities ([src/types/index.ts]) *)

Record Client : Type := mkClient {
  ClientID : string;
  ClientName : string;
  PriorityLevel : Z;
  RequestedTaskIDs : list string;
  GroupTag : string;
  AttributesJSON : JSValue
}.

Record Worker : Type := mkWorker {
  WorkerID : string;
  WorkerName : string;
  Skills : list string;
  AvailableSlots : list Number;
  MaxLoadPerPhase : Z;
  WorkerGroup : string;
  QualificationLevel : string
}.

Record Task : Type := mkTask {
  TaskID : string;
  TaskName : string;
  Category : string;
  Duration : Z;
  RequiredSkills : list string;
  PreferredPhases : list Z;
  MaxConcurrent : Z
}.

Record DataSet : Type := mkDataSet {
  clients : list Client;
  workers : list Worker;
  tasks : list Task
}.

(** ** Findings *)

Inductive FindingType : Type := TError | TWarning.
Inductive EntityType : Type := EClient | EWorker | ETask.
Inductive Severity : Type := Low | Medium | High.

#[global] Instance FindingType_eq_dec : EqDecision FindingType.
Proof. solve_decision. Defined.
#[global] Instance EntityType_eq_dec : EqDecision EntityType.
Proof. solve_decision. Defined.
#[global] Instance Severity_eq_dec : EqDecision Severity.
Proof. solve_decision. Defined.

Module ValidationError.
Record t : Type := mk {
  id : string;
  type : FindingType;
  message : string;
  field : option string;
  entityType : EntityType;
  entityId : string;
  severity : Severity
}.
#[global] Instance eq_dec : EqDecision t.
Proof. solve_decision. Defined.
End ValidationError.

Record ValidationResult : Type := mkResult {
  isValid : bool;
  errors : list ValidationError.t;
  warnings : list ValidationError.t
}.

(** ** Loops and containers *)

(** [xs.forEach((x, index) => body)], with the variables the body updates
    passed along as [s]. *)
Fixpoint forEach_from {A St : Type} (xs : list A) (index : nat)
    (body : A → nat → St → St) (s : St) : St :=
  match xs with
  | [] => s
  | x :: rest => forEach_from rest (S index) body (body x index s)
  end.

Definition forEach {A St : Type} (xs : list A)
    (body : A → nat → St → St) (s : St) : St :=
  forEach_from xs 0 body s.

(** [errors.push(e)]. *)
Definition push {A : Type} (errors : list A) (e : A) : list A := errors ++ [e].

(** A [Map<number, number>] whose entries are later iterated: entries in
    the order their keys were first set.  The keys are the phases of the
    tasks (integers) in one map of rule 10 and the slots of the workers in
    the other; a [Map] takes [NaN] for a key like any other number. *)
Module JSMap.
Definition t (K : Type) : Type := list (K * Number).

Definition empty {K : Type} : t K := [].

Fixpoint get {K : Type} `{EqDecision K} (m : t K) (k : K) : option Number :=
  match m with
  | [] => None
  | (k', v) :: rest => if bool_decide (k' = k) then Some v else get rest k
  end.

Fixpoint set {K : Type} `{EqDecision K} (m : t K) (k : K) (v : Number) : t K :=
  match m with
  | [] => [(k, v)]
  | (k', v') :: rest =>
      if bool_decide (k' = k) then (k', v) :: rest else (k', v') :: set rest k v
  end.

(** [m.forEach((value, key) => body)]. *)
Definition forEach {K St : Type} (m : t K) (body : Number → K → St → St)
    (s : St) : St :=
  fold_left (fun acc kv => body (snd kv) (fst kv) acc) m s.
End JSMap.

(** [set.has(k)] and [map.has(k)]. *)
Definition setHas (s : gset string) (k : string) : bool := bool_decide (k ∈ s).
Definition mapHas (m : gmap string nat) (k : string) : bool :=
  bool_decide (is_Some (m !! k)).

(** [arr.includes(x)] on an array of strings. *)
Definition includes (xs : list string) (x : string) : bool :=
  existsb (String.eqb x) xs.

(** ** The ten rules ([src/lib/validations/validator.ts]) *)

Abbreviation Finding := ValidationError.t.

(** [client[field as keyof Client]] and its two siblings. *)
Definition clientField (client : Client) (field : string) : JSValue :=
  if String.eqb field "ClientID" then JSString (ClientID client)
  else if String.eqb field "ClientName" then JSString (ClientName client)
  else if String.eqb field "PriorityLevel" then JSNumber (PriorityLevel client)
  else if String.eqb field "RequestedTaskIDs"
       then JSArray (map JSString (RequestedTaskIDs client))
  else if String.eqb field "GroupTag" then JSString (GroupTag client)
  else if String.eqb field "AttributesJSON" then AttributesJSON client
  else JSUndefined.

Definition workerField (worker : Worker) (field : string) : JSValue :=
  if String.eqb field "WorkerID" then JSString (WorkerID worker)
  else if String.eqb field "WorkerName" then JSString (WorkerName worker)
  else if String.eqb field "Skills" then JSArray (map JSString (Skills worker))
  else if String.eqb field "AvailableSlots"
       then JSArray (map numberValue (AvailableSlots worker))
  else if String.eqb field "MaxLoadPerPhase" then JSNumber (MaxLoadPerPhase worker)
  else if String.eqb field "WorkerGroup" then JSString (WorkerGroup worker)
  else if String.eqb field "QualificationLevel"
       then JSString (QualificationLevel worker)
  else JSUndefined.

Definition taskField (task : Task) (field : string) : JSValue :=
  if String.eqb field "TaskID" then JSString (TaskID task)
  else if String.eqb field "TaskName" then JSString (TaskName task)
  else if String.eqb field "Category" then JSString (Category task)
  else if String.eqb field "Duration" then JSNumber (Duration task)
  else if String.eqb field "RequiredSkills"
       then JSArray (map JSString (RequiredSkills task))
  else if String.eqb field "PreferredPhases"
       then JSArray (map JSNumber (PreferredPhases task))
  else if String.eqb field "MaxConcurrent" then JSNumber (MaxConcurrent task)
  else JSUndefined.

(** The test of rule 1: [!v || (Array.isArray(v) && v.length === 0)]. *)
Definition isMissing (v : JSValue) : bool :=
  negb (truthy v) || (isArray v && (arrayLength v =? 0)%nat).

Definition requiredClientFields : list string :=
  ["ClientID"; "ClientName"; "PriorityLevel"].
Definition requiredWorkerFields : list string :=
  ["WorkerID"; "WorkerName"; "Skills"; "AvailableSlots"].
Definition requiredTaskFields : list string :=
  ["TaskID"; "TaskName"; "Duration"; "RequiredSkills"].

(** The finding rule 1 pushes: [kind] is the word in the identifier,
    [ownID] the entity's own ID, replaced by its row when it is empty. *)
Definition missingFinding (kind : string) (entity : EntityType)
    (field : string) (index : nat) (ownID : string) : Finding :=
  {| ValidationError.id :=
       "missing-" +:+ kind +:+ "-" +:+ field +:+ "-" +:+ pretty index;
     ValidationError.type := TError;
     ValidationError.message := "Missing required field: " +:+ field;
     ValidationError.field := Some field;
     ValidationError.entityType := entity;
     ValidationError.entityId := strOr ownID ("Row " +:+ pretty (index + 1)%nat);
     ValidationError.severity := High |}.

(** 1. Missing required columns *)
Definition validateMissingRequiredColumns (data : DataSet) : list Finding :=
  let errors : list Finding := [] in
  let errors :=
    forEach (clients data) (fun client index errors =>
      forEach requiredClientFields (fun field _ errors =>
        if isMissing (clientField client field) then
          push errors (missingFinding "client" EClient field index (ClientID client))
        else errors) errors) errors in
  let errors :=
    forEach (workers data) (fun worker index errors =>
      forEach requiredWorkerFields (fun field _ errors =>
        if isMissing (workerField worker field) then
          push errors (missingFinding "worker" EWorker field index (WorkerID worker))
        else errors) errors) errors in
  let errors :=
    forEach (tasks data) (fun task index errors =>
      forEach requiredTaskFields (fun field _ errors =>
        if isMissing (taskField task field) then
          push errors (missingFinding "task" ETask field index (TaskID task))
        else errors) errors) errors in
  errors.

(** The finding rule 2 pushes for a repeated ID, per collection. *)
Definition duplicateFinding (kind label : string) (fieldName : string)
    (entity : EntityType) (theID : string) : Finding :=
  {| ValidationError.id := "duplicate-" +:+ kind +:+ "-" +:+ theID;
     ValidationError.type := TError;
     ValidationError.message := "Duplicate " +:+ label +:+ ": " +:+ theID;
     ValidationError.field := Some fieldName;
     ValidationError.entityType := entity;
     ValidationError.entityId := theID;
     ValidationError.severity := High |}.

(** The body of each of the three loops of rule 2: [seen] is the [Map] of
    the IDs met so far, [errors] the array the rule returns. *)
Definition duplicateStep {A : Type} (getID : A → string)
    (mkFinding : string → Finding) (entity : A) (index : nat)
    (state : gmap string nat * list Finding) : gmap string nat * list Finding :=
  let '(seen, errors) := state in
  if truthy (JSString (getID entity)) then
    if mapHas seen (getID entity) then
      (seen, push errors (mkFinding (getID entity)))
    else
      (<[getID entity := index]> seen, errors)
  else (seen, errors).

(** One of the three loops, over a fresh [Map]. *)
Definition duplicateLoop {A : Type} (entities : list A) (getID : A → string)
    (mkFinding : string → Finding) (errors : list Finding) : list Finding :=
  snd (forEach entities (duplicateStep getID mkFinding)
         ((∅ : gmap string nat), errors)).

(** 2. Duplicate IDs *)
Definition validateDuplicateIDs (data : DataSet) : list Finding :=
  let errors : list Finding := [] in
  let errors :=
    duplicateLoop (clients data) ClientID
      (duplicateFinding "client" "ClientID" "ClientID" EClient) errors in
  let errors :=
    duplicateLoop (workers data) WorkerID
      (duplicateFinding "worker" "WorkerID" "WorkerID" EWorker) errors in
  let errors :=
    duplicateLoop (tasks data) TaskID
      (duplicateFinding "task" "TaskID" "TaskID" ETask) errors in
  errors.

(** The finding rule 3 pushes for one entry of [AvailableSlots]. *)
Definition malformedSlotFinding (worker : Worker) (slot : Number) : Finding :=
  {| ValidationError.id := "malformed-slots-" +:+ WorkerID worker;
     ValidationError.type := TError;
     ValidationError.message :=
       "Invalid AvailableSlot value: " +:+ numberToString slot
         +:+ ". Must be positive numbers.";
     ValidationError.field := Some "AvailableSlots";
     ValidationError.entityType := EWorker;
     ValidationError.entityId := WorkerID worker;
     ValidationError.severity := Medium |}.

(** 3. Malformed lists *)
Definition validateMalformedLists (data : DataSet) : list Finding :=
  let errors : list Finding := [] in
  forEach (workers data) (fun worker _ errors =>
    forEach (AvailableSlots worker) (fun slot _ errors =>
      if isNaN slot || numLt slot (Int 1) then
        push errors (malformedSlotFinding worker slot)
      else errors) errors) errors.

(** The two findings rule 4 pushes. *)
Definition priorityRangeFinding (client : Client) : Finding :=
  {| ValidationError.id := "priority-range-" +:+ ClientID client;
     ValidationError.type := TError;
     ValidationError.message :=
       "PriorityLevel must be between 1-5, got: " +:+ pretty (PriorityLevel client);
     ValidationError.field := Some "PriorityLevel";
     ValidationError.entityType := EClient;
     ValidationError.entityId := ClientID client;
     ValidationError.severity := Medium |}.

Definition durationRangeFinding (task : Task) : Finding :=
  {| ValidationError.id := "duration-range-" +:+ TaskID task;
     ValidationError.type := TError;
     ValidationError.message :=
       "Duration must be at least 1, got: " +:+ pretty (Duration task);
     ValidationError.field := Some "Duration";
     ValidationError.entityType := ETask;
     ValidationError.entityId := TaskID task;
     ValidationError.severity := Medium |}.

(** 4. Out-of-range values *)
Definition validateOutOfRangeValues (data : DataSet) : list Finding :=
  let errors : list Finding := [] in
  let errors :=
    forEach (clients data) (fun client _ errors =>
      if (PriorityLevel client <? 1)%Z || (PriorityLevel client >? 5)%Z then
        push errors (priorityRangeFinding client)
      else errors) errors in
  let errors :=
    forEach (tasks data) (fun task _ errors =>
      if (Duration task <? 1)%Z then
        push errors (durationRangeFinding task)
      else errors) errors in
  errors.

(** How a [try] block ends: normally, or by throwing. *)
Inductive Completion : Type := Normal | Throw.

(** The [try] block of rule 5: one [if] with an empty body.  [typeof] and
    the comparison with [null] cannot throw, so it always ends normally. *)
Definition brokenJSONTry (client : Client) : Completion :=
  if String.eqb (typeof (AttributesJSON client)) "object"
     && negb (isNull (AttributesJSON client))
  then Normal
  else Normal.

(** 5. Broken JSON *)
Definition validateBrokenJSON (data : DataSet) : list Finding :=
  let errors : list Finding := [] in
  forEach (clients data) (fun client _ errors =>
    match brokenJSONTry client with
    | Normal => errors
    | Throw =>
        push errors {|
          ValidationError.id := "broken-json-" +:+ ClientID client;
          ValidationError.type := TError;
          ValidationError.message := "Invalid JSON in AttributesJSON";
          ValidationError.field := Some "AttributesJSON";
          ValidationError.entityType := EClient;
          ValidationError.entityId := ClientID client;
          ValidationError.severity := Low |}
    end) errors.

(** The finding rule 6 pushes for an entry of [RequestedTaskIDs]. *)
Definition unknownReferenceFinding (client : Client) (taskID : string) : Finding :=
  {| ValidationError.id := "unknown-task-" +:+ ClientID client +:+ "-" +:+ taskID;
     ValidationError.type := TError;
     ValidationError.message := "Client references unknown TaskID: " +:+ taskID;
     ValidationError.field := Some "RequestedTaskIDs";
     ValidationError.entityType := EClient;
     ValidationError.entityId := ClientID client;
     ValidationError.severity := High |}.

(** 6. Unknown references *)
Definition validateUnknownReferences (data : DataSet) : list Finding :=
  let errors : list Finding := [] in
  let taskIDs : gset string := list_to_set (map TaskID (tasks data)) in
  forEach (clients data) (fun client _ errors =>
    forEach (RequestedTaskIDs client) (fun taskID _ errors =>
      if negb (setHas taskIDs taskID) then
        push errors (unknownReferenceFinding client taskID)
      else errors) errors) errors.

(** [xs.length] as a number. *)
Definition lengthOf {A : Type} (xs : list A) : Z := Z.of_nat (length xs).

(** 9. Overloaded workers *)
Definition validateOverloadedWorkers (data : DataSet) : list Finding :=
  let errors : list Finding := [] in
  forEach (workers data) (fun worker _ errors =>
    if (lengthOf (AvailableSlots worker) <? MaxLoadPerPhase worker)%Z then
      push errors {|
        ValidationError.id := "overloaded-worker-" +:+ WorkerID worker;
        ValidationError.type := TWarning;
        ValidationError.message :=
          "Worker has " +:+ pretty (lengthOf (AvailableSlots worker))
            +:+ " available slots but MaxLoadPerPhase is "
            +:+ pretty (MaxLoadPerPhase worker);
        ValidationError.field := Some "MaxLoadPerPhase";
        ValidationError.entityType := EWorker;
        ValidationError.entityId := WorkerID worker;
        ValidationError.severity := Medium |}
    else errors) errors.

(** The finding rule 10 of the source (phase-slot saturation) pushes. *)
Definition saturationFinding (phase : Z) (demand supply : Number) : Finding :=
  {| ValidationError.id := "phase-saturation-" +:+ pretty phase;
     ValidationError.type := TWarning;
     ValidationError.message :=
       "Phase " +:+ pretty phase +:+ " is oversaturated: demand "
         +:+ numberToString demand +:+ " > supply " +:+ numberToString supply;
     ValidationError.field := None;
     ValidationError.entityType := ETask;
     ValidationError.entityId := "Phase " +:+ pretty phase;
     ValidationError.severity := High |}.

(** The [Map] of total demand per phase.  The totals are doubles: every
    addition rounds. *)
Definition phaseDemandOf (data : DataSet) : JSMap.t Z :=
  forEach (tasks data) (fun task _ phaseDemand =>
    forEach (PreferredPhases task) (fun phase _ phaseDemand =>
      let currentDemand := numOr (JSMap.get phaseDemand phase) (Int 0) in
      JSMap.set phaseDemand phase (numAdd currentDemand (Int (Duration task))))
    phaseDemand) JSMap.empty.

(** The [Map] of total supply per phase, keyed by the entries of
    [AvailableSlots]. *)
Definition phaseSupplyOf (data : DataSet) : JSMap.t Number :=
  forEach (workers data) (fun worker _ phaseSupply =>
    forEach (AvailableSlots worker) (fun phase _ phaseSupply =>
      let currentSupply := numOr (JSMap.get phaseSupply phase) (Int 0) in
      JSMap.set phaseSupply phase
        (numAdd currentSupply (Int (MaxLoadPerPhase worker))))
    phaseSupply) JSMap.empty.

(** 10. Phase-slot saturation *)
Definition validatePhaseSlotSaturation (data : DataSet) : list Finding :=
  let errors : list Finding := [] in
  let phaseDemand := phaseDemandOf data in
  let phaseSupply := phaseSupplyOf data in
  JSMap.forEach phaseDemand (fun demand phase errors =>
    let supply := numOr (JSMap.get phaseSupply (Int phase)) (Int 0) in
    if numGt demand supply then
      push errors (saturationFinding phase demand supply)
    else errors) errors.

(** 11. Skill-coverage matrix *)
Definition validateSkillCoverageMatrix (data : DataSet) : list Finding :=
  let errors : list Finding := [] in
  let availableSkills : gset string :=
    forEach (workers data) (fun worker _ availableSkills =>
      forEach (Skills worker) (fun skill _ availableSkills =>
        {[ skill ]} ∪ availableSkills) availableSkills) ∅ in
  forEach (tasks data) (fun task _ errors =>
    forEach (RequiredSkills task) (fun skill _ errors =>
      if negb (setHas availableSkills skill) then
        push errors {|
          ValidationError.id := "missing-skill-" +:+ TaskID task +:+ "-" +:+ skill;
          ValidationError.type := TError;
          ValidationError.message := "No worker has required skill: " +:+ skill;
          ValidationError.field := Some "RequiredSkills";
          ValidationError.entityType := ETask;
          ValidationError.entityId := TaskID task;
          ValidationError.severity := High |}
      else errors) errors) errors.

(** The workers that can perform [task]:
    [workers.filter(w => task.RequiredSkills.every(s => w.Skills.includes(s)))]. *)
Definition qualifiedWorkers (data : DataSet) (task : Task) : list Worker :=
  List.filter (fun worker =>
    forallb (fun skill => includes (Skills worker) skill) (RequiredSkills task))
    (workers data).

(** The finding rule 12 of the source (max-concurrency feasibility) pushes. *)
Definition concurrencyFinding (task : Task) (qualified : Z) : Finding :=
  {| ValidationError.id := "concurrency-infeasible-" +:+ TaskID task;
     ValidationError.type := TWarning;
     ValidationError.message :=
       "MaxConcurrent (" +:+ pretty (MaxConcurrent task)
         +:+ ") exceeds qualified workers (" +:+ pretty qualified +:+ ")";
     ValidationError.field := Some "MaxConcurrent";
     ValidationError.entityType := ETask;
     ValidationError.entityId := TaskID task;
     ValidationError.severity := Medium |}.

(** 12. Max-concurrency feasibility *)
Definition validateMaxConcurrencyFeasibility (data : DataSet) : list Finding :=
  let errors : list Finding := [] in
  forEach (tasks data) (fun task _ errors =>
    let qualifiedWorkers := qualifiedWorkers data task in
    if (MaxConcurrent task >? lengthOf qualifiedWorkers)%Z then
      push errors (concurrencyFinding task (lengthOf qualifiedWorkers))
    else errors) errors.

(** ** The report builder *)

(** [validateDataSet] holds a reference to the caller's dataset and a local
    array [errors] that it grows rule by rule; [M] passes both along.
    This gives the report as a function of the dataset.  What a call does
    to the store it runs in is the subject of [Run] below, where the rules
    are programs that allocate, read and write. *)
Record Store : Type := mkStore {
  heapData : DataSet;
  localErrors : list Finding
}.

Definition M (A : Type) : Type := Store → A * Store.

#[global] Instance M_ret : MRet M := fun A (a : A) s => (a, s).
#[global] Instance M_bind : MBind M :=
  fun A B (k : A → M B) (m : M A) s => let '(a, s') := m s in k a s'.

(** [errors.push(...rule(data))]: the rule reads the dataset through the
    reference, its findings are appended to the local array. *)
Definition pushAll (rule : DataSet → list Finding) : M unit :=
  fun s => (tt, {| heapData := heapData s;
                   localErrors := localErrors s ++ rule (heapData s) |}).

Definition readErrors : M (list Finding) := fun s => (localErrors s, s).

Definition isError (e : Finding) : bool :=
  bool_decide (ValidationError.type e = TError).
Definition isWarning (e : Finding) : bool :=
  bool_decide (ValidationError.type e = TWarning).

Definition validateDataSetM : M ValidationResult :=
  pushAll validateMissingRequiredColumns ;;
  pushAll validateDuplicateIDs ;;
  pushAll validateMalformedLists ;;
  pushAll validateOutOfRangeValues ;;
  pushAll validateBrokenJSON ;;
  pushAll validateUnknownReferences ;;
  pushAll validateOverloadedWorkers ;;
  pushAll validatePhaseSlotSaturation ;;
  pushAll validateSkillCoverageMatrix ;;
  pushAll validateMaxConcurrencyFeasibility ;;
  errors ← readErrors ;
  let actualErrors := List.filter isError errors in
  let warnings := List.filter isWarning errors in
  mret {| isValid := (length actualErrors =? 0)%nat;
         errors := actualErrors;
         warnings := warnings |}.

(** A call [validateDataSet(data)]: the result, and the dataset as the
    call leaves it. *)
Definition callValidateDataSet (data : DataSet) : ValidationResult * DataSet :=
  let '(result, s) := validateDataSetM {| heapData := data; localErrors := [] |} in
  (result, heapData s).

Definition validateDataSet (data : DataSet) : ValidationResult :=
  fst (callValidateDataSet data).

(** All findings of the report, errors first. *)
Definition findings (r : ValidationResult) : list Finding :=
  errors r ++ warnings r.

(** The findings of the ten rules in the order the rules run. *)
Definition allFindings (data : DataSet) : list Finding :=
  validateMissingRequiredColumns data ++ validateDuplicateIDs data
  ++ validateMalformedLists data ++ validateOutOfRangeValues data
  ++ validateBrokenJSON data ++ validateUnknownReferences data
  ++ validateOverloadedWorkers data ++ validatePhaseSlotSaturation data
  ++ validateSkillCoverageMatrix data ++ validateMaxConcurrencyFeasibility data.

(** ** Sample data *)

Definition sampleClient (cid : string) (priority : Z) (requested : list string)
    (attrs : JSValue) : Client :=
  {| ClientID := cid; ClientName := "Acme"; PriorityLevel := priority;
     RequestedTaskIDs := requested; GroupTag := "GroupA";
     AttributesJSON := attrs |}.

Definition sampleWorker (wid : string) (skills : list string) (slots : list Z)
    (maxLoad : Z) : Worker :=
  {| WorkerID := wid; WorkerName := "Worker"; Skills := skills;
     AvailableSlots := map Int slots; MaxLoadPerPhase := maxLoad;
     WorkerGroup := "GroupA"; QualificationLevel := "Senior" |}.

Definition sampleTask (tid : string) (duration : Z) (skills : list string)
    (phases : list Z) (maxConcurrent : Z) : Task :=
  {| TaskID := tid; TaskName := "Task"; Category := "ETL";
     Duration := duration; RequiredSkills := skills;
     PreferredPhases := phases; MaxConcurrent := maxConcurrent |}.


(** A client whose [AttributesJSON] is the string ["abc"]: what
    [JSON.parse] returns for a cell holding the JSON text of that string.
    The field is present and is not a mapping. *)
Definition brokenJSONInput : DataSet :=
  {| clients := [sampleClient "C1" 3 [] (JSString "abc")];
     workers := [];
     tasks := [] |}.

(** Two clients sharing the ID ["C1"]. *)
Definition twoClientsC1 : DataSet :=
  {| clients := [sampleClient "C1" 3 [] (JSObject []);
                 sampleClient "C1" 2 [] (JSObject [])];
     workers := [];
     tasks := [] |}.

(** Two clients whose ID is the empty string. *)
Definition twoClientsNoID : DataSet :=
  {| clients := [sampleClient "" 3 [] (JSObject []);
                 sampleClient "" 2 [] (JSObject [])];
     workers := [];
     tasks := [] |}.





(** Task [T1] wants three workers at once; two of the three workers have
    both skills it requires. *)
Definition concurrencyInput : DataSet :=
  {| clients := [];
     workers := [sampleWorker "W1" ["etl"; "sql"] [1]%Z 1;
                 sampleWorker "W2" ["sql"] [1]%Z 1;
                 sampleWorker "W3" ["sql"; "ml"; "etl"] [1]%Z 1];
     tasks := [sampleTask "T1" 1 ["etl"; "sql"] [1]%Z 3] |}.

(** One worker with two entries of [AvailableSlots] below 1. *)
Definition twoBadSlotsInput : DataSet :=
  {| clients := [];
     workers := [sampleWorker "W1" ["etl"] [0; -1]%Z 1];
     tasks := [] |}.

(** A client of priority 0 and a task of duration 0. *)
Definition zeroValuesInput : DataSet :=
  {| clients := [sampleClient "C1" 0 [] (JSObject [])];
     workers := [sampleWorker "W1" ["etl"] [1]%Z 1];
     tasks := [sampleTask "T1" 0 ["etl"] [1]%Z 1] |}.

(** ** Notions the properties are stated with *)

(** What duplicate-ID detection reports for one collection if it reports,
    in order, every entity whose ID already occurs at an earlier position,
    among the IDs that [counts] accepts. *)
Definition laterOccurrenceReports {A : Type} (counts : string → bool)
    (getID : A → string) (mkFinding : string → Finding)
    (entities : list A) : list Finding :=
  concat (imap (fun i entity =>
    if counts (getID entity)
       && bool_decide (getID entity ∈ take i (map getID entities))
    then [mkFinding (getID entity)]
    else []) entities).

Definition anyID (x : string) : bool := true.
Definition nonEmptyID (x : string) : bool := negb (String.eqb x "").

(** The three collections together. *)
Definition duplicateReports (counts : string → bool) (data : DataSet) : list Finding :=
  laterOccurrenceReports counts ClientID
    (duplicateFinding "client" "ClientID" "ClientID" EClient) (clients data)
  ++ laterOccurrenceReports counts WorkerID
    (duplicateFinding "worker" "WorkerID" "WorkerID" EWorker) (workers data)
  ++ laterOccurrenceReports counts TaskID
    (duplicateFinding "task" "TaskID" "TaskID" ETask) (tasks data).

Definition sumZ (l : list Z) : Z := foldr Z.add 0%Z l.

(** How many entries of [l] are the phase [p]. *)
Definition occurrences {K : Type} `{EqDecision K} (p : K) (l : list K) : Z :=
  lengthOf (List.filter (fun q => bool_decide (p = q)) l).

(** Demand on a phase, as the code accumulates it: a task adds its full
    [Duration] once for every entry of [PreferredPhases] that is the phase. *)
Definition phaseDemand (data : DataSet) (p : Z) : Z :=
  sumZ (map (fun task => (occurrences p (PreferredPhases task) * Duration task)%Z)
            (tasks data)).

(** Supply of a phase, likewise per entry of [AvailableSlots]. *)
Definition phaseSupply (data : DataSet) (p : Z) : Z :=
  sumZ (map (fun worker =>
               (occurrences (Int p) (AvailableSlots worker)
                * MaxLoadPerPhase worker)%Z)
            (workers data)).






(** Some task lists the phase. *)
Definition isPreferred (data : DataSet) (p : Z) : Prop :=
  Exists (fun task => p ∈ PreferredPhases task) (tasks data).

(** Demand and supply counting each task and each worker once. *)
Definition statedDemand (data : DataSet) (p : Z) : Z :=
  sumZ (map Duration
    (List.filter (fun task => bool_decide (p ∈ PreferredPhases task)) (tasks data))).

Definition statedSupply (data : DataSet) (p : Z) : Z :=
  sumZ (map MaxLoadPerPhase
    (List.filter (fun worker => bool_decide (Int p ∈ AvailableSlots worker))
                 (workers data))).



(** The worker holds every skill the task requires. *)
Definition qualifiedFor (task : Task) (worker : Worker) : Prop :=
  ∀ skill, skill ∈ RequiredSkills task → skill ∈ Skills worker.

#[global] Instance qualifiedFor_dec task worker : Decision (qualifiedFor task worker).
Proof.
  unfold qualifiedFor.
  destruct (decide (Forall (fun skill => skill ∈ Skills worker) (RequiredSkills task)))
    as [H|H]; [left|right]; by rewrite <- Forall_forall.
Defined.

(** The number of workers qualified for the task. *)
Definition qualifiedCount (data : DataSet) (task : Task) : Z :=
  lengthOf (List.filter (fun worker => bool_decide (qualifiedFor task worker))
                        (workers data)).

(** Some task of the collection has the given ID. *)
Definition taskExists (data : DataSet) (taskID : string) : Prop :=
  Exists (fun task => TaskID task = taskID) (tasks data).

(** What rule 1 reports for one collection: per entity, in the order of
    the required fields, one finding for each field that [isMissing]. *)
Definition missingReports {A : Type} (kind : string) (entity : EntityType)
    (fields : list string) (getField : A → string → JSValue)
    (getID : A → string) (entities : list A) : list Finding :=
  concat (imap (fun index e =>
    flat_map (fun field =>
      if isMissing (getField e field)
      then [missingFinding kind entity field index (getID e)]
      else []) fields) entities).

(** In a loop of rule 2, [seen] holds exactly the non-empty IDs of the
    entities [pre] gone through so far. *)
Definition seenMatches {A : Type} (getID : A → string)
    (seen : gmap string nat) (pre : list A) : Prop :=
  ∀ x, is_Some (seen !! x) ↔ x ≠ "" ∧ x ∈ map getID pre.







#[global] Instance isPreferred_dec data p : Decision (isPreferred data p).
Proof. unfold isPreferred. apply _. Defined.

#[global] Instance taskExists_dec data taskID : Decision (taskExists data taskID).
Proof. unfold taskExists. apply _. Defined.

(** What the last loop of rule 10 pushes for one entry of the demand map,
    with [supplyAt] the supply it reads for a phase. *)
Definition saturationEntry (supplyAt : Z → Number) (entry : Z * Number)
    : list Finding :=
  if numGt (snd entry) (supplyAt (fst entry))
  then [saturationFinding (fst entry) (snd entry) (supplyAt (fst entry))]
  else [].

(** The supply that the last loop of rule 10 reads for a phase. *)
Definition supplyRead (data : DataSet) (p : Z) : Number :=
  numOr (JSMap.get (phaseSupplyOf data) (Int p)) (Int 0).


(** The finding is not of severity low. *)
Definition notLow (f : Finding) : Prop := ValidationError.severity f ≠ Low.

(** ** Notions for the rules the claims leave out *)

(** Every finding of the list is of the given kind. *)
Definition allOfType (ty : FindingType) (l : list Finding) : Prop :=
  Forall (fun f => ValidationError.type f = ty) l.

(** The finding rule 9 of the source (overloaded workers) pushes. *)
Definition overloadedFinding (worker : Worker) : Finding :=
  {| ValidationError.id := "overloaded-worker-" +:+ WorkerID worker;
     ValidationError.type := TWarning;
     ValidationError.message :=
       "Worker has " +:+ pretty (lengthOf (AvailableSlots worker))
         +:+ " available slots but MaxLoadPerPhase is "
         +:+ pretty (MaxLoadPerPhase worker);
     ValidationError.field := Some "MaxLoadPerPhase";
     ValidationError.entityType := EWorker;
     ValidationError.entityId := WorkerID worker;
     ValidationError.severity := Medium |}.

(** The finding rule 11 of the source (skill coverage) pushes. *)
Definition coverageFinding (task : Task) (skill : string) : Finding :=
  {| ValidationError.id := "missing-skill-" +:+ TaskID task +:+ "-" +:+ skill;
     ValidationError.type := TError;
     ValidationError.message := "No worker has required skill: " +:+ skill;
     ValidationError.field := Some "RequiredSkills";
     ValidationError.entityType := ETask;
     ValidationError.entityId := TaskID task;
     ValidationError.severity := High |}.

(** Some worker holds the skill. *)
Definition skillAvailable (data : DataSet) (skill : string) : Prop :=
  Exists (fun worker => skill ∈ Skills worker) (workers data).

#[global] Instance skillAvailable_dec data skill : Decision (skillAvailable data skill).
Proof. unfold skillAvailable. apply _. Defined.

(** What a dataset must satisfy for the report to hold no error. *)
Definition clientOK (data : DataSet) (client : Client) : Prop :=
  ClientID client ≠ "" ∧ ClientName client ≠ ""
  ∧ (1 ≤ PriorityLevel client ≤ 5)%Z
  ∧ ∀ taskID, taskID ∈ RequestedTaskIDs client → taskExists data taskID.

(** The slot is a number and is at least 1. *)
Definition atLeastOne (slot : Number) : Prop :=
  match slot with
  | Int z => (1 ≤ z)%Z
  | PosInfinity => True
  | NegInfinity | NaN => False
  end.

#[global] Instance atLeastOne_dec slot : Decision (atLeastOne slot).
Proof. destruct slot; simpl; apply _. Defined.

Definition workerOK (worker : Worker) : Prop :=
  WorkerID worker ≠ "" ∧ WorkerName worker ≠ ""
  ∧ Skills worker ≠ [] ∧ AvailableSlots worker ≠ []
  ∧ ∀ slot, slot ∈ AvailableSlots worker → atLeastOne slot.

Definition taskOK (data : DataSet) (task : Task) : Prop :=
  TaskID task ≠ "" ∧ TaskName task ≠ ""
  ∧ (1 ≤ Duration task)%Z ∧ RequiredSkills task ≠ []
  ∧ ∀ skill, skill ∈ RequiredSkills task → skillAvailable data skill.

Definition errorFree (data : DataSet) : Prop :=
  Forall (clientOK data) (clients data)
  ∧ Forall workerOK (workers data)
  ∧ Forall (taskOK data) (tasks data)
  ∧ NoDup (map ClientID (clients data))
  ∧ NoDup (map WorkerID (workers data))
  ∧ NoDup (map TaskID (tasks data)).

(** The IDs of a collection that are not empty. *)
Definition nonEmptyIDs {A : Type} (getID : A → string) (entities : list A) : list string :=
  List.filter nonEmptyID (map getID entities).

(** The dataset with every field the rules do not read blanked:
    [GroupTag] and [AttributesJSON] of clients, [WorkerGroup] and
    [QualificationLevel] of workers, [Category] of tasks. *)
Definition blankClient (client : Client) : Client :=
  {| ClientID := ClientID client; ClientName := ClientName client;
     PriorityLevel := PriorityLevel client;
     RequestedTaskIDs := RequestedTaskIDs client;
     GroupTag := ""; AttributesJSON := JSUndefined |}.

Definition blankWorker (worker : Worker) : Worker :=
  {| WorkerID := WorkerID worker; WorkerName := WorkerName worker;
     Skills := Skills worker; AvailableSlots := AvailableSlots worker;
     MaxLoadPerPhase := MaxLoadPerPhase worker;
     WorkerGroup := ""; QualificationLevel := "" |}.

Definition blankTask (task : Task) : Task :=
  {| TaskID := TaskID task; TaskName := TaskName task; Category := "";
     Duration := Duration task; RequiredSkills := RequiredSkills task;
     PreferredPhases := PreferredPhases task;
     MaxConcurrent := MaxConcurrent task |}.

Definition blankUnread (data : DataSet) : DataSet :=
  {| clients := map blankClient (clients data);
     workers := map blankWorker (workers data);
     tasks := map blankTask (tasks data) |}.

(** The dataset with one more worker at the end. *)
Definition addWorker (data : DataSet) (worker : Worker) : DataSet :=
  {| clients := clients data;
     workers := workers data ++ [worker];
     tasks := tasks data |}.

(** The identifier of a finding of rule 1. *)
Definition missingID (kind field : string) (index : nat) : string :=
  "missing-" +:+ kind +:+ "-" +:+ field +:+ "-" +:+ pretty index.

(** The pairs of a kind of entity and one of its required fields. *)
Definition requiredKeys : list (string * string) :=
  map (pair "client") requiredClientFields
  ++ map (pair "worker") requiredWorkerFields
  ++ map (pair "task") requiredTaskFields.

(** The findings of rule 1 for the entities [entities], the first of them
    being at row [offset]. *)
Definition missingReportsFrom {A : Type} (offset : nat) (kind : string)
    (entity : EntityType) (fields : list string) (getField : A → string → JSValue)
    (getID : A → string) (entities : list A) : list Finding :=
  concat (imap (fun index e =>
    flat_map (fun field =>
      if isMissing (getField e field)
      then [missingFinding kind entity field (offset + index) (getID e)]
      else []) fields) entities).


(** ** Reading and writing a line of CSV

    [parseCSVLine] of the file parser ([parseCSV] in
    [src/lib/validations/validator.ts] and in the page component) and
    [escapeCSVValue] of the export ([convertToCSV] in the page component).
    A string is the sequence of its code units; both functions only
    compare a unit with the double quote and the comma and copy the
    others. *)

Definition quoteChar : Ascii.ascii := Ascii.ascii_of_nat 34.
Definition commaChar : Ascii.ascii := Ascii.ascii_of_nat 44.

(** The loop of [parseCSVLine]: [rest] is the line from index [i] on.  A
    quote followed by a quote inside quotes is one quote of the field
    ([i += 2]); any other quote opens or closes the quotes; a comma outside
    quotes ends the field; every other unit is added to the field.  After
    the loop the last field is pushed. *)
Fixpoint parseCSVLineLoop (rest : string) (result : list string)
    (current : string) (inQuotes : bool) : list string :=
  match rest with
  | EmptyString => push result current
  | String char rest' =>
      if Ascii.eqb char quoteChar then
        match rest' with
        | String next rest'' =>
            if inQuotes && Ascii.eqb next quoteChar then
              parseCSVLineLoop rest'' result
                (current +:+ String quoteChar EmptyString) inQuotes
            else
              parseCSVLineLoop rest' result current (negb inQuotes)
        | EmptyString =>
            parseCSVLineLoop rest' result current (negb inQuotes)
        end
      else if Ascii.eqb char commaChar && negb inQuotes then
        parseCSVLineLoop rest' (push result current) EmptyString inQuotes
      else
        parseCSVLineLoop rest' result (current +:+ String char EmptyString) inQuotes
  end.

Definition parseCSVLine (line : string) : list string :=
  parseCSVLineLoop line [] EmptyString false.

(** The [replace] of [escapeCSVValue], over all matches of a quote: every
    quote becomes two. *)
Fixpoint doubleQuotes (s : string) : string :=
  match s with
  | EmptyString => EmptyString
  | String c rest =>
      if Ascii.eqb c quoteChar
      then String quoteChar (String quoteChar (doubleQuotes rest))
      else String c (doubleQuotes rest)
  end.

(** What a cell of an exported row can hold: nothing, a string, a number,
    an array of strings or of numbers, or an object, given by the text
    [JSON.stringify] returns for it. *)
Inductive CellValue : Type :=
| CellNothing
| CellString (s : string)
| CellNumber (n : Z)
| CellStrings (xs : list string)
| CellNumbers (ns : list Z)
| CellObject (json : string).

(** [xs.join(',')]. *)
Definition joinComma (xs : list string) : string :=
  String.concat (String commaChar EmptyString) xs.

(** The [stringValue] that [escapeCSVValue] computes before it wraps it. *)
Definition stringValueOf (value : CellValue) : string :=
  match value with
  | CellNothing => EmptyString
  | CellString s => s
  | CellNumber n => pretty n
  | CellStrings xs => joinComma xs
  | CellNumbers ns => joinComma (map pretty ns)
  | CellObject json => doubleQuotes json
  end.

(** [escapeCSVValue(value)]: nothing gives the empty text; anything else
    its [stringValue] with the quotes doubled, between quotes. *)
Definition escapeCSVValue (value : CellValue) : string :=
  match value with
  | CellNothing => EmptyString
  | _ =>
      String quoteChar
        (doubleQuotes (stringValueOf value) +:+ String quoteChar EmptyString)
  end.

(** A data row of [convertToCSV]: the escaped cells joined by commas. *)
Definition csvRow (cells : list CellValue) : string :=
  joinComma (map escapeCSVValue cells).

(** The text has neither quote nor comma. *)
Definition plainText (s : string) : Prop :=
  Forall (fun c => c ≠ quoteChar ∧ c ≠ commaChar) (String.list_ascii_of_string s).

(** The number of commas of the text. *)
Definition commaCount (s : string) : nat :=
  length (List.filter (Ascii.eqb commaChar) (String.list_ascii_of_string s)).

(** Three fields without quote or comma. *)
Definition plainFields : list string := ["C1"; "Acme Corp"; "3"].

(** ** The keyword helpers ([src/lib/ai/ai.ts])

    The helpers wait for a timer before they compute; the wait has no part
    in what they return and is left out.  [toLowerCase] is the method of
    JavaScript strings, taken as given, and [now] is what [Date.now()]
    returns when the rule is built. *)

(** [s.includes(sub)]: [sub] occurs in [s] as a substring. *)
Fixpoint stringIncludes (s sub : string) : bool :=
  String.prefix sub s
  || match s with
     | EmptyString => false
     | String _ rest => stringIncludes rest sub
     end.

Inductive RuleType : Type := Constraint | Preference | Requirement.

Module BusinessRule.
Record t : Type := mk {
  id : string;
  type : RuleType;
  description : string;
  condition : string;
  action : string;
  priority : Z;
  active : bool
}.
End BusinessRule.

(** What [queryDataWithNL] returns: entities of the three kinds, mixed. *)
Inductive Entity : Type :=
| AClient (client : Client)
| AWorker (worker : Worker)
| ATask (task : Task).

Section KeywordHelpers.
Variable toLowerCase : string → string.

Definition convertNaturalLanguageToRule (now : Z) (naturalLanguage : string)
    : BusinessRule.t :=
  let type := Constraint in
  let priority := 3%Z in
  let type :=
    if stringIncludes (toLowerCase naturalLanguage) "should"
       || stringIncludes (toLowerCase naturalLanguage) "prefer"
    then Preference else type in
  let '(type, priority) :=
    if stringIncludes (toLowerCase naturalLanguage) "must"
       || stringIncludes (toLowerCase naturalLanguage) "never"
    then (Constraint, 4%Z) else (type, priority) in
  let priority :=
    if stringIncludes (toLowerCase naturalLanguage) "high priority"
       || stringIncludes (toLowerCase naturalLanguage) "critical"
    then 5%Z else priority in
  {| BusinessRule.id := "rule-" +:+ pretty now;
     BusinessRule.type := type;
     BusinessRule.description := naturalLanguage;
     BusinessRule.condition := "When applicable conditions are met";
     BusinessRule.action := "Apply the specified rule";
     BusinessRule.priority := priority;
     BusinessRule.active := true |}.

Definition generateRuleRecommendations (dataSet : DataSet) : list BusinessRule.t :=
  let recommendations := [
    {| BusinessRule.id := "rec-1";
       BusinessRule.type := Constraint;
       BusinessRule.description :=
         "High priority clients (level 4-5) should get tasks assigned first";
       BusinessRule.condition := "When client has priority level 4 or 5";
       BusinessRule.action := "Prioritize their tasks in allocation queue";
       BusinessRule.priority := 5;
       BusinessRule.active := false |};
    {| BusinessRule.id := "rec-2";
       BusinessRule.type := Constraint;
       BusinessRule.description :=
         "Workers should not exceed their maximum load per phase";
       BusinessRule.condition := "When assigning tasks to workers";
       BusinessRule.action := "Check available slots before assignment";
       BusinessRule.priority := 4;
       BusinessRule.active := false |} ] in
  let recommendations :=
    if existsb (fun w => (lengthOf (Skills w) >? 3)%Z) (workers dataSet) then
      push recommendations
        {| BusinessRule.id := "rec-3";
           BusinessRule.type := Preference;
           BusinessRule.description :=
             "Match task required skills with worker expertise";
           BusinessRule.condition := "When task requires specific skills";
           BusinessRule.action := "Assign to workers with best skill match";
           BusinessRule.priority := 4;
           BusinessRule.active := false |}
    else recommendations in
  let recommendations :=
    if existsb (fun t => (Duration t >? 5)%Z) (tasks dataSet) then
      push recommendations
        {| BusinessRule.id := "rec-4";
           BusinessRule.type := Constraint;
           BusinessRule.description :=
             "Long duration tasks should be distributed across phases";
           BusinessRule.condition := "When task duration exceeds 5 units";
           BusinessRule.action := "Spread across multiple phases if possible";
           BusinessRule.priority := 3;
           BusinessRule.active := false |}
    else recommendations in
  recommendations.

(** [text.toLowerCase().includes(word)]. *)
Definition mentions (text word : string) : bool :=
  stringIncludes (toLowerCase text) word.

Definition queryDataWithNL (query : string) (dataSet : DataSet) : list Entity :=
  let queryLower := toLowerCase query in
  let results : list Entity :=
    if stringIncludes queryLower "high priority"
       || stringIncludes queryLower "priority 4"
       || stringIncludes queryLower "priority 5" then
      map AClient
        (List.filter (fun c => (PriorityLevel c >=? 4)%Z) (clients dataSet))
    else if stringIncludes queryLower "low priority"
            || stringIncludes queryLower "priority 1"
            || stringIncludes queryLower "priority 2" then
      map AClient
        (List.filter (fun c => (PriorityLevel c <=? 2)%Z) (clients dataSet))
    else if stringIncludes queryLower "senior"
            || stringIncludes queryLower "lead" then
      map AWorker
        (List.filter (fun w =>
           mentions (QualificationLevel w) "senior"
           || mentions (QualificationLevel w) "lead"
           || mentions (WorkerName w) "senior"
           || mentions (WorkerName w) "lead") (workers dataSet))
    else if stringIncludes queryLower "junior"
            || stringIncludes queryLower "entry" then
      map AWorker
        (List.filter (fun w =>
           mentions (QualificationLevel w) "junior"
           || mentions (QualificationLevel w) "entry") (workers dataSet))
    else if stringIncludes queryLower "marketing" then
      map ATask
        (List.filter (fun t => mentions (Category t) "marketing") (tasks dataSet))
      ++ map AWorker
        (List.filter (fun w =>
           existsb (fun s => mentions s "marketing") (Skills w)) (workers dataSet))
    else if stringIncludes queryLower "development"
            || stringIncludes queryLower "coding"
            || stringIncludes queryLower "programming" then
      map ATask
        (List.filter (fun t =>
           mentions (Category t) "development"
           || mentions (Category t) "coding"
           || mentions (TaskName t) "development") (tasks dataSet))
      ++ map AWorker
        (List.filter (fun w =>
           existsb (fun s =>
             mentions s "javascript" || mentions s "python"
             || mentions s "react" || mentions s "development") (Skills w))
           (workers dataSet))
    else if stringIncludes queryLower "design" then
      map ATask
        (List.filter (fun t => mentions (Category t) "design") (tasks dataSet))
      ++ map AWorker
        (List.filter (fun w =>
           existsb (fun s => mentions s "design") (Skills w)) (workers dataSet))
    else if stringIncludes queryLower "long tasks"
            || stringIncludes queryLower "duration" then
      map ATask (List.filter (fun t => (Duration t >? 3)%Z) (tasks dataSet))
    else if stringIncludes queryLower "available workers"
            || stringIncludes queryLower "free workers" then
      map AWorker
        (List.filter (fun w => (lengthOf (AvailableSlots w) >? 0)%Z)
                     (workers dataSet))
    else
      let searchTerm := toLowerCase query in
      map AClient
        (List.filter (fun c =>
           mentions (ClientName c) searchTerm
           || mentions (GroupTag c) searchTerm) (clients dataSet))
      ++ map AWorker
        (List.filter (fun w =>
           mentions (WorkerName w) searchTerm
           || mentions (WorkerGroup w) searchTerm
           || existsb (fun s => mentions s searchTerm) (Skills w))
           (workers dataSet))
      ++ map ATask
        (List.filter (fun t =>
           mentions (TaskName t) searchTerm
           || mentions (Category t) searchTerm) (tasks dataSet)) in
  take 10 results.
End KeywordHelpers.

(** The entity belongs to the dataset. *)
Definition entityOf (dataSet : DataSet) (e : Entity) : Prop :=
  match e with
  | AClient c => c ∈ clients dataSet
  | AWorker w => w ∈ workers dataSet
  | ATask t => t ∈ tasks dataSet
  end.

(** ** The validation the page runs

    The page component (an unnamed source file) does not call the
    validator of the library: it defines a [validateDataSet] of its own,
    with fewer rules.  Three of its identifiers end in [Math.random()];
    [random k] is the text of the number that the call number [k] returns,
    and the loops count the calls made so far. *)

Definition pageFinding (id : string) (type : FindingType) (message field : string)
    (entity : EntityType) (entityId : string) (severity : Severity) : Finding :=
  {| ValidationError.id := id;
     ValidationError.type := type;
     ValidationError.message := message;
     ValidationError.field := Some field;
     ValidationError.entityType := entity;
     ValidationError.entityId := entityId;
     ValidationError.severity := severity |}.

(** [if (c) errors.push(e)]. *)
Definition pushIf (c : bool) (errors : list Finding) (e : Finding) : list Finding :=
  if c then push errors e else errors.

(** The same when the identifier of [e] takes a random number: the call is
    only made when the finding is pushed. *)
Definition pushIfRandom (c : bool) (state : nat * list Finding)
    (e : string → Finding) (random : nat → string) : nat * list Finding :=
  if c then (S (fst state), push (snd state) (e (random (fst state))))
  else state.

Definition pageValidateClient (random : nat → string) (client : Client)
    (state : nat * list Finding) : nat * list Finding :=
  let state :=
    pushIfRandom (negb (truthy (JSString (ClientID client)))) state
      (fun r => pageFinding ("missing-client-id-" +:+ r) TError
                  "Missing ClientID" "ClientID" EClient
                  (strOr (ClientID client) "Unknown") High) random in
  let errors := snd state in
  let errors :=
    pushIf (negb (truthy (JSString (ClientName client)))) errors
      (pageFinding ("missing-client-name-" +:+ ClientID client) TError
         "Missing ClientName" "ClientName" EClient (ClientID client) High) in
  let errors :=
    pushIf ((PriorityLevel client <? 1)%Z || (PriorityLevel client >? 5)%Z) errors
      (pageFinding ("invalid-priority-" +:+ ClientID client) TError
         ("PriorityLevel must be 1-5, got " +:+ pretty (PriorityLevel client))
         "PriorityLevel" EClient (ClientID client) Medium) in
  (fst state, errors).

Definition pageValidateWorker (random : nat → string) (worker : Worker)
    (state : nat * list Finding) : nat * list Finding :=
  let state :=
    pushIfRandom (negb (truthy (JSString (WorkerID worker)))) state
      (fun r => pageFinding ("missing-worker-id-" +:+ r) TError
                  "Missing WorkerID" "WorkerID" EWorker
                  (strOr (WorkerID worker) "Unknown") High) random in
  let errors := snd state in
  let errors :=
    pushIf (negb (truthy (JSString (WorkerName worker)))) errors
      (pageFinding ("missing-worker-name-" +:+ WorkerID worker) TError
         "Missing WorkerName" "WorkerName" EWorker (WorkerID worker) High) in
  let errors :=
    pushIf (lengthOf (Skills worker) =? 0)%Z errors
      (pageFinding ("no-skills-" +:+ WorkerID worker) TWarning
         "Worker has no skills listed" "Skills" EWorker (WorkerID worker) Medium) in
  let errors :=
    pushIf (lengthOf (AvailableSlots worker) =? 0)%Z errors
      (pageFinding ("no-slots-" +:+ WorkerID worker) TError
         "Worker has no available slots" "AvailableSlots" EWorker
         (WorkerID worker) High) in
  (fst state, errors).

Definition pageValidateTask (random : nat → string) (task : Task)
    (state : nat * list Finding) : nat * list Finding :=
  let state :=
    pushIfRandom (negb (truthy (JSString (TaskID task)))) state
      (fun r => pageFinding ("missing-task-id-" +:+ r) TError
                  "Missing TaskID" "TaskID" ETask
                  (strOr (TaskID task) "Unknown") High) random in
  let errors := snd state in
  let errors :=
    pushIf (negb (truthy (JSString (TaskName task)))) errors
      (pageFinding ("missing-task-name-" +:+ TaskID task) TError
         "Missing TaskName" "TaskName" ETask (TaskID task) High) in
  let errors :=
    pushIf (Duration task <? 1)%Z errors
      (pageFinding ("invalid-duration-" +:+ TaskID task) TError
         ("Duration must be at least 1, got " +:+ pretty (Duration task))
         "Duration" ETask (TaskID task) Medium) in
  let errors :=
    pushIf (lengthOf (RequiredSkills task) =? 0)%Z errors
      (pageFinding ("no-required-skills-" +:+ TaskID task) TWarning
         "Task has no required skills" "RequiredSkills" ETask
         (TaskID task) Medium) in
  (fst state, errors).

(** All the findings of the page's validation, in the order it pushes
    them. *)
Definition pageFindings (random : nat → string) (data : DataSet) : list Finding :=
  let state : nat * list Finding := (0, []) in
  let state :=
    forEach (clients data) (fun client _ state =>
      pageValidateClient random client state) state in
  let state :=
    forEach (workers data) (fun worker _ state =>
      pageValidateWorker random worker state) state in
  let state :=
    forEach (tasks data) (fun task _ state =>
      pageValidateTask random task state) state in
  let errors := snd state in
  let taskIDs : gset string := list_to_set (map TaskID (tasks data)) in
  let availableSkills : gset string :=
    list_to_set (flat_map Skills (workers data)) in
  let errors :=
    forEach (clients data) (fun client _ errors =>
      forEach (RequestedTaskIDs client) (fun taskID _ errors =>
        pushIf (negb (setHas taskIDs taskID)) errors
          (pageFinding
             ("invalid-task-ref-" +:+ ClientID client +:+ "-" +:+ taskID) TError
             ("References non-existent task: " +:+ taskID)
             "RequestedTaskIDs" EClient (ClientID client) High)) errors) errors in
  let errors :=
    forEach (tasks data) (fun task _ errors =>
      forEach (RequiredSkills task) (fun skill _ errors =>
        pushIf (negb (setHas availableSkills skill)) errors
          (pageFinding
             ("unavailable-skill-" +:+ TaskID task +:+ "-" +:+ skill) TWarning
             ("Requires skill '" +:+ skill +:+ "' but no worker has it")
             "RequiredSkills" ETask (TaskID task) High)) errors) errors in
  errors.

Definition pageValidateDataSet (random : nat → string) (data : DataSet)
    : ValidationResult :=
  let errors := pageFindings random data in
  {| isValid := (length (List.filter isError errors) =? 0)%nat;
     errors := List.filter isError errors;
     warnings := List.filter isWarning errors |}.

(** What a dataset must satisfy for the page's report to hold no error. *)
Definition pageClientOK (data : DataSet) (client : Client) : Prop :=
  ClientID client ≠ "" ∧ ClientName client ≠ ""
  ∧ (1 ≤ PriorityLevel client ≤ 5)%Z
  ∧ ∀ taskID, taskID ∈ RequestedTaskIDs client → taskExists data taskID.

Definition pageWorkerOK (worker : Worker) : Prop :=
  WorkerID worker ≠ "" ∧ WorkerName worker ≠ "" ∧ AvailableSlots worker ≠ [].

Definition pageTaskOK (task : Task) : Prop :=
  TaskID task ≠ "" ∧ TaskName task ≠ "" ∧ (1 ≤ Duration task)%Z.

Definition pageErrorFree (data : DataSet) : Prop :=
  Forall (pageClientOK data) (clients data)
  ∧ Forall pageWorkerOK (workers data)
  ∧ Forall pageTaskOK (tasks data).

(** The list holds no error. *)
Definition noError (l : list Finding) : Prop := List.filter isError l = [].

(** A step of one of the three first loops only appends to the array, and
    what it appends does not depend on what the array holds. *)
Definition appendsOnly {A : Type}
    (step : A → nat * list Finding → nat * list Finding) : Prop :=
  ∀ x n errs,
    step x (n, errs) = (fst (step x (n, [])), errs ++ snd (step x (n, []))).

(** A source of random texts, for examples. *)
Definition sampleRandom (k : nat) : string := "0." +:+ pretty k.

(** ** The calls in a store

    The functions of the validator once more, statement by statement, as
    programs that run in a store.  The store holds objects by address: the
    dataset that the argument [data] refers to and its three arrays, and
    every object a program allocates (its arrays of findings, its [Map]s
    and its [Set]s); besides, the random number generator.  A program can
    read and write every object, those of the dataset like its own.  What
    a call does to the caller's dataset, and that its report does not
    depend on anything else in the store, are then statements about the
    programs; the functions above give what they compute.  The validation
    of the page component, which draws random numbers for its identifiers,
    is there for comparison. *)
Module Run.

(** A reference is the address of an object. *)
Definition Ref : Type := nat.

(** The objects of the store: a dataset, whose three fields refer to its
    arrays; the arrays of entities, the entities being kept in them by
    value; and what the rules allocate.  Arrays of strings and of numbers
    that are only read are given by their elements. *)
Inductive Object : Type :=
| DataSetObject (clientsAt workersAt tasksAt : Ref)
| ClientArray (items : list Client)
| WorkerArray (items : list Worker)
| TaskArray (items : list Task)
| FindingArray (items : list Finding)
| IndexMap (entries : gmap string nat)
| PhaseMap (entries : JSMap.t Z)
| SlotMap (entries : JSMap.t Number)
| StringSet (items : gset string).

(** The random number generator: the text of the number that each call of
    [Math.random()] returns, and how many calls have been made. *)
Record Environment : Type := mkEnvironment {
  randomNumbers : nat → string;
  randomCalls : nat
}.

Record World : Type := mkWorld {
  objects : list Object;
  environment : Environment
}.

Definition M (A : Type) : Type := World → A * World.

#[global] Instance ret : MRet M := fun A (a : A) w => (a, w).
#[global] Instance bind : MBind M :=
  fun A B (k : A → M B) (m : M A) w => let '(a, w') := m w in k a w'.

Definition setObjects (os : list Object) (w : World) : World :=
  {| objects := os; environment := environment w |}.

(** [[]], [new Map()], [new Set()]: the new object gets the next address. *)
Definition alloc (o : Object) : M Ref :=
  fun w => (length (objects w), setObjects (objects w ++ [o]) w).

Definition lookupObject (r : Ref) : M (option Object) :=
  fun w => (objects w !! r, w).

Definition update (r : Ref) (f : Object → Object) : M unit :=
  fun w => (tt, setObjects (alter f r (objects w)) w).

(** [Math.random()], as a text. *)
Definition mathRandom : M string :=
  fun w =>
    (randomNumbers (environment w) (randomCalls (environment w)),
     {| objects := objects w;
        environment :=
          {| randomNumbers := randomNumbers (environment w);
             randomCalls := S (randomCalls (environment w)) |} |}).

(** [data.clients], [data.workers], [data.tasks]: the elements of the
    array that the field of the dataset refers to.  A reference that does
    not lead to a dataset reads as an empty array; the statements below
    are about references that do. *)
Definition dataClients (data : Ref) : M (list Client) :=
  o ← lookupObject data ;
  match o with
  | Some (DataSetObject clientsAt _ _) =>
      array ← lookupObject clientsAt ;
      mret (match array with Some (ClientArray items) => items | _ => [] end)
  | _ => mret []
  end.

Definition dataWorkers (data : Ref) : M (list Worker) :=
  o ← lookupObject data ;
  match o with
  | Some (DataSetObject _ workersAt _) =>
      array ← lookupObject workersAt ;
      mret (match array with Some (WorkerArray items) => items | _ => [] end)
  | _ => mret []
  end.

Definition dataTasks (data : Ref) : M (list Task) :=
  o ← lookupObject data ;
  match o with
  | Some (DataSetObject _ _ tasksAt) =>
      array ← lookupObject tasksAt ;
      mret (match array with Some (TaskArray items) => items | _ => [] end)
  | _ => mret []
  end.

(** The elements of an array, [...errors]. *)
Definition arrayRead (r : Ref) : M (list Finding) :=
  o ← lookupObject r ;
  mret (match o with Some (FindingArray items) => items | _ => [] end).

(** [errors.push(e1, ..., en)]. *)
Definition arrayPush (r : Ref) (es : list Finding) : M unit :=
  update r (fun o =>
    match o with FindingArray items => FindingArray (items ++ es) | _ => o end).

(** [ids.has(k)] and [ids.set(k, v)] on a [Map<string, number>]. *)
Definition indexHas (r : Ref) (k : string) : M bool :=
  o ← lookupObject r ;
  mret (match o with Some (IndexMap entries) => mapHas entries k | _ => false end).

Definition indexSet (r : Ref) (k : string) (v : nat) : M unit :=
  update r (fun o =>
    match o with IndexMap entries => IndexMap (<[k := v]> entries) | _ => o end).

(** [m.get(k)], [m.set(k, v)] and the entries of the two
    [Map<number, number>] of rule 10. *)
Definition phaseGet (r : Ref) (k : Z) : M (option Number) :=
  o ← lookupObject r ;
  mret (match o with Some (PhaseMap entries) => JSMap.get entries k | _ => None end).

Definition phaseSet (r : Ref) (k : Z) (v : Number) : M unit :=
  update r (fun o =>
    match o with PhaseMap entries => PhaseMap (JSMap.set entries k v) | _ => o end).

Definition phaseEntries (r : Ref) : M (JSMap.t Z) :=
  o ← lookupObject r ;
  mret (match o with Some (PhaseMap entries) => entries | _ => [] end).

Definition slotGet (r : Ref) (k : Number) : M (option Number) :=
  o ← lookupObject r ;
  mret (match o with Some (SlotMap entries) => JSMap.get entries k | _ => None end).

Definition slotSet (r : Ref) (k : Number) (v : Number) : M unit :=
  update r (fun o =>
    match o with SlotMap entries => SlotMap (JSMap.set entries k v) | _ => o end).

(** [set.add(x)] and [set.has(x)]. *)
Definition stringSetAdd (r : Ref) (x : string) : M unit :=
  update r (fun o =>
    match o with StringSet items => StringSet ({[ x ]} ∪ items) | _ => o end).

Definition stringSetHas (r : Ref) (x : string) : M bool :=
  o ← lookupObject r ;
  mret (match o with Some (StringSet items) => setHas items x | _ => false end).

(** [xs.forEach((x, index) => body)], over the elements that [xs] holds
    when the loop begins: no loop of the validator writes to the array or
    [Map] it goes through. *)
Fixpoint forEach_from {A : Type} (xs : list A) (index : nat)
    (body : A → nat → M unit) : M unit :=
  match xs with
  | [] => mret tt
  | x :: rest => body x index ;; forEach_from rest (S index) body
  end.

Definition forEach {A : Type} (xs : list A) (body : A → nat → M unit) : M unit :=
  forEach_from xs 0 body.

(** [if (c) statement]. *)
Definition when (c : bool) (statement : M unit) : M unit :=
  if c then statement else mret tt.

(** 1. Missing required columns *)
Definition validateMissingRequiredColumns (data : Ref) : M Ref :=
  errors ← alloc (FindingArray []) ;
  clientList ← dataClients data ;
  forEach clientList (fun client index =>
    forEach requiredClientFields (fun field _ =>
      when (isMissing (clientField client field))
        (arrayPush errors
           [missingFinding "client" EClient field index (ClientID client)]))) ;;
  workerList ← dataWorkers data ;
  forEach workerList (fun worker index =>
    forEach requiredWorkerFields (fun field _ =>
      when (isMissing (workerField worker field))
        (arrayPush errors
           [missingFinding "worker" EWorker field index (WorkerID worker)]))) ;;
  taskList ← dataTasks data ;
  forEach taskList (fun task index =>
    forEach requiredTaskFields (fun field _ =>
      when (isMissing (taskField task field))
        (arrayPush errors
           [missingFinding "task" ETask field index (TaskID task)]))) ;;
  mret errors.

(** One of the three loops of rule 2, over its own [Map]. *)
Definition duplicateLoop {A : Type} (errors : Ref) (entities : list A)
    (getID : A → string) (mkFinding : string → Finding) : M unit :=
  ids ← alloc (IndexMap ∅) ;
  forEach entities (fun entity index =>
    when (truthy (JSString (getID entity)))
      (seen ← indexHas ids (getID entity) ;
       if seen : bool then arrayPush errors [mkFinding (getID entity)]
       else indexSet ids (getID entity) index)).

(** 2. Duplicate IDs *)
Definition validateDuplicateIDs (data : Ref) : M Ref :=
  errors ← alloc (FindingArray []) ;
  clientList ← dataClients data ;
  duplicateLoop errors clientList ClientID
    (duplicateFinding "client" "ClientID" "ClientID" EClient) ;;
  workerList ← dataWorkers data ;
  duplicateLoop errors workerList WorkerID
    (duplicateFinding "worker" "WorkerID" "WorkerID" EWorker) ;;
  taskList ← dataTasks data ;
  duplicateLoop errors taskList TaskID
    (duplicateFinding "task" "TaskID" "TaskID" ETask) ;;
  mret errors.

(** 3. Malformed lists *)
Definition validateMalformedLists (data : Ref) : M Ref :=
  errors ← alloc (FindingArray []) ;
  workerList ← dataWorkers data ;
  forEach workerList (fun worker _ =>
    forEach (AvailableSlots worker) (fun slot _ =>
      when (isNaN slot || numLt slot (Int 1))
        (arrayPush errors [malformedSlotFinding worker slot]))) ;;
  mret errors.

(** 4. Out-of-range values *)
Definition validateOutOfRangeValues (data : Ref) : M Ref :=
  errors ← alloc (FindingArray []) ;
  clientList ← dataClients data ;
  forEach clientList (fun client _ =>
    when ((PriorityLevel client <? 1)%Z || (PriorityLevel client >? 5)%Z)
      (arrayPush errors [priorityRangeFinding client])) ;;
  taskList ← dataTasks data ;
  forEach taskList (fun task _ =>
    when (Duration task <? 1)%Z
      (arrayPush errors [durationRangeFinding task])) ;;
  mret errors.

(** 5. Broken JSON *)
Definition validateBrokenJSON (data : Ref) : M Ref :=
  errors ← alloc (FindingArray []) ;
  clientList ← dataClients data ;
  forEach clientList (fun client _ =>
    match brokenJSONTry client with
    | Normal => mret tt
    | Throw =>
        arrayPush errors [{|
          ValidationError.id := "broken-json-" +:+ ClientID client;
          ValidationError.type := TError;
          ValidationError.message := "Invalid JSON in AttributesJSON";
          ValidationError.field := Some "AttributesJSON";
          ValidationError.entityType := EClient;
          ValidationError.entityId := ClientID client;
          ValidationError.severity := Low |}]
    end) ;;
  mret errors.

(** 6. Unknown references *)
Definition validateUnknownReferences (data : Ref) : M Ref :=
  errors ← alloc (FindingArray []) ;
  taskList ← dataTasks data ;
  taskIDs ← alloc (StringSet (list_to_set (map TaskID taskList))) ;
  clientList ← dataClients data ;
  forEach clientList (fun client _ =>
    forEach (RequestedTaskIDs client) (fun taskID _ =>
      known ← stringSetHas taskIDs taskID ;
      when (negb known)
        (arrayPush errors [unknownReferenceFinding client taskID]))) ;;
  mret errors.

(** 9. Overloaded workers *)
Definition validateOverloadedWorkers (data : Ref) : M Ref :=
  errors ← alloc (FindingArray []) ;
  workerList ← dataWorkers data ;
  forEach workerList (fun worker _ =>
    when (lengthOf (AvailableSlots worker) <? MaxLoadPerPhase worker)%Z
      (arrayPush errors [overloadedFinding worker])) ;;
  mret errors.

(** 10. Phase-slot saturation *)
Definition validatePhaseSlotSaturation (data : Ref) : M Ref :=
  errors ← alloc (FindingArray []) ;
  phaseDemand ← alloc (PhaseMap JSMap.empty) ;
  taskList ← dataTasks data ;
  forEach taskList (fun task _ =>
    forEach (PreferredPhases task) (fun phase _ =>
      current ← phaseGet phaseDemand phase ;
      let currentDemand := numOr current (Int 0) in
      phaseSet phaseDemand phase (numAdd currentDemand (Int (Duration task))))) ;;
  phaseSupply ← alloc (SlotMap JSMap.empty) ;
  workerList ← dataWorkers data ;
  forEach workerList (fun worker _ =>
    forEach (AvailableSlots worker) (fun phase _ =>
      current ← slotGet phaseSupply phase ;
      let currentSupply := numOr current (Int 0) in
      slotSet phaseSupply phase
        (numAdd currentSupply (Int (MaxLoadPerPhase worker))))) ;;
  entries ← phaseEntries phaseDemand ;
  forEach entries (fun entry _ =>
    let demand := snd entry in
    let phase := fst entry in
    read ← slotGet phaseSupply (Int phase) ;
    let supply := numOr read (Int 0) in
    when (numGt demand supply)
      (arrayPush errors [saturationFinding phase demand supply])) ;;
  mret errors.

(** 11. Skill-coverage matrix *)
Definition validateSkillCoverageMatrix (data : Ref) : M Ref :=
  errors ← alloc (FindingArray []) ;
  availableSkills ← alloc (StringSet ∅) ;
  workerList ← dataWorkers data ;
  forEach workerList (fun worker _ =>
    forEach (Skills worker) (fun skill _ =>
      stringSetAdd availableSkills skill)) ;;
  taskList ← dataTasks data ;
  forEach taskList (fun task _ =>
    forEach (RequiredSkills task) (fun skill _ =>
      available ← stringSetHas availableSkills skill ;
      when (negb available)
        (arrayPush errors [coverageFinding task skill]))) ;;
  mret errors.

(** 12. Max-concurrency feasibility *)
Definition validateMaxConcurrencyFeasibility (data : Ref) : M Ref :=
  errors ← alloc (FindingArray []) ;
  taskList ← dataTasks data ;
  forEach taskList (fun task _ =>
    workerList ← dataWorkers data ;
    let qualifiedWorkers :=
      List.filter (fun worker =>
        forallb (fun skill => includes (Skills worker) skill)
                (RequiredSkills task)) workerList in
    when (MaxConcurrent task >? lengthOf qualifiedWorkers)%Z
      (arrayPush errors [concurrencyFinding task (lengthOf qualifiedWorkers)])) ;;
  mret errors.

(** [errors.push(...rule(data))]: the rule returns its array, whose
    elements are pushed to [errors]. *)
Definition pushAll (errors : Ref) (rule : M Ref) : M unit :=
  found ← rule ;
  items ← arrayRead found ;
  arrayPush errors items.

(** [validateDataSet(data)].  The two arrays of the result are given by
    their elements. *)
Definition validateDataSet (data : Ref) : M ValidationResult :=
  errors ← alloc (FindingArray []) ;
  pushAll errors (validateMissingRequiredColumns data) ;;
  pushAll errors (validateDuplicateIDs data) ;;
  pushAll errors (validateMalformedLists data) ;;
  pushAll errors (validateOutOfRangeValues data) ;;
  pushAll errors (validateBrokenJSON data) ;;
  pushAll errors (validateUnknownReferences data) ;;
  pushAll errors (validateOverloadedWorkers data) ;;
  pushAll errors (validatePhaseSlotSaturation data) ;;
  pushAll errors (validateSkillCoverageMatrix data) ;;
  pushAll errors (validateMaxConcurrencyFeasibility data) ;;
  all ← arrayRead errors ;
  let actualErrors := List.filter isError all in
  let warnings := List.filter isWarning all in
  mret {| isValid := (length actualErrors =? 0)%nat;
         errors := actualErrors;
         warnings := warnings |}.

(** [validateDataSet] of the page component. *)
Definition pageValidateDataSet (data : Ref) : M ValidationResult :=
  errors ← alloc (FindingArray []) ;
  clientList ← dataClients data ;
  forEach clientList (fun client _ =>
    when (negb (truthy (JSString (ClientID client))))
      (random ← mathRandom ;
       arrayPush errors
         [pageFinding ("missing-client-id-" +:+ random) TError
            "Missing ClientID" "ClientID" EClient
            (strOr (ClientID client) "Unknown") High]) ;;
    when (negb (truthy (JSString (ClientName client))))
      (arrayPush errors
         [pageFinding ("missing-client-name-" +:+ ClientID client) TError
            "Missing ClientName" "ClientName" EClient (ClientID client) High]) ;;
    when ((PriorityLevel client <? 1)%Z || (PriorityLevel client >? 5)%Z)
      (arrayPush errors
         [pageFinding ("invalid-priority-" +:+ ClientID client) TError
            ("PriorityLevel must be 1-5, got " +:+ pretty (PriorityLevel client))
            "PriorityLevel" EClient (ClientID client) Medium])) ;;
  workerList ← dataWorkers data ;
  forEach workerList (fun worker _ =>
    when (negb (truthy (JSString (WorkerID worker))))
      (random ← mathRandom ;
       arrayPush errors
         [pageFinding ("missing-worker-id-" +:+ random) TError
            "Missing WorkerID" "WorkerID" EWorker
            (strOr (WorkerID worker) "Unknown") High]) ;;
    when (negb (truthy (JSString (WorkerName worker))))
      (arrayPush errors
         [pageFinding ("missing-worker-name-" +:+ WorkerID worker) TError
            "Missing WorkerName" "WorkerName" EWorker (WorkerID worker) High]) ;;
    when (lengthOf (Skills worker) =? 0)%Z
      (arrayPush errors
         [pageFinding ("no-skills-" +:+ WorkerID worker) TWarning
            "Worker has no skills listed" "Skills" EWorker
            (WorkerID worker) Medium]) ;;
    when (lengthOf (AvailableSlots worker) =? 0)%Z
      (arrayPush errors
         [pageFinding ("no-slots-" +:+ WorkerID worker) TError
            "Worker has no available slots" "AvailableSlots" EWorker
            (WorkerID worker) High])) ;;
  taskList ← dataTasks data ;
  forEach taskList (fun task _ =>
    when (negb (truthy (JSString (TaskID task))))
      (random ← mathRandom ;
       arrayPush errors
         [pageFinding ("missing-task-id-" +:+ random) TError
            "Missing TaskID" "TaskID" ETask
            (strOr (TaskID task) "Unknown") High]) ;;
    when (negb (truthy (JSString (TaskName task))))
      (arrayPush errors
         [pageFinding ("missing-task-name-" +:+ TaskID task) TError
            "Missing TaskName" "TaskName" ETask (TaskID task) High]) ;;
    when (Duration task <? 1)%Z
      (arrayPush errors
         [pageFinding ("invalid-duration-" +:+ TaskID task) TError
            ("Duration must be at least 1, got " +:+ pretty (Duration task))
            "Duration" ETask (TaskID task) Medium]) ;;
    when (lengthOf (RequiredSkills task) =? 0)%Z
      (arrayPush errors
         [pageFinding ("no-required-skills-" +:+ TaskID task) TWarning
            "Task has no required skills" "RequiredSkills" ETask
            (TaskID task) Medium])) ;;
  taskList ← dataTasks data ;
  taskIDs ← alloc (StringSet (list_to_set (map TaskID taskList))) ;
  workerList ← dataWorkers data ;
  availableSkills ← alloc (StringSet (list_to_set (flat_map Skills workerList))) ;
  clientList ← dataClients data ;
  forEach clientList (fun client _ =>
    forEach (RequestedTaskIDs client) (fun taskID _ =>
      known ← stringSetHas taskIDs taskID ;
      when (negb known)
        (arrayPush errors
           [pageFinding
              ("invalid-task-ref-" +:+ ClientID client +:+ "-" +:+ taskID) TError
              ("References non-existent task: " +:+ taskID)
              "RequestedTaskIDs" EClient (ClientID client) High]))) ;;
  taskList ← dataTasks data ;
  forEach taskList (fun task _ =>
    forEach (RequiredSkills task) (fun skill _ =>
      available ← stringSetHas availableSkills skill ;
      when (negb available)
        (arrayPush errors
           [pageFinding
              ("unavailable-skill-" +:+ TaskID task +:+ "-" +:+ skill) TWarning
              ("Requires skill '" +:+ skill +:+ "' but no worker has it")
              "RequiredSkills" ETask (TaskID task) High]))) ;;
  all ← arrayRead errors ;
  mret {| isValid := (length (List.filter isError all) =? 0)%nat;
         errors := List.filter isError all;
         warnings := List.filter isWarning all |}.

(** The store during a call: [old] holds the objects that existed when
    the call began, [locals] those allocated since. *)
Definition withLocals (old : list Object) (env : Environment)
    (locals : list Object) : World :=
  mkWorld (old ++ locals) env.

(** Among the objects [os], the reference [data] leads to the dataset [d]:
    to an object whose three fields refer to arrays that hold the clients,
    the workers and the tasks of [d]. *)
Definition holdsDataSet (os : list Object) (data : Ref) (d : DataSet) : Prop :=
  ∃ clientsAt workersAt tasksAt : Ref,
    os !! data = Some (DataSetObject clientsAt workersAt tasksAt)
    ∧ os !! clientsAt = Some (ClientArray (clients d))
    ∧ os !! workersAt = Some (WorkerArray (workers d))
    ∧ os !! tasksAt = Some (TaskArray (tasks d)).

(** Called with a reference to a dataset, the rule leaves the findings
    that [found] gives for the dataset in a new array, which it returns,
    and leaves the random number generator and every object that existed
    before as they were: the new objects come after them. *)
Definition returnsArray (rule : Ref → M Ref) (found : DataSet → list Finding)
    : Prop :=
  ∀ (old : list Object) (env : Environment) (data : Ref) (d : DataSet),
    holdsDataSet old data d →
    ∃ rest : list Object,
      rule data (mkWorld old env)
      = (length old, mkWorld (old ++ FindingArray (found d) :: rest) env).
End Run.

(** A store for examples: the dataset [d] with its three arrays, at
    address 3, an object left by an earlier call, and a random number
    generator that [calls] calls have used. *)
Definition sampleWorld (d : DataSet) (calls : nat) : Run.World :=
  {| Run.objects := [Run.ClientArray (clients d); Run.WorkerArray (workers d);
                     Run.TaskArray (tasks d); Run.DataSetObject 0 1 2;
                     Run.StringSet ∅];
     Run.environment := {| Run.randomNumbers := sampleRandom;
                           Run.randomCalls := calls |} |}.

(** A client without an ID: the page's validation draws a random number
    for the identifier of its finding. *)
Definition clientWithoutID : DataSet :=
  {| clients := [sampleClient "" 3 [] (JSObject [])];
     workers := [];
     tasks := [] |}.

(** ** Loops that only push *)

Section PushLoops.
Context {A B : Type}.

(** A loop whose body appends [g x index] to the array appends, in
    order, what [g] gives for each element. *)
Lemma forEach_from_pushes (g : A → nat → list B) (body : A → nat → list B → list B) :
  (∀ x i acc, body x i acc = acc ++ g x i) →
  ∀ xs i acc,
    forEach_from xs i body acc = acc ++ concat (imap (fun j x => g x (i + j)) xs).
Proof.
  intros Hbody xs. induction xs as [|x xs IH]; intros i acc; simpl.
  - by rewrite app_nil_r.
  - rewrite IH, Hbody, <- app_assoc, Nat.add_0_r. do 3 f_equal.
    apply imap_ext. intros j y _. simpl. f_equal. lia.
Qed.

Lemma forEach_pushes (g : A → nat → list B) (body : A → nat → list B → list B) :
  (∀ x i acc, body x i acc = acc ++ g x i) →
  ∀ xs acc, forEach xs body acc = acc ++ concat (imap (fun i x => g x i) xs).
Proof.
  intros Hbody xs acc. unfold forEach.
  by rewrite (forEach_from_pushes g body Hbody).
Qed.

(** The same when the body does not look at the index. *)
Lemma forEach_pushes_flat (g : A → list B) (body : A → nat → list B → list B) :
  (∀ x i acc, body x i acc = acc ++ g x) →
  ∀ xs acc, forEach xs body acc = acc ++ flat_map g xs.
Proof.
  intros Hbody xs acc.
  rewrite (forEach_pushes (fun x _ => g x) body Hbody). f_equal.
  generalize 0. induction xs as [|x xs IH]; intros n; simpl; [done|].
  f_equal. apply (IH (S n)).
Qed.
End PushLoops.

(** A loop whose body ignores the index is a left fold. *)
Lemma forEach_from_fold {A St : Type} (f : St → A → St) (xs : list A)
    (n : nat) (s : St) :
  forEach_from xs n (fun x _ acc => f acc x) s = fold_left f xs s.
Proof. revert n s. induction xs as [|x xs IH]; intros n s; simpl; [done|apply IH]. Qed.

(** [if c then push errors e else errors] appends a list of at most one
    finding. *)
Lemma push_if {A : Type} (c : bool) (acc : list A) (e : A) :
  (if c then push acc e else acc) = acc ++ (if c then [e] else []).
Proof. destruct c; unfold push; by rewrite ?app_nil_r. Qed.

(** ** The report as a function of the rules *)

Lemma callValidateDataSet_eq (data : DataSet) :
  callValidateDataSet data =
    ({| isValid := (length (List.filter isError (allFindings data)) =? 0)%nat;
        errors := List.filter isError (allFindings data);
        warnings := List.filter isWarning (allFindings data) |}, data).
Proof.
  unfold callValidateDataSet, validateDataSetM, allFindings.
  unfold mbind, M_bind, mret, M_ret, pushAll, readErrors. simpl.
  by rewrite <- !app_assoc.
Qed.

Lemma validateDataSet_errors (data : DataSet) :
  errors (validateDataSet data) = List.filter isError (allFindings data).
Proof. unfold validateDataSet. by rewrite callValidateDataSet_eq. Qed.

Lemma validateDataSet_warnings (data : DataSet) :
  warnings (validateDataSet data) = List.filter isWarning (allFindings data).
Proof. unfold validateDataSet. by rewrite callValidateDataSet_eq. Qed.

Lemma elem_of_errors (data : DataSet) (f : Finding) :
  f ∈ errors (validateDataSet data) ↔
  f ∈ allFindings data ∧ ValidationError.type f = TError.
Proof.
  rewrite validateDataSet_errors, !list_elem_of_In, filter_In.
  unfold isError. by rewrite bool_decide_eq_true.
Qed.

(** ** The report builder: verdict *)

(** Claim C2.  The report is valid exactly when its [errors] are empty.
    Warnings play no part: the dataset [concurrencyInput] has a warning and
    is valid. *)
Theorem isValid_iff_no_errors :
  (∀ data : DataSet,
     isValid (validateDataSet data) = true ↔ errors (validateDataSet data) = [])
  ∧ (warnings (validateDataSet concurrencyInput) ≠ []
     ∧ isValid (validateDataSet concurrencyInput) = true).
Proof.
  split.
  - intros data. unfold validateDataSet. rewrite callValidateDataSet_eq. simpl.
    rewrite Nat.eqb_eq. apply length_zero_iff_nil.
  - split; [|by vm_compute].
    vm_compute. discriminate.
Qed.

(** ** The calls in a store *)

Lemma run_bind {A B : Type} (m : Run.M A) (k : A → Run.M B)
    (w w' : Run.World) (a : A) :
  m w = (a, w') → (m ≫= k) w = k a w'.
Proof. intros Hm. unfold mbind, Run.bind. by rewrite Hm. Qed.

(** One statement of a program run on a store whose outcome is known. *)
Tactic Notation "run" tactic3(t) := erewrite run_bind by t; cbv beta.

(** A loop whose body, on the store that stands for the local variables
    [s], leaves the store that stands for [f x i s], ends on the store
    that stands for what the loop of [f] computes. *)
Lemma forEach_from_sim {A St : Type} (repr : St → Run.World)
    (f : A → nat → St → St) (body : A → nat → Run.M unit) :
  (∀ x i s, body x i (repr s) = (tt, repr (f x i s))) →
  ∀ xs i s,
    Run.forEach_from xs i body (repr s) = (tt, repr (forEach_from xs i f s)).
Proof.
  intros Hbody xs. induction xs as [|x xs IH]; intros i s; [done|].
  cbn [Run.forEach_from forEach_from]. run (apply Hbody). apply IH.
Qed.

Lemma forEach_sim {A St : Type} (repr : St → Run.World)
    (f : A → nat → St → St) (body : A → nat → Run.M unit) (xs : list A) (s : St) :
  (∀ x i s, body x i (repr s) = (tt, repr (f x i s))) →
  Run.forEach xs body (repr s) = (tt, repr (forEach xs f s)).
Proof. intros Hbody. by apply forEach_from_sim. Qed.

Section Locals.
Variables (old : list Run.Object) (env : Run.Environment).

Lemma alloc_local (o : Run.Object) (locals : list Run.Object) :
  Run.alloc o (Run.withLocals old env locals)
  = (length old + length locals, Run.withLocals old env (locals ++ [o])).
Proof.
  unfold Run.alloc, Run.withLocals, Run.setObjects. simpl.
  by rewrite length_app, app_assoc.
Qed.

Lemma lookup_local (i : nat) (locals : list Run.Object) :
  Run.lookupObject (length old + i) (Run.withLocals old env locals)
  = (locals !! i, Run.withLocals old env locals).
Proof.
  unfold Run.lookupObject, Run.withLocals. simpl.
  rewrite lookup_app_r by lia. do 2 f_equal. lia.
Qed.

Lemma update_local (i : nat) (f : Run.Object → Run.Object)
    (locals : list Run.Object) :
  Run.update (length old + i) f (Run.withLocals old env locals)
  = (tt, Run.withLocals old env (alter f i locals)).
Proof.
  unfold Run.update, Run.withLocals, Run.setObjects. simpl.
  by rewrite alter_app_r.
Qed.

(** An object that existed when the call began is read as it is,
    whatever has been allocated since. *)
Lemma lookup_old (r : Run.Ref) (o : Run.Object) (locals : list Run.Object) :
  old !! r = Some o →
  Run.lookupObject r (Run.withLocals old env locals)
  = (Some o, Run.withLocals old env locals).
Proof.
  intros Hr. unfold Run.lookupObject, Run.withLocals. simpl.
  by rewrite (lookup_app_l_Some _ _ _ _ Hr).
Qed.

Lemma dataClients_local (data : Run.Ref) (d : DataSet) (locals : list Run.Object) :
  Run.holdsDataSet old data d →
  Run.dataClients data (Run.withLocals old env locals)
  = (clients d, Run.withLocals old env locals).
Proof.
  intros (c & w & t & Hd & Hc & Hw & Ht). unfold Run.dataClients.
  run (by apply lookup_old). cbv iota. by run (by apply lookup_old).
Qed.

Lemma dataWorkers_local (data : Run.Ref) (d : DataSet) (locals : list Run.Object) :
  Run.holdsDataSet old data d →
  Run.dataWorkers data (Run.withLocals old env locals)
  = (workers d, Run.withLocals old env locals).
Proof.
  intros (c & w & t & Hd & Hc & Hw & Ht). unfold Run.dataWorkers.
  run (by apply lookup_old). cbv iota. by run (by apply lookup_old).
Qed.

Lemma dataTasks_local (data : Run.Ref) (d : DataSet) (locals : list Run.Object) :
  Run.holdsDataSet old data d →
  Run.dataTasks data (Run.withLocals old env locals)
  = (tasks d, Run.withLocals old env locals).
Proof.
  intros (c & w & t & Hd & Hc & Hw & Ht). unfold Run.dataTasks.
  run (by apply lookup_old). cbv iota. by run (by apply lookup_old).
Qed.

(** The object allocated last. *)
Lemma lookup_last (front : list Run.Object) (o : Run.Object) :
  Run.lookupObject (length old + length front)
    (Run.withLocals old env (front ++ [o]))
  = (Some o, Run.withLocals old env (front ++ [o])).
Proof. rewrite lookup_local. by rewrite list_lookup_middle. Qed.

Lemma update_last (f : Run.Object → Run.Object) (front : list Run.Object)
    (o : Run.Object) :
  Run.update (length old + length front) f
    (Run.withLocals old env (front ++ [o]))
  = (tt, Run.withLocals old env (front ++ [f o])).
Proof.
  rewrite update_local. do 2 f_equal.
  rewrite <- (Nat.add_0_r (length front)). by rewrite alter_app_r.
Qed.

(** The array [errors], allocated first. *)
Lemma arrayPush_first (errs es : list Finding) (rest : list Run.Object) :
  Run.arrayPush (length old + 0) es
    (Run.withLocals old env (Run.FindingArray errs :: rest))
  = (tt, Run.withLocals old env (Run.FindingArray (errs ++ es) :: rest)).
Proof. unfold Run.arrayPush. by rewrite update_local. Qed.

Lemma when_push_first (c : bool) (errs : list Finding) (e : Finding)
    (rest : list Run.Object) :
  Run.when c (Run.arrayPush (length old + 0) [e])
    (Run.withLocals old env (Run.FindingArray errs :: rest))
  = (tt, Run.withLocals old env
           (Run.FindingArray (if c then push errs e else errs) :: rest)).
Proof. destruct c; [apply arrayPush_first|done]. Qed.

Lemma arrayRead_first (errs : list Finding) (rest : list Run.Object) :
  Run.arrayRead (length old + 0)
    (Run.withLocals old env (Run.FindingArray errs :: rest))
  = (errs, Run.withLocals old env (Run.FindingArray errs :: rest)).
Proof. unfold Run.arrayRead. by run (apply lookup_local). Qed.

(** Reads of the object allocated last. *)
Lemma indexHas_last (front : list Run.Object) (seen : gmap string nat) (k : string) :
  Run.indexHas (length old + length front) k
    (Run.withLocals old env (front ++ [Run.IndexMap seen]))
  = (mapHas seen k, Run.withLocals old env (front ++ [Run.IndexMap seen])).
Proof. unfold Run.indexHas. by run (apply lookup_last). Qed.

Lemma indexSet_last (front : list Run.Object) (seen : gmap string nat)
    (k : string) (v : nat) :
  Run.indexSet (length old + length front) k v
    (Run.withLocals old env (front ++ [Run.IndexMap seen]))
  = (tt, Run.withLocals old env (front ++ [Run.IndexMap (<[k := v]> seen)])).
Proof. unfold Run.indexSet. by rewrite update_last. Qed.

Lemma phaseGet_last (front : list Run.Object) (m : JSMap.t Z) (k : Z) :
  Run.phaseGet (length old + length front) k
    (Run.withLocals old env (front ++ [Run.PhaseMap m]))
  = (JSMap.get m k, Run.withLocals old env (front ++ [Run.PhaseMap m])).
Proof. unfold Run.phaseGet. by run (apply lookup_last). Qed.

Lemma phaseSet_last (front : list Run.Object) (m : JSMap.t Z) (k : Z) (v : Number) :
  Run.phaseSet (length old + length front) k v
    (Run.withLocals old env (front ++ [Run.PhaseMap m]))
  = (tt, Run.withLocals old env (front ++ [Run.PhaseMap (JSMap.set m k v)])).
Proof. unfold Run.phaseSet. by rewrite update_last. Qed.

Lemma slotGet_last (front : list Run.Object) (m : JSMap.t Number) (k : Number) :
  Run.slotGet (length old + length front) k
    (Run.withLocals old env (front ++ [Run.SlotMap m]))
  = (JSMap.get m k, Run.withLocals old env (front ++ [Run.SlotMap m])).
Proof. unfold Run.slotGet. by run (apply lookup_last). Qed.

Lemma slotSet_last (front : list Run.Object) (m : JSMap.t Number)
    (k : Number) (v : Number) :
  Run.slotSet (length old + length front) k v
    (Run.withLocals old env (front ++ [Run.SlotMap m]))
  = (tt, Run.withLocals old env (front ++ [Run.SlotMap (JSMap.set m k v)])).
Proof. unfold Run.slotSet. by rewrite update_last. Qed.

Lemma phaseEntries_second (first : Run.Object) (m : JSMap.t Z)
    (rest : list Run.Object) :
  Run.phaseEntries (length old + 1)
    (Run.withLocals old env (first :: Run.PhaseMap m :: rest))
  = (m, Run.withLocals old env (first :: Run.PhaseMap m :: rest)).
Proof. unfold Run.phaseEntries. by run (apply lookup_local). Qed.

Lemma stringSetHas_last (front : list Run.Object) (items : gset string) (x : string) :
  Run.stringSetHas (length old + length front) x
    (Run.withLocals old env (front ++ [Run.StringSet items]))
  = (setHas items x, Run.withLocals old env (front ++ [Run.StringSet items])).
Proof. unfold Run.stringSetHas. by run (apply lookup_last). Qed.

Lemma stringSetAdd_last (front : list Run.Object) (items : gset string) (x : string) :
  Run.stringSetAdd (length old + length front) x
    (Run.withLocals old env (front ++ [Run.StringSet items]))
  = (tt, Run.withLocals old env (front ++ [Run.StringSet ({[ x ]} ∪ items)])).
Proof. unfold Run.stringSetAdd. by rewrite update_last. Qed.

(** Loops of a rule whose local variables are in the store: the array
    [errors] first, and possibly one more object, allocated last. *)
Lemma forEach_array_sim {A : Type} (rest : list Run.Object)
    (f : A → nat → list Finding → list Finding) (body : A → nat → Run.M unit)
    (xs : list A) (errs : list Finding) :
  (∀ x i errs,
     body x i (Run.withLocals old env (Run.FindingArray errs :: rest))
     = (tt, Run.withLocals old env (Run.FindingArray (f x i errs) :: rest))) →
  Run.forEach xs body (Run.withLocals old env (Run.FindingArray errs :: rest))
  = (tt, Run.withLocals old env
           (Run.FindingArray (forEach xs f errs) :: rest)).
Proof.
  apply (forEach_sim (fun errs =>
    Run.withLocals old env (Run.FindingArray errs :: rest))).
Qed.

Lemma forEach_last_sim {A St : Type} (front : list Run.Object)
    (object : St → Run.Object) (f : A → nat → St → St)
    (body : A → nat → Run.M unit) (xs : list A) (s : St) :
  (∀ x i s,
     body x i (Run.withLocals old env (front ++ [object s]))
     = (tt, Run.withLocals old env (front ++ [object (f x i s)]))) →
  Run.forEach xs body (Run.withLocals old env (front ++ [object s]))
  = (tt, Run.withLocals old env (front ++ [object (forEach xs f s)])).
Proof.
  apply (forEach_sim (fun s =>
    Run.withLocals old env (front ++ [object s]))).
Qed.
End Locals.

(** A read of [data.clients], [data.workers] or [data.tasks]. *)
Ltac run_data :=
  first [ run (eapply dataClients_local; eassumption)
        | run (eapply dataWorkers_local; eassumption)
        | run (eapply dataTasks_local; eassumption) ].

(** The reference still leads to the dataset when objects are added. *)
Lemma holdsDataSet_app (old more : list Run.Object) (data : Run.Ref) (d : DataSet) :
  Run.holdsDataSet old data d → Run.holdsDataSet (old ++ more) data d.
Proof.
  intros (c & w & t & Hd & Hc & Hw & Ht). exists c, w, t.
  repeat split; by apply lookup_app_l_Some.
Qed.

Lemma returnsArray_intro (rule : Run.Ref → Run.M Run.Ref)
    (found : DataSet → list Finding) :
  (∀ old env data d,
     Run.holdsDataSet old data d →
     ∃ rest,
       rule data (Run.withLocals old env [])
       = (length old + 0,
          Run.withLocals old env (Run.FindingArray (found d) :: rest))) →
  Run.returnsArray rule found.
Proof.
  intros Hrule old env data d Hdata.
  destruct (Hrule old env data d Hdata) as [rest Hrun].
  exists rest. unfold Run.withLocals in Hrun.
  by rewrite app_nil_r, Nat.add_0_r in Hrun.
Qed.

Lemma run_validateMissingRequiredColumns :
  Run.returnsArray Run.validateMissingRequiredColumns validateMissingRequiredColumns.
Proof.
  apply returnsArray_intro. intros old env data d Hdata. exists [].
  unfold Run.validateMissingRequiredColumns.
  run (apply alloc_local). run_data.
  run (apply forEach_array_sim;
       intros client index errs;
       apply forEach_array_sim;
       intros field i errs'; apply when_push_first).
  run_data.
  run (apply forEach_array_sim;
       intros worker index errs;
       apply forEach_array_sim;
       intros field i errs'; apply when_push_first).
  run_data.
  run (apply forEach_array_sim;
       intros task index errs;
       apply forEach_array_sim;
       intros field i errs'; apply when_push_first).
  reflexivity.
Qed.

Lemma run_validateMalformedLists :
  Run.returnsArray Run.validateMalformedLists validateMalformedLists.
Proof.
  apply returnsArray_intro. intros old env data d Hdata. exists [].
  unfold Run.validateMalformedLists.
  run (apply alloc_local). run_data.
  run (apply forEach_array_sim;
       intros worker index errs;
       apply forEach_array_sim;
       intros slot i errs'; apply when_push_first).
  reflexivity.
Qed.

Lemma run_validateOutOfRangeValues :
  Run.returnsArray Run.validateOutOfRangeValues validateOutOfRangeValues.
Proof.
  apply returnsArray_intro. intros old env data d Hdata. exists [].
  unfold Run.validateOutOfRangeValues.
  run (apply alloc_local). run_data.
  run (apply forEach_array_sim;
       intros client index errs; apply when_push_first).
  run_data.
  run (apply forEach_array_sim;
       intros task index errs; apply when_push_first).
  reflexivity.
Qed.

Lemma run_validateBrokenJSON :
  Run.returnsArray Run.validateBrokenJSON validateBrokenJSON.
Proof.
  apply returnsArray_intro. intros old env data d Hdata. exists [].
  unfold Run.validateBrokenJSON.
  run (apply alloc_local). run_data.
  run (apply (forEach_array_sim old env []
         (fun client _ errs =>
            match brokenJSONTry client with
            | Normal => errs
            | Throw =>
                push errs {|
                  ValidationError.id := "broken-json-" +:+ ClientID client;
                  ValidationError.type := TError;
                  ValidationError.message := "Invalid JSON in AttributesJSON";
                  ValidationError.field := Some "AttributesJSON";
                  ValidationError.entityType := EClient;
                  ValidationError.entityId := ClientID client;
                  ValidationError.severity := Low |}
            end));
       intros client index errs;
       destruct (brokenJSONTry client); [reflexivity|apply arrayPush_first]).
  reflexivity.
Qed.

Lemma run_validateOverloadedWorkers :
  Run.returnsArray Run.validateOverloadedWorkers validateOverloadedWorkers.
Proof.
  apply returnsArray_intro. intros old env data d Hdata. exists [].
  unfold Run.validateOverloadedWorkers.
  run (apply alloc_local). run_data.
  run (apply forEach_array_sim;
       intros worker index errs; apply when_push_first).
  reflexivity.
Qed.

Lemma run_validateMaxConcurrencyFeasibility :
  Run.returnsArray Run.validateMaxConcurrencyFeasibility
    validateMaxConcurrencyFeasibility.
Proof.
  apply returnsArray_intro. intros old env data d Hdata. exists [].
  unfold Run.validateMaxConcurrencyFeasibility.
  run (apply alloc_local). run_data.
  run (apply forEach_array_sim;
       intros task index errs; run_data; apply when_push_first).
  reflexivity.
Qed.

Lemma run_validateUnknownReferences :
  Run.returnsArray Run.validateUnknownReferences validateUnknownReferences.
Proof.
  apply returnsArray_intro. intros old env data d Hdata.
  exists [Run.StringSet (list_to_set (map TaskID (tasks d)))].
  unfold Run.validateUnknownReferences.
  run (apply alloc_local). run_data. run (apply alloc_local).
  run_data.
  run (apply forEach_array_sim; intros client index errs;
       apply forEach_array_sim; intros taskID i errs';
       run (apply (stringSetHas_last old env [Run.FindingArray errs']));
       apply when_push_first).
  reflexivity.
Qed.

Lemma run_validateSkillCoverageMatrix :
  Run.returnsArray Run.validateSkillCoverageMatrix validateSkillCoverageMatrix.
Proof.
  apply returnsArray_intro. intros old env data d Hdata. eexists.
  unfold Run.validateSkillCoverageMatrix.
  run (apply alloc_local). run (apply alloc_local). run_data.
  run (apply (forEach_last_sim old env [Run.FindingArray []] Run.StringSet);
       intros worker index skills;
       apply (forEach_last_sim old env [Run.FindingArray []] Run.StringSet);
       intros skill i skills'; apply stringSetAdd_last).
  run_data.
  run (apply forEach_array_sim; intros task index errs;
       apply forEach_array_sim; intros skill i errs';
       run (apply (stringSetHas_last old env [Run.FindingArray errs']));
       apply when_push_first).
  reflexivity.
Qed.

(** One loop of rule 2: its [Map] is allocated after the objects [mid] that
    the rule already has. *)
Lemma run_duplicateLoop {A : Type} (old : list Run.Object)
    (env : Run.Environment) (mid : list Run.Object) (entities : list A)
    (getID : A → string) (mkFinding : string → Finding) (errs : list Finding) :
  ∃ seen,
    Run.duplicateLoop (length old + 0) entities getID mkFinding
      (Run.withLocals old env (Run.FindingArray errs :: mid))
    = (tt, Run.withLocals old env
             (Run.FindingArray (duplicateLoop entities getID mkFinding errs)
                :: mid ++ [Run.IndexMap seen])).
Proof.
  eexists. unfold Run.duplicateLoop, duplicateLoop.
  run (apply alloc_local).
  apply (forEach_sim
    (fun state : gmap string nat * list Finding =>
       Run.withLocals old env
         (Run.FindingArray (snd state) :: mid ++ [Run.IndexMap (fst state)]))
    (duplicateStep getID mkFinding) _ entities (∅, errs)).
  intros entity index [seen errs']. unfold duplicateStep, Run.when. cbn [fst snd].
  destruct (truthy (JSString (getID entity))); [|done].
  run (apply (indexHas_last old env (Run.FindingArray errs' :: mid))).
  destruct (mapHas seen (getID entity)).
  - apply arrayPush_first.
  - apply (indexSet_last old env (Run.FindingArray errs' :: mid)).
Qed.

Lemma run_validateDuplicateIDs :
  Run.returnsArray Run.validateDuplicateIDs validateDuplicateIDs.
Proof.
  apply returnsArray_intro. intros old env data d Hdata.
    destruct (run_duplicateLoop old env [] (clients d) ClientID
              (duplicateFinding "client" "ClientID" "ClientID" EClient) [])
    as [seen1 Hloop1].
  destruct (run_duplicateLoop old env [Run.IndexMap seen1] (workers d)
              WorkerID (duplicateFinding "worker" "WorkerID" "WorkerID" EWorker)
              (duplicateLoop (clients d) ClientID
                 (duplicateFinding "client" "ClientID" "ClientID" EClient) []))
    as [seen2 Hloop2].
  destruct (run_duplicateLoop old env [Run.IndexMap seen1; Run.IndexMap seen2]
              (tasks d) TaskID
              (duplicateFinding "task" "TaskID" "TaskID" ETask)
              (duplicateLoop (workers d) WorkerID
                 (duplicateFinding "worker" "WorkerID" "WorkerID" EWorker)
                 (duplicateLoop (clients d) ClientID
                    (duplicateFinding "client" "ClientID" "ClientID" EClient) [])))
    as [seen3 Hloop3].
  exists [Run.IndexMap seen1; Run.IndexMap seen2; Run.IndexMap seen3].
  unfold Run.validateDuplicateIDs, validateDuplicateIDs. cbv zeta.
  run (apply alloc_local). run_data. run (exact Hloop1).
  run_data. run (exact Hloop2).
  run_data. run (exact Hloop3).
  reflexivity.
Qed.

Lemma run_validatePhaseSlotSaturation :
  Run.returnsArray Run.validatePhaseSlotSaturation validatePhaseSlotSaturation.
Proof.
  apply returnsArray_intro. intros old env data d Hdata.
  exists [Run.PhaseMap (phaseDemandOf d); Run.SlotMap (phaseSupplyOf d)].
  unfold Run.validatePhaseSlotSaturation.
  run (apply alloc_local). run (apply alloc_local). run_data.
  run (apply (forEach_last_sim old env [Run.FindingArray []] Run.PhaseMap);
       intros task index demand;
       apply (forEach_last_sim old env [Run.FindingArray []] Run.PhaseMap);
       intros phase i demand';
       run (apply (phaseGet_last old env [Run.FindingArray []]));
       apply phaseSet_last).
  run (apply alloc_local). run_data.
  run (apply (forEach_last_sim old env
                [Run.FindingArray []; Run.PhaseMap _] Run.SlotMap);
       intros worker index supply;
       apply (forEach_last_sim old env
                [Run.FindingArray []; Run.PhaseMap _] Run.SlotMap);
       intros phase i supply';
       run (apply (slotGet_last old env
                     [Run.FindingArray []; Run.PhaseMap _]));
       apply slotSet_last).
  run (apply phaseEntries_second).
  run (apply forEach_array_sim; intros entry index errs;
       run (apply (slotGet_last old env
                     [Run.FindingArray errs; Run.PhaseMap _]));
       apply when_push_first).
  unfold validatePhaseSlotSaturation, JSMap.forEach. cbv zeta.
  rewrite <- (forEach_from_fold (fun acc kv =>
    if numGt kv.2 (numOr (JSMap.get (phaseSupplyOf d) (Int kv.1)) (Int 0))
    then push acc (saturationFinding kv.1 kv.2
                     (numOr (JSMap.get (phaseSupplyOf d) (Int kv.1)) (Int 0)))
    else acc) _ 0).
  reflexivity.
Qed.

(** [errors.push(...rule(data))]: the findings of the rule are appended to
    [errors]; the array the rule returned stays behind, with whatever else
    the rule allocated. *)
Lemma arrayRead_middle (env : Run.Environment)
    (before after : list Run.Object) (items : list Finding) :
  Run.arrayRead (length before)
    (Run.mkWorld (before ++ Run.FindingArray items :: after) env)
  = (items, Run.mkWorld (before ++ Run.FindingArray items :: after) env).
Proof.
  unfold Run.arrayRead.
  erewrite run_bind; [|unfold Run.lookupObject; simpl; by rewrite list_lookup_middle].
  done.
Qed.

Lemma run_pushAll (rule : Run.Ref → Run.M Run.Ref)
    (found : DataSet → list Finding) (old : list Run.Object)
    (env : Run.Environment) (data : Run.Ref) (d : DataSet)
    (acc : list Finding) (left : list Run.Object) :
  Run.returnsArray rule found →
  Run.holdsDataSet old data d →
  ∃ left',
    Run.pushAll (length old + 0) (rule data)
      (Run.withLocals old env (Run.FindingArray acc :: left))
    = (tt, Run.withLocals old env
             (Run.FindingArray (acc ++ found d) :: left')).
Proof.
  intros Hrule Hdata.
  destruct (Hrule (old ++ Run.FindingArray acc :: left) env data d
              (holdsDataSet_app _ _ _ _ Hdata)) as [rest Hrun].
  exists (left ++ Run.FindingArray (found d) :: rest).
  unfold Run.pushAll. run (exact Hrun). run (apply arrayRead_middle).
  rewrite <- app_assoc, <- app_comm_cons. apply arrayPush_first.
Qed.

(** The step [errors.push(...rule(data))] that follows the store of [Hrun]. *)
Ltac next_rule Hrun Hrule Hdata :=
  lazymatch type of Hrun with
  | _ = (tt, Run.withLocals ?old ?env (Run.FindingArray ?acc :: ?left)) =>
      let left' := fresh "left" in
      let Hrun' := fresh "Hrun" in
      destruct (run_pushAll _ _ old env _ _ acc left Hrule Hdata) as [left' Hrun']
  end.

(** A call of [validateDataSet] in a store returns the report that
    [validateDataSet] gives for the dataset of the store, and leaves a
    store that differs from the one it began with by the objects it has
    allocated, which come after those that were there. *)
Lemma run_validateDataSet (old : list Run.Object) (env : Run.Environment)
    (data : Run.Ref) (d : DataSet) :
  Run.holdsDataSet old data d →
  ∃ rest,
    Run.validateDataSet data (Run.mkWorld old env)
    = (validateDataSet d, Run.mkWorld (old ++ rest) env).
Proof.
  intros Hdata.
  destruct (run_pushAll _ _ old env data d [] []
              run_validateMissingRequiredColumns Hdata) as [left1 Hrun1].
  next_rule Hrun1 run_validateDuplicateIDs Hdata.
  next_rule Hrun run_validateMalformedLists Hdata.
  next_rule Hrun0 run_validateOutOfRangeValues Hdata.
  next_rule Hrun2 run_validateBrokenJSON Hdata.
  next_rule Hrun3 run_validateUnknownReferences Hdata.
  next_rule Hrun4 run_validateOverloadedWorkers Hdata.
  next_rule Hrun5 run_validatePhaseSlotSaturation Hdata.
  next_rule Hrun6 run_validateSkillCoverageMatrix Hdata.
  next_rule Hrun7 run_validateMaxConcurrencyFeasibility Hdata.
  eexists.
  replace (Run.mkWorld old env) with (Run.withLocals old env [])
    by (unfold Run.withLocals; by rewrite app_nil_r).
  unfold Run.validateDataSet.
  run (apply alloc_local).
  run (exact Hrun1). run (exact Hrun). run (exact Hrun0). run (exact Hrun2).
  run (exact Hrun3). run (exact Hrun4). run (exact Hrun5). run (exact Hrun6).
  run (exact Hrun7). run (exact Hrun8).
  run (apply arrayRead_first).
  unfold validateDataSet. rewrite callValidateDataSet_eq. cbn [fst].
  unfold allFindings. rewrite app_nil_l, <- !app_assoc. reflexivity.
Qed.

(** Claim C9.  A call of [validateDataSet] leaves the caller's dataset as
    it was: after the call the reference leads to the same three
    collections, hence to the same fields of every entity.  Nothing else
    that was in the store changes either: the objects that existed are
    still there, those that the call allocated come after them, and the
    random number generator is where it was. *)
Theorem validateDataSet_leaves_dataset (w : Run.World) (data : Run.Ref)
    (d : DataSet) :
  Run.holdsDataSet (Run.objects w) data d →
  let after := snd (Run.validateDataSet data w) in
  Run.holdsDataSet (Run.objects after) data d
  ∧ fst (Run.dataClients data after) = clients d
  ∧ fst (Run.dataWorkers data after) = workers d
  ∧ fst (Run.dataTasks data after) = tasks d
  ∧ Run.objects w `prefix_of` Run.objects after
  ∧ Run.environment after = Run.environment w.
Proof.
  destruct w as [old env]. cbn [Run.objects Run.environment]. intros Hdata.
  destruct (run_validateDataSet old env data d Hdata) as [rest Hrun].
  cbv zeta. rewrite Hrun. cbn [snd Run.objects Run.environment].
  fold (Run.withLocals old env rest).
  rewrite (dataClients_local old env data d rest Hdata),
    (dataWorkers_local old env data d rest Hdata),
    (dataTasks_local old env data d rest Hdata).
  repeat split; [by apply holdsDataSet_app|by exists rest].
Qed.

(** In the sample store the dataset [zeroValuesInput] is at address 3, and
    it is still there after the call. *)
Lemma validateDataSet_leaves_dataset_witness :
  Run.holdsDataSet (Run.objects (sampleWorld zeroValuesInput 0)) 3 zeroValuesInput
  ∧ Run.holdsDataSet
      (Run.objects (snd (Run.validateDataSet 3 (sampleWorld zeroValuesInput 0))))
      3 zeroValuesInput.
Proof.
  assert (Run.holdsDataSet (Run.objects (sampleWorld zeroValuesInput 0)) 3
            zeroValuesInput) as Hdata
    by (exists 0, 1, 2; repeat split; reflexivity).
  split; [exact Hdata|].
  exact (proj1 (validateDataSet_leaves_dataset _ 3 zeroValuesInput Hdata)).
Defined.

(** Claim C3.  A second call, made in the store that the first call
    leaves behind, returns the same report: same verdict, same findings in
    the same order, hence same count, messages and identifiers.  More
    generally the report depends on the dataset alone: two calls on
    references that lead to the same dataset return the same report,
    whatever else the two stores hold and wherever their random number
    generators are. *)
Theorem validateDataSet_deterministic :
  (∀ (w : Run.World) (data : Run.Ref) (d : DataSet),
     Run.holdsDataSet (Run.objects w) data d →
     let first := Run.validateDataSet data w in
     let second := Run.validateDataSet data (snd first) in
     fst second = fst first
     ∧ isValid (fst second) = isValid (fst first)
     ∧ errors (fst second) = errors (fst first)
     ∧ warnings (fst second) = warnings (fst first)
     ∧ length (findings (fst second)) = length (findings (fst first))
     ∧ map ValidationError.message (findings (fst second))
       = map ValidationError.message (findings (fst first))
     ∧ map ValidationError.id (findings (fst second))
       = map ValidationError.id (findings (fst first)))
  ∧ (∀ (w w' : Run.World) (data data' : Run.Ref) (d : DataSet),
       Run.holdsDataSet (Run.objects w) data d →
       Run.holdsDataSet (Run.objects w') data' d →
       fst (Run.validateDataSet data w) = fst (Run.validateDataSet data' w')).
Proof.
  split.
  - intros [old env] data d Hdata. cbn [Run.objects] in Hdata. cbv zeta.
    destruct (run_validateDataSet old env data d Hdata) as [rest Hfirst].
    rewrite Hfirst. cbn [fst snd].
    destruct (run_validateDataSet (old ++ rest) env data d
                (holdsDataSet_app _ _ _ _ Hdata)) as [rest' Hsecond].
    by rewrite Hsecond.
  - intros [old env] [old' env'] data data' d Hdata Hdata'.
    cbn [Run.objects] in Hdata, Hdata'.
    destruct (run_validateDataSet old env data d Hdata) as [rest Hrun].
    destruct (run_validateDataSet old' env' data' d Hdata') as [rest' Hrun'].
    by rewrite Hrun, Hrun'.
Qed.

(** Two calls on [zeroValuesInput], the second in the store the first
    leaves behind, and a call in a store whose random number generator is
    elsewhere, give the same report. *)
Lemma validateDataSet_deterministic_witness :
  let first := Run.validateDataSet 3 (sampleWorld zeroValuesInput 0) in
  fst (Run.validateDataSet 3 (snd first)) = fst first
  ∧ fst first = fst (Run.validateDataSet 3 (sampleWorld zeroValuesInput 7)).
Proof.
  assert (∀ calls,
    Run.holdsDataSet (Run.objects (sampleWorld zeroValuesInput calls)) 3
      zeroValuesInput) as Hdata
    by (intros calls; exists 0, 1, 2; repeat split; reflexivity).
  split.
  - exact (proj1 (proj1 validateDataSet_deterministic _ 3 zeroValuesInput
                    (Hdata 0))).
  - exact (proj2 validateDataSet_deterministic _ _ 3 3 zeroValuesInput
             (Hdata 0) (Hdata 7)).
Defined.

(** The page's validation in a store gives the report of
    [pageValidateDataSet], with the random numbers counted from where the
    generator is. *)
Lemma mathRandom_local (old : list Run.Object) (numbers : nat → string)
    (calls : nat) (locals : list Run.Object) :
  Run.mathRandom (Run.withLocals old (Run.mkEnvironment numbers calls) locals)
  = (numbers calls,
     Run.withLocals old (Run.mkEnvironment numbers (S calls)) locals).
Proof. done. Qed.

Lemma stringSetHas_local (old : list Run.Object) (env : Run.Environment)
    (i : nat) (locals : list Run.Object) (items : gset string) (x : string) :
  locals !! i = Some (Run.StringSet items) →
  Run.stringSetHas (length old + i) x (Run.withLocals old env locals)
  = (setHas items x, Run.withLocals old env locals).
Proof.
  intros Hi. unfold Run.stringSetHas. run (apply lookup_local). by rewrite Hi.
Qed.

Section PageRun.
Variables (old : list Run.Object) (numbers : nat → string) (calls : nat).
Variables (data : Run.Ref) (d : DataSet).
Hypothesis Hdata : Run.holdsDataSet old data d.

(** A random number is drawn only when the finding is pushed. *)
Lemma pushIfRandom_run (c : bool) (e : string → Finding) (n : nat)
    (errs : list Finding) :
  Run.when c (random ← Run.mathRandom ; Run.arrayPush (length old + 0) [e random])
    (Run.withLocals old (Run.mkEnvironment numbers (n + calls))
       [Run.FindingArray errs])
  = (tt,
     let state := pushIfRandom c (n, errs) e (fun k => numbers (k + calls)) in
     Run.withLocals old (Run.mkEnvironment numbers (fst state + calls))
       [Run.FindingArray (snd state)]).
Proof.
  destruct c; [|done]. unfold Run.when, pushIfRandom. cbn [fst snd].
  run (apply mathRandom_local). apply arrayPush_first.
Qed.

Lemma pushIf_run (env : Run.Environment) (c : bool) (e : Finding)
    (errs : list Finding) (rest : list Run.Object) :
  Run.when c (Run.arrayPush (length old + 0) [e])
    (Run.withLocals old env (Run.FindingArray errs :: rest))
  = (tt, Run.withLocals old env (Run.FindingArray (pushIf c errs e) :: rest)).
Proof. apply when_push_first. Qed.

Lemma run_pageValidateDataSet :
  ∃ rest calls',
    Run.pageValidateDataSet data
      (Run.mkWorld old (Run.mkEnvironment numbers calls))
    = (pageValidateDataSet (fun k => numbers (k + calls)) d,
       Run.mkWorld (old ++ rest) (Run.mkEnvironment numbers calls')).
Proof.
  do 2 eexists.
  replace (Run.mkWorld old (Run.mkEnvironment numbers calls))
    with (Run.withLocals old (Run.mkEnvironment numbers (0 + calls)) [])
    by (unfold Run.withLocals; by rewrite app_nil_r).
  unfold Run.pageValidateDataSet.
  run (apply alloc_local). run_data.
  run (apply (forEach_sim
         (fun state : nat * list Finding =>
            Run.withLocals old
              (Run.mkEnvironment numbers (fst state + calls))
              [Run.FindingArray (snd state)])
         (fun client _ state =>
            pageValidateClient (fun k => numbers (k + calls)) client state)
         _ _ (0, []));
       intros client index [n errs]; cbn [fst snd];
       run (apply pushIfRandom_run); cbv zeta;
       run (apply pushIf_run); apply pushIf_run).
  run_data.
  run (apply (forEach_sim
         (fun state : nat * list Finding =>
            Run.withLocals old
              (Run.mkEnvironment numbers (fst state + calls))
              [Run.FindingArray (snd state)])
         (fun worker _ state =>
            pageValidateWorker (fun k => numbers (k + calls)) worker state));
       intros worker index [n errs]; cbn [fst snd];
       run (apply pushIfRandom_run); cbv zeta;
       run (apply pushIf_run); run (apply pushIf_run); apply pushIf_run).
  run_data.
  run (apply (forEach_sim
         (fun state : nat * list Finding =>
            Run.withLocals old
              (Run.mkEnvironment numbers (fst state + calls))
              [Run.FindingArray (snd state)])
         (fun task _ state =>
            pageValidateTask (fun k => numbers (k + calls)) task state));
       intros task index [n errs]; cbn [fst snd];
       run (apply pushIfRandom_run); cbv zeta;
       run (apply pushIf_run); run (apply pushIf_run); apply pushIf_run).
  run_data. run (apply alloc_local). run_data. run (apply alloc_local). run_data.
  run (apply forEach_array_sim; intros client index errs;
       apply forEach_array_sim; intros taskID i errs';
       run (apply (stringSetHas_local _ _ 1); reflexivity);
       apply pushIf_run).
  run_data.
  run (apply forEach_array_sim; intros task index errs;
       apply forEach_array_sim; intros skill i errs';
       run (apply (stringSetHas_local _ _ 2); reflexivity);
       apply pushIf_run).
  run (apply arrayRead_first).
  unfold Run.withLocals. reflexivity.
Qed.
End PageRun.

(** Neither statement of the two claims holds of every program of the
    store.  The page's own validation draws a random number for the
    identifier of a missing ID: for a client without an ID, a second call
    returns another report than the first, and the random number generator
    has moved on. *)
Lemma pageValidateDataSet_draws_random :
  let first := Run.pageValidateDataSet 3 (sampleWorld clientWithoutID 0) in
  let second := Run.pageValidateDataSet 3 (snd first) in
  Run.holdsDataSet (Run.objects (sampleWorld clientWithoutID 0)) 3 clientWithoutID
  ∧ fst second ≠ fst first
  ∧ Run.environment (snd first) ≠ Run.environment (sampleWorld clientWithoutID 0).
Proof.
  cbv zeta. split; [|split].
  - exists 0, 1, 2. repeat split; reflexivity.
  - intros Heq.
    apply (f_equal (fun report => map ValidationError.id (errors report))) in Heq.
    vm_compute in Heq. discriminate.
  - intros Heq. apply (f_equal Run.randomCalls) in Heq.
    vm_compute in Heq. discriminate.
Qed.


(** ** Rule 5: broken JSON *)

Lemma brokenJSONTry_normal (client : Client) : brokenJSONTry client = Normal.
Proof. unfold brokenJSONTry. by destruct (_ && _). Qed.

Lemma validateBrokenJSON_nil (data : DataSet) : validateBrokenJSON data = [].
Proof.
  unfold validateBrokenJSON.
  rewrite (forEach_pushes_flat (fun _ => [])).
  - simpl. by induction (clients data).
  - intros client _ acc. by rewrite brokenJSONTry_normal, app_nil_r.
Qed.

(** ** Rule 6: unknown references *)

Lemma setHas_list_to_set (l : list string) (x : string) :
  setHas (list_to_set l) x = bool_decide (x ∈ l).
Proof. unfold setHas. apply bool_decide_ext. by rewrite elem_of_list_to_set. Qed.

Lemma taskExists_iff (data : DataSet) (taskID : string) :
  taskExists data taskID ↔ taskID ∈ map TaskID (tasks data).
Proof.
  unfold taskExists. rewrite Exists_exists, list_elem_of_In, in_map_iff.
  split; intros (task & H1 & H2); exists task.
  - by rewrite <- list_elem_of_In.
  - by rewrite list_elem_of_In.
Qed.

(** Claim C7.  The rule goes through the clients in order and, for each,
    through the entries of [RequestedTaskIDs] in order; an entry adds
    exactly one finding when no task has that [TaskID] and none when some
    task has it.  The finding is an error of high severity naming the
    client and the entry. *)
Theorem validateUnknownReferences_per_entry (data : DataSet) :
  validateUnknownReferences data =
    flat_map (fun client =>
      flat_map (fun taskID =>
        if decide (taskExists data taskID) then []
        else [unknownReferenceFinding client taskID])
      (RequestedTaskIDs client)) (clients data)
  ∧ ∀ client taskID,
      ValidationError.type (unknownReferenceFinding client taskID) = TError
      ∧ ValidationError.severity (unknownReferenceFinding client taskID) = High
      ∧ ValidationError.entityId (unknownReferenceFinding client taskID)
        = ClientID client
      ∧ ValidationError.message (unknownReferenceFinding client taskID)
        = "Client references unknown TaskID: " +:+ taskID.
Proof.
  split; [|done].
  unfold validateUnknownReferences.
  rewrite (forEach_pushes_flat (fun client =>
    flat_map (fun taskID =>
      if decide (taskExists data taskID) then []
      else [unknownReferenceFinding client taskID]) (RequestedTaskIDs client))).
  { done. }
  intros client _ acc.
  apply forEach_pushes_flat. intros taskID _ acc'.
  rewrite push_if. f_equal.
  rewrite setHas_list_to_set.
  destruct (decide (taskExists data taskID)) as [H|H];
    rewrite taskExists_iff in H.
  - by rewrite bool_decide_eq_true_2.
  - by rewrite bool_decide_eq_false_2.
Qed.

(** ** Rule 12: max-concurrency feasibility *)

Lemma includes_elem_of (xs : list string) (x : string) :
  includes xs x = bool_decide (x ∈ xs).
Proof.
  unfold includes. apply eq_true_iff_eq.
  rewrite existsb_exists, bool_decide_eq_true, list_elem_of_In.
  split.
  - intros (y & Hy & Heq). apply String.eqb_eq in Heq. by subst.
  - intros Hx. exists x. by rewrite String.eqb_refl.
Qed.

Lemma every_skill_included (task : Task) (worker : Worker) :
  forallb (fun skill => includes (Skills worker) skill) (RequiredSkills task)
  = bool_decide (qualifiedFor task worker).
Proof.
  apply eq_true_iff_eq.
  rewrite forallb_forall, bool_decide_eq_true. unfold qualifiedFor.
  split; intros H skill Hs.
  - apply list_elem_of_In, H in Hs.
    by rewrite includes_elem_of, bool_decide_eq_true in Hs.
  - rewrite includes_elem_of, bool_decide_eq_true. by apply H, list_elem_of_In.
Qed.

Lemma qualifiedWorkers_length (data : DataSet) (task : Task) :
  lengthOf (qualifiedWorkers data task) = qualifiedCount data task.
Proof.
  unfold qualifiedWorkers, qualifiedCount. f_equal.
  apply List.filter_ext. intros worker. apply every_skill_included.
Qed.

(** Claim C6.  The rule goes through the tasks in order; a task adds
    exactly one finding when its [MaxConcurrent] exceeds the number of
    workers holding all its required skills, and none otherwise.  The
    finding is a warning whose message cites [MaxConcurrent] and that
    number; with [MaxConcurrent = 3] and two qualified workers the single
    warning cites 3 and 2. *)
Theorem validateMaxConcurrencyFeasibility_per_task (data : DataSet) :
  validateMaxConcurrencyFeasibility data =
    flat_map (fun task =>
      if decide (MaxConcurrent task > qualifiedCount data task)%Z
      then [concurrencyFinding task (qualifiedCount data task)]
      else []) (tasks data)
  ∧ (∀ task,
      ValidationError.type (concurrencyFinding task (qualifiedCount data task))
        = TWarning
      ∧ ValidationError.entityId (concurrencyFinding task (qualifiedCount data task))
        = TaskID task
      ∧ ValidationError.message (concurrencyFinding task (qualifiedCount data task))
        = "MaxConcurrent (" +:+ pretty (MaxConcurrent task)
            +:+ ") exceeds qualified workers ("
            +:+ pretty (qualifiedCount data task) +:+ ")")
  ∧ map ValidationError.message (validateMaxConcurrencyFeasibility concurrencyInput)
    = ["MaxConcurrent (3) exceeds qualified workers (2)"].
Proof.
  split; [|split; [done|by vm_compute]].
  unfold validateMaxConcurrencyFeasibility.
  rewrite (forEach_pushes_flat (fun task =>
    if decide (MaxConcurrent task > qualifiedCount data task)%Z
    then [concurrencyFinding task (qualifiedCount data task)]
    else [])).
  { done. }
  intros task _ acc. rewrite push_if, qualifiedWorkers_length. f_equal.
  destruct (Z.gtb_spec (MaxConcurrent task) (qualifiedCount data task));
    case_decide; (done || lia).
Qed.

(** ** Rules 1 and 4: missing fields and ranges *)

Lemma missingLoop_eq {A : Type} (kind : string) (entity : EntityType)
    (fields : list string) (getField : A → string → JSValue)
    (getID : A → string) (entities : list A) (acc : list Finding) :
  forEach entities (fun e index errors =>
    forEach fields (fun field _ errors =>
      if isMissing (getField e field) then
        push errors (missingFinding kind entity field index (getID e))
      else errors) errors) acc
  = acc ++ missingReports kind entity fields getField getID entities.
Proof.
  unfold missingReports.
  apply (forEach_pushes (fun e index =>
    flat_map (fun field =>
      if isMissing (getField e field)
      then [missingFinding kind entity field index (getID e)]
      else []) fields)).
  intros e index acc'. apply forEach_pushes_flat.
  intros field _ acc''. apply push_if.
Qed.

Lemma validateMissingRequiredColumns_eq (data : DataSet) :
  validateMissingRequiredColumns data =
    missingReports "client" EClient requiredClientFields clientField ClientID
      (clients data)
    ++ missingReports "worker" EWorker requiredWorkerFields workerField WorkerID
      (workers data)
    ++ missingReports "task" ETask requiredTaskFields taskField TaskID
      (tasks data).
Proof.
  unfold validateMissingRequiredColumns.
  rewrite !missingLoop_eq. simpl. by rewrite app_assoc.
Qed.

Lemma elem_of_missingReports {A : Type} (kind : string) (entity : EntityType)
    (fields : list string) (getField : A → string → JSValue)
    (getID : A → string) (entities : list A) (i : nat) (e : A) (field : string) :
  entities !! i = Some e → field ∈ fields → isMissing (getField e field) = true →
  missingFinding kind entity field i (getID e)
    ∈ missingReports kind entity fields getField getID entities.
Proof.
  intros Hi Hfield Hmiss. unfold missingReports.
  rewrite list_elem_of_In, in_concat.
  eexists. split.
  - rewrite <- list_elem_of_In. apply elem_of_lookup_imap.
    exists i, e. split; [reflexivity|done].
  - rewrite in_flat_map. exists field. split; [by rewrite <- list_elem_of_In|].
    rewrite Hmiss. by left.
Qed.

Lemma validateOutOfRangeValues_eq (data : DataSet) :
  validateOutOfRangeValues data =
    flat_map (fun client =>
      if (PriorityLevel client <? 1)%Z || (PriorityLevel client >? 5)%Z
      then [priorityRangeFinding client] else []) (clients data)
    ++ flat_map (fun task =>
      if (Duration task <? 1)%Z then [durationRangeFinding task] else [])
      (tasks data).
Proof.
  unfold validateOutOfRangeValues.
  rewrite (forEach_pushes_flat (fun task =>
    if (Duration task <? 1)%Z then [durationRangeFinding task] else []));
    [|intros; apply push_if].
  rewrite (forEach_pushes_flat (fun client =>
    if (PriorityLevel client <? 1)%Z || (PriorityLevel client >? 5)%Z
    then [priorityRangeFinding client] else []));
    [|intros; apply push_if].
  done.
Qed.

(** Claim C10.  A client whose [PriorityLevel] is 0 gets two different
    errors: the missing-field error of rule 1, because 0 is falsy, and the
    range error of rule 4.  A task whose [Duration] is 0 gets the two
    errors likewise. *)
Theorem zero_value_reported_twice (data : DataSet)
    (i : nat) (client : Client) (j : nat) (task : Task) :
  (clients data !! i = Some client → PriorityLevel client = 0%Z →
     let missing :=
       missingFinding "client" EClient "PriorityLevel" i (ClientID client) in
     let range := priorityRangeFinding client in
     missing ∈ errors (validateDataSet data)
     ∧ range ∈ errors (validateDataSet data)
     ∧ missing ≠ range
     ∧ ValidationError.message missing = "Missing required field: PriorityLevel"
     ∧ ValidationError.message range = "PriorityLevel must be between 1-5, got: 0")
  ∧ (tasks data !! j = Some task → Duration task = 0%Z →
     let missing := missingFinding "task" ETask "Duration" j (TaskID task) in
     let range := durationRangeFinding task in
     missing ∈ errors (validateDataSet data)
     ∧ range ∈ errors (validateDataSet data)
     ∧ missing ≠ range
     ∧ ValidationError.message missing = "Missing required field: Duration"
     ∧ ValidationError.message range = "Duration must be at least 1, got: 0").
Proof.
  split; intros Hlookup Hzero missing range.
  - repeat split.
    + apply elem_of_errors. split; [|done].
      unfold allFindings. rewrite validateMissingRequiredColumns_eq.
      do 2 (apply elem_of_app; left).
      apply elem_of_missingReports; [done| |].
      * unfold requiredClientFields. set_solver.
      * unfold clientField, isMissing. simpl. by rewrite Hzero.
    + apply elem_of_errors. split; [|done].
      unfold allFindings. rewrite validateOutOfRangeValues_eq.
      do 3 (apply elem_of_app; right). do 2 (apply elem_of_app; left).
      rewrite list_elem_of_In, in_flat_map. exists client.
      split; [by eapply list_elem_of_In, list_elem_of_lookup_2|].
      rewrite Hzero. by left.
    + intros Heq. by apply (f_equal ValidationError.severity) in Heq.
    + unfold range, priorityRangeFinding. simpl. by rewrite Hzero.
  - repeat split.
    + apply elem_of_errors. split; [|done].
      unfold allFindings. rewrite validateMissingRequiredColumns_eq.
      apply elem_of_app; left. do 2 (apply elem_of_app; right).
      apply elem_of_missingReports; [done| |].
      * unfold requiredTaskFields. set_solver.
      * unfold taskField, isMissing. simpl. by rewrite Hzero.
    + apply elem_of_errors. split; [|done].
      unfold allFindings. rewrite validateOutOfRangeValues_eq.
      do 3 (apply elem_of_app; right). apply elem_of_app; left.
      apply elem_of_app; right.
      rewrite list_elem_of_In, in_flat_map. exists task.
      split; [by eapply list_elem_of_In, list_elem_of_lookup_2|].
      rewrite Hzero. by left.
    + intros Heq. by apply (f_equal ValidationError.severity) in Heq.
    + unfold range, durationRangeFinding. simpl. by rewrite Hzero.
Qed.

(** The dataset [zeroValuesInput] has such a client and such a task, both
    at row 0. *)
Lemma zero_value_reported_twice_witness :
  (missingFinding "client" EClient "PriorityLevel" 0 "C1"
     ∈ errors (validateDataSet zeroValuesInput)
   ∧ priorityRangeFinding (sampleClient "C1" 0 [] (JSObject []))
     ∈ errors (validateDataSet zeroValuesInput))
  ∧ (missingFinding "task" ETask "Duration" 0 "T1"
     ∈ errors (validateDataSet zeroValuesInput)
   ∧ durationRangeFinding (sampleTask "T1" 0 ["etl"] [1]%Z 1)
     ∈ errors (validateDataSet zeroValuesInput)).
Proof.
  destruct (zero_value_reported_twice zeroValuesInput
              0 (sampleClient "C1" 0 [] (JSObject []))
              0 (sampleTask "T1" 0 ["etl"] [1]%Z 1)) as [Hclient Htask].
  split.
  - destruct (Hclient eq_refl eq_refl) as (H1 & H2 & _). by split.
  - destruct (Htask eq_refl eq_refl) as (H1 & H2 & _). by split.
Defined.

(** ** Identifiers within one report *)

(** Claim C8 (fails on the code).  A worker with two entries of
    [AvailableSlots] below 1 gets two errors from rule 3 that differ in
    their message and carry the same identifier, so the identifiers of the
    report repeat. *)
Theorem malformed_slot_identifiers_repeat :
  let worker := sampleWorker "W1" ["etl"] [0; -1]%Z 1 in
  let report := validateDataSet twoBadSlotsInput in
  errors report = [malformedSlotFinding worker (Int 0);
                   malformedSlotFinding worker (Int (-1))]
  ∧ malformedSlotFinding worker (Int 0) ≠ malformedSlotFinding worker (Int (-1))
  ∧ ValidationError.id (malformedSlotFinding worker (Int 0))
    = ValidationError.id (malformedSlotFinding worker (Int (-1)))
  ∧ ¬ NoDup (map ValidationError.id (findings report)).
Proof.
  intros worker report. split; [by vm_compute|].
  split.
  { intros Heq. apply (f_equal ValidationError.message) in Heq.
    vm_compute in Heq. discriminate. }
  split; [done|].
  intros Hnodup. vm_compute in Hnodup.
  apply NoDup_cons in Hnodup as [Hnotin _]. apply Hnotin. left.
Qed.

(** ** Rule 2: duplicate IDs *)

Section DuplicateLoop.
Context {A : Type} (getID : A → string) (mkFinding : string → Finding).

Local Abbreviation body := (duplicateStep getID mkFinding).
Local Abbreviation seenMatches := (seenMatches getID).

Lemma nonEmptyID_true (x : string) : nonEmptyID x = true ↔ x ≠ "".
Proof.
  unfold nonEmptyID. rewrite negb_true_iff.
  destruct (String.eqb_spec x ""); split; (done || congruence).
Qed.

Lemma seenMatches_step (seen : gmap string nat) (pre : list A) (x : A) (index : nat) :
  seenMatches seen pre →
  seenMatches (fst (body x index (seen, []))) (pre ++ [x]).
Proof.
  intros Hseen y. unfold duplicateStep. simpl.
  rewrite map_app, elem_of_app. simpl. rewrite list_elem_of_singleton.
  fold (nonEmptyID (getID x)).
  destruct (nonEmptyID (getID x)) eqn:Hne.
  - apply nonEmptyID_true in Hne. unfold mapHas. case_bool_decide as Hhas; simpl.
    + rewrite (Hseen y). apply Hseen in Hhas. intuition congruence.
    + rewrite lookup_insert_is_Some, (Hseen y).
      destruct (decide (getID x = y)); intuition congruence.
  - apply not_true_iff_false in Hne. rewrite nonEmptyID_true in Hne.
    simpl. rewrite (Hseen y). intuition congruence.
Qed.

Lemma body_errors (seen : gmap string nat) (pre : list A) (x : A) (index : nat)
    (errs : list Finding) :
  seenMatches seen pre →
  body x index (seen, errs) =
    (fst (body x index (seen, [])),
     errs ++ (if nonEmptyID (getID x) && bool_decide (getID x ∈ map getID pre)
              then [mkFinding (getID x)] else [])).
Proof.
  intros Hseen. unfold duplicateStep. simpl. fold (nonEmptyID (getID x)).
  destruct (nonEmptyID (getID x)) eqn:Hne; simpl; [|by rewrite app_nil_r].
  apply nonEmptyID_true in Hne. unfold mapHas.
  case_bool_decide as Hhas; simpl.
  - apply Hseen in Hhas as [_ Hin]. by rewrite bool_decide_eq_true_2.
  - rewrite bool_decide_eq_false_2, app_nil_r; [done|].
    intros Hin. apply Hhas, Hseen. by split.
Qed.

Lemma duplicateLoop_from (xs pre : list A) (seen : gmap string nat)
    (errs : list Finding) :
  seenMatches seen pre →
  snd (forEach_from xs (length pre) body (seen, errs)) =
    errs ++ concat (imap (fun j e =>
      if nonEmptyID (getID e)
         && bool_decide (getID e ∈ take (length pre + j) (map getID (pre ++ xs)))
      then [mkFinding (getID e)] else []) xs).
Proof.
  revert pre seen errs.
  induction xs as [|x xs IH]; intros pre seen errs Hseen;
    cbn [forEach_from imap concat].
  - by rewrite app_nil_r.
  - rewrite (body_errors seen pre x _ errs Hseen).
    pose proof (seenMatches_step seen pre x (length pre) Hseen) as Hstep.
    replace (S (length pre)) with (length (pre ++ [x]))
      by (rewrite length_app; simpl; lia).
    rewrite (IH _ _ _ Hstep), <- app_assoc. f_equal.
    rewrite Nat.add_0_r, (List.map_app getID pre (x :: xs)), take_app_length'
      by (by rewrite length_map).
    f_equal. f_equal. apply imap_ext. intros j e _. simpl.
    rewrite <- app_assoc. simpl.
    replace (length (pre ++ [x]) + j) with (length pre + S j)
      by (rewrite length_app; simpl; lia).
    by rewrite List.map_app.
Qed.

Lemma duplicateLoop_eq (entities : list A) (errs : list Finding) :
  duplicateLoop entities getID mkFinding errs =
    errs ++ laterOccurrenceReports nonEmptyID getID mkFinding entities.
Proof.
  unfold duplicateLoop, forEach, laterOccurrenceReports.
  change 0 with (length (@nil A)).
  apply (duplicateLoop_from entities [] ∅ errs).
  intros x. simpl. rewrite lookup_empty, elem_of_nil.
  split; [by intros [? ?]|by intros [_ ?]].
Qed.
End DuplicateLoop.

(** Claim C4 (as amended).  In each of the three collections the rule
    reports, in order, one finding for every entity whose ID is not empty
    and already occurs at an earlier position: once for each second and
    later occurrence, never for the first.  Entities whose ID is empty are
    passed over.  Every such finding is an error of high severity named
    after the ID, and two clients sharing ["C1"] give exactly one finding. *)
Theorem validateDuplicateIDs_later_occurrences :
  (∀ data : DataSet,
     validateDuplicateIDs data = duplicateReports nonEmptyID data)
  ∧ (∀ kind label fieldName entity theID,
       let f := duplicateFinding kind label fieldName entity theID in
       ValidationError.type f = TError
       ∧ ValidationError.severity f = High
       ∧ ValidationError.entityId f = theID)
  ∧ validateDuplicateIDs twoClientsC1
    = [duplicateFinding "client" "ClientID" "ClientID" EClient "C1"].
Proof.
  split; [|split; [done|by vm_compute]].
  intros data. unfold validateDuplicateIDs, duplicateReports.
  rewrite !duplicateLoop_eq. simpl. by rewrite app_assoc.
Qed.

(** Claim C4 as stated fails: two clients share the empty ID, the second
    is a later occurrence of that value, and the rule reports nothing. *)
Lemma validateDuplicateIDs_skips_empty_ids :
  validateDuplicateIDs twoClientsNoID = []
  ∧ duplicateReports anyID twoClientsNoID
    = [duplicateFinding "client" "ClientID" "ClientID" EClient ""]
  ∧ validateDuplicateIDs twoClientsNoID ≠ duplicateReports anyID twoClientsNoID.
Proof.
  split; [by vm_compute|]. split; [by vm_compute|].
  vm_compute. discriminate.
Qed.

(** ** Rule 10: phase-slot saturation *)

Module JSMapFacts.
Import JSMap.
Section WithKey.
Context {K : Type} `{EqDecision K}.






End WithKey.
End JSMapFacts.

(** On the samples, [numAdd] gives the sum that the reference
    implementation of binary64 gives. *)
Lemma numAdd_as_binary64 :
  forallb isBinary64 additionSamples = true
  ∧ forallb (fun a => forallb (addsAsBinary64 a) additionSamples) additionSamples
    = true.
Proof. split; by vm_compute. Qed.





Section Accumulate.
Import JSMapFacts.
Context {K : Type} `{EqDecision K}.











Lemma occurrences_cons (p q : K) (l : list K) :
  occurrences p (q :: l)
  = ((if bool_decide (p = q) then 1 else 0) + occurrences p l)%Z.
Proof.
  unfold occurrences, lengthOf. simpl.
  destruct (bool_decide (p = q)); simpl; lia.
Qed.




Lemma occurrences_nonneg (p : K) (l : list K) : (0 ≤ occurrences p l)%Z.
Proof. unfold occurrences, lengthOf. lia. Qed.

End Accumulate.

Lemma fold_left_pushes {A B : Type} (g : A → list B) (f : list B → A → list B) :
  (∀ acc x, f acc x = acc ++ g x) →
  ∀ xs acc, fold_left f xs acc = acc ++ flat_map g xs.
Proof.
  intros Hf xs. induction xs as [|x xs IH]; intros acc; simpl.
  - by rewrite app_nil_r.
  - by rewrite IH, Hf, <- app_assoc.
Qed.







Lemma validatePhaseSlotSaturation_eq (data : DataSet) :
  validatePhaseSlotSaturation data
  = flat_map (saturationEntry (supplyRead data)) (phaseDemandOf data).
Proof.
  unfold validatePhaseSlotSaturation, JSMap.forEach.
  rewrite (fold_left_pushes (saturationEntry (supplyRead data))); [done|].
  intros acc [phase demand]. simpl. apply push_if.
Qed.











(** When no list repeats a phase, the sums of the rule are the sums that
    count each task and each worker once. *)
Lemma occurrences_NoDup {K : Type} `{EqDecision K} (p : K) (l : list K) :
  NoDup l → occurrences p l = if bool_decide (p ∈ l) then 1%Z else 0%Z.
Proof.
  induction l as [|q l IH]; intros Hnd; [done|].
  apply NoDup_cons in Hnd as [Hq Hnd]. specialize (IH Hnd).
  rewrite occurrences_cons, IH.
  destruct (decide (p = q)) as [->|Hne].
  - rewrite (bool_decide_eq_true_2 (q = q)) by done.
    rewrite (bool_decide_eq_true_2 (q ∈ q :: l)) by left.
    by rewrite (bool_decide_eq_false_2 (q ∈ l)) by done.
  - rewrite (bool_decide_eq_false_2 (p = q)) by done.
    rewrite Z.add_0_l. apply (f_equal (fun b : bool => if b then 1%Z else 0%Z)).
    apply bool_decide_ext. rewrite elem_of_cons. intuition congruence.
Qed.

Lemma sumZ_once {A K : Type} `{EqDecision K} (phasesOf : A → list K)
    (weight : A → Z) (xs : list A) (p : K) :
  Forall (fun x => NoDup (phasesOf x)) xs →
  sumZ (map (fun x => (occurrences p (phasesOf x) * weight x)%Z) xs)
  = sumZ (map weight (List.filter (fun x => bool_decide (p ∈ phasesOf x)) xs)).
Proof.
  induction 1 as [|x xs Hx _ IH]; simpl; [done|].
  rewrite IH, (occurrences_NoDup p _ Hx).
  destruct (bool_decide (p ∈ phasesOf x)); simpl; lia.
Qed.

Lemma phaseDemand_without_repeats (data : DataSet) (p : Z) :
  Forall (fun task => NoDup (PreferredPhases task)) (tasks data) →
  phaseDemand data p = statedDemand data p.
Proof. apply sumZ_once. Qed.

Lemma phaseSupply_without_repeats (data : DataSet) (p : Z) :
  Forall (fun worker => NoDup (AvailableSlots worker)) (workers data) →
  phaseSupply data p = statedSupply data p.
Proof. apply sumZ_once. Qed.


(** ** No finding of severity low *)

Lemma forEach_from_invariant {A St : Type} (Inv : St → Prop)
    (body : A → nat → St → St) :
  (∀ x i s, Inv s → Inv (body x i s)) →
  ∀ xs i s, Inv s → Inv (forEach_from xs i body s).
Proof.
  intros Hbody xs. induction xs as [|x xs IH]; intros i s Hs; simpl; [done|].
  by apply IH, Hbody.
Qed.

Lemma forEach_invariant {A St : Type} (Inv : St → Prop)
    (body : A → nat → St → St) (xs : list A) (s : St) :
  (∀ x i s, Inv s → Inv (body x i s)) → Inv s → Inv (forEach xs body s).
Proof. intros Hbody Hs. unfold forEach. by apply forEach_from_invariant. Qed.

Lemma push_notLow (acc : list Finding) (e : Finding) :
  Forall notLow acc → notLow e → Forall notLow (push acc e).
Proof. intros Hacc He. apply Forall_app. split; [done|by apply Forall_singleton]. Qed.

(** Goals [Forall notLow (forEach ...)] for loops that push findings whose
    severity is written out. *)
Ltac notLow_loop :=
  lazymatch goal with
  | |- Forall notLow (forEach _ _ _) =>
      apply (forEach_invariant (Forall notLow));
      [intros ? ? ? ?; notLow_loop | notLow_loop]
  | |- Forall notLow (if ?c then _ else _) => destruct c; notLow_loop
  | |- Forall notLow (push _ _) => apply push_notLow; [notLow_loop | done]
  | |- _ => done
  end.

Lemma missing_notLow (data : DataSet) :
  Forall notLow (validateMissingRequiredColumns data).
Proof.
  rewrite validateMissingRequiredColumns_eq. unfold missingReports.
  rewrite !Forall_app. repeat split.
  all: apply Forall_concat, Forall_forall; intros l Hl.
  all: apply elem_of_lookup_imap in Hl as (i & e & -> & _).
  all: apply Forall_forall; intros f Hf.
  all: apply list_elem_of_In, in_flat_map in Hf as (field & _ & Hf).
  all: destruct (isMissing _); [|done].
  all: destruct Hf as [<-|[]]; done.
Qed.

Lemma duplicateLoop_notLow {A : Type} (entities : list A) (getID : A → string)
    (kind label fieldName : string) (entity : EntityType) (errs : list Finding) :
  Forall notLow errs →
  Forall notLow (duplicateLoop entities getID
                   (duplicateFinding kind label fieldName entity) errs).
Proof.
  intros Herrs. unfold duplicateLoop.
  apply (forEach_invariant (fun state => Forall notLow (snd state))); [|done].
  intros x i [seen acc] Hacc. unfold duplicateStep. simpl in *.
  destruct (negb _); [|done].
  destruct (mapHas _ _); simpl; [|done].
  by apply push_notLow.
Qed.

Lemma duplicate_notLow (data : DataSet) : Forall notLow (validateDuplicateIDs data).
Proof.
  unfold validateDuplicateIDs. do 3 apply duplicateLoop_notLow. done.
Qed.

Lemma malformed_notLow (data : DataSet) : Forall notLow (validateMalformedLists data).
Proof. unfold validateMalformedLists. cbv zeta. notLow_loop. Qed.

Lemma range_notLow (data : DataSet) : Forall notLow (validateOutOfRangeValues data).
Proof. unfold validateOutOfRangeValues. cbv zeta. notLow_loop. Qed.

Lemma unknown_notLow (data : DataSet) : Forall notLow (validateUnknownReferences data).
Proof. unfold validateUnknownReferences. cbv zeta. notLow_loop. Qed.

Lemma overloaded_notLow (data : DataSet) : Forall notLow (validateOverloadedWorkers data).
Proof. unfold validateOverloadedWorkers. cbv zeta. notLow_loop. Qed.

Lemma saturation_notLow (data : DataSet) :
  Forall notLow (validatePhaseSlotSaturation data).
Proof.
  rewrite validatePhaseSlotSaturation_eq.
  apply Forall_forall. intros f Hf.
  apply list_elem_of_In, in_flat_map in Hf as (entry & _ & Hf).
  unfold saturationEntry in Hf. destruct (numGt _ _); [|done].
  destruct Hf as [<-|[]]. done.
Qed.

Lemma coverage_notLow (data : DataSet) :
  Forall notLow (validateSkillCoverageMatrix data).
Proof. unfold validateSkillCoverageMatrix. cbv zeta. notLow_loop. Qed.

Lemma concurrency_notLow (data : DataSet) :
  Forall notLow (validateMaxConcurrencyFeasibility data).
Proof. unfold validateMaxConcurrencyFeasibility. cbv zeta. notLow_loop. Qed.

Lemma allFindings_notLow (data : DataSet) : Forall notLow (allFindings data).
Proof.
  unfold allFindings. rewrite !Forall_app, validateBrokenJSON_nil.
  auto 20 using missing_notLow, duplicate_notLow, malformed_notLow, range_notLow,
    unknown_notLow, overloaded_notLow, saturation_notLow, coverage_notLow,
    concurrency_notLow.
Qed.

(** Claim C1 (fails on the code).  Rule 5 reports nothing, whatever the
    dataset: its [try] block cannot throw, and its finding is only pushed
    by the [catch] block.  No other rule gives a finding of severity low,
    so no report holds one.  For the client of [brokenJSONInput], whose
    [AttributesJSON] is a string, the report is empty and valid. *)
Theorem validateBrokenJSON_reports_nothing :
  (∀ data : DataSet, validateBrokenJSON data = [])
  ∧ (∀ (data : DataSet) (f : Finding),
       f ∈ findings (validateDataSet data) → ValidationError.severity f ≠ Low)
  ∧ (∀ client, client ∈ clients brokenJSONInput →
       AttributesJSON client = JSString "abc")
  ∧ validateDataSet brokenJSONInput
    = {| isValid := true; errors := []; warnings := [] |}.
Proof.
  split; [apply validateBrokenJSON_nil|].
  split.
  { intros data f Hf. unfold findings in Hf.
    rewrite validateDataSet_errors, validateDataSet_warnings in Hf.
    pose proof (allFindings_notLow data) as Hall.
    rewrite Forall_forall in Hall. apply Hall.
    rewrite elem_of_app, !list_elem_of_In, !filter_In in Hf.
    rewrite list_elem_of_In. tauto. }
  split; [|by vm_compute].
  intros client Hc. unfold brokenJSONInput in Hc. simpl in Hc.
  apply list_elem_of_singleton in Hc. by subst.
Qed.


(** * Beyond the claims: the other rules and the report as a whole *)

(** ** Each rule as a list comprehension *)

Lemma validateDuplicateIDs_eq (data : DataSet) :
  validateDuplicateIDs data = duplicateReports nonEmptyID data.
Proof.
  unfold validateDuplicateIDs, duplicateReports.
  rewrite !duplicateLoop_eq. simpl. by rewrite app_assoc.
Qed.

(** The test of rule 3 fails exactly for the numbers that are at least 1. *)
Lemma malformed_test (slot : Number) :
  isNaN slot || numLt slot (Int 1) = false ↔ atLeastOne slot.
Proof.
  destruct slot as [z| | |]; simpl; [|done..].
  by rewrite Z.ltb_ge.
Qed.

Lemma validateMalformedLists_eq (data : DataSet) :
  validateMalformedLists data =
    flat_map (fun worker =>
      flat_map (fun slot =>
        if decide (atLeastOne slot) then [] else [malformedSlotFinding worker slot])
      (AvailableSlots worker)) (workers data).
Proof.
  unfold validateMalformedLists.
  rewrite (forEach_pushes_flat (fun worker =>
    flat_map (fun slot =>
      if decide (atLeastOne slot) then [] else [malformedSlotFinding worker slot])
    (AvailableSlots worker))); [done|].
  intros worker _ acc. apply forEach_pushes_flat. intros slot _ acc'.
  rewrite push_if. f_equal.
  pose proof (malformed_test slot) as Htest.
  destruct (isNaN slot || numLt slot (Int 1)); case_decide; try done.
  - by apply Htest in H.
  - destruct H. by apply Htest.
Qed.

Lemma validateUnknownReferences_eq (data : DataSet) :
  validateUnknownReferences data =
    flat_map (fun client =>
      flat_map (fun taskID =>
        if decide (taskExists data taskID) then []
        else [unknownReferenceFinding client taskID])
      (RequestedTaskIDs client)) (clients data).
Proof.
  unfold validateUnknownReferences.
  rewrite (forEach_pushes_flat (fun client =>
    flat_map (fun taskID =>
      if decide (taskExists data taskID) then []
      else [unknownReferenceFinding client taskID]) (RequestedTaskIDs client)));
    [done|].
  intros client _ acc. apply forEach_pushes_flat. intros taskID _ acc'.
  rewrite push_if, setHas_list_to_set. f_equal.
  destruct (decide (taskExists data taskID)) as [H|H];
    rewrite taskExists_iff in H.
  - by rewrite bool_decide_eq_true_2.
  - by rewrite bool_decide_eq_false_2.
Qed.

Lemma validateOverloadedWorkers_eq (data : DataSet) :
  validateOverloadedWorkers data =
    flat_map (fun worker =>
      if decide (lengthOf (AvailableSlots worker) < MaxLoadPerPhase worker)%Z
      then [overloadedFinding worker] else []) (workers data).
Proof.
  unfold validateOverloadedWorkers.
  rewrite (forEach_pushes_flat (fun worker =>
    if decide (lengthOf (AvailableSlots worker) < MaxLoadPerPhase worker)%Z
    then [overloadedFinding worker] else [])); [done|].
  intros worker _ acc. rewrite push_if. f_equal.
  destruct (Z.ltb_spec (lengthOf (AvailableSlots worker)) (MaxLoadPerPhase worker));
    case_decide; (done || lia).
Qed.

(** The [Set] of rule 11 holds the skills of all workers. *)
Lemma elem_of_fold_add (l : list string) (acc : gset string) (x : string) :
  x ∈ fold_left (fun acc skill => {[ skill ]} ∪ acc) l acc ↔ x ∈ acc ∨ x ∈ l.
Proof.
  revert acc. induction l as [|y l IH]; intros acc; simpl.
  - rewrite elem_of_nil. tauto.
  - rewrite IH, elem_of_union, elem_of_singleton, elem_of_cons. tauto.
Qed.

Lemma elem_of_availableSkills (ws : list Worker) (acc : gset string) (x : string) :
  x ∈ forEach ws (fun worker _ availableSkills =>
        forEach (Skills worker) (fun skill _ availableSkills =>
          {[ skill ]} ∪ availableSkills) availableSkills) acc
  ↔ x ∈ acc ∨ Exists (fun worker => x ∈ Skills worker) ws.
Proof.
  unfold forEach.
  rewrite (forEach_from_fold (fun acc worker =>
    forEach_from (Skills worker) 0 (fun skill _ availableSkills =>
      {[ skill ]} ∪ availableSkills) acc)).
  revert acc. induction ws as [|w ws IH]; intros acc; simpl.
  - rewrite Exists_nil. tauto.
  - rewrite IH, Exists_cons.
    rewrite (forEach_from_fold (fun acc skill => {[ skill ]} ∪ acc)).
    rewrite elem_of_fold_add. tauto.
Qed.

Lemma validateSkillCoverageMatrix_eq (data : DataSet) :
  validateSkillCoverageMatrix data =
    flat_map (fun task =>
      flat_map (fun skill =>
        if decide (skillAvailable data skill) then []
        else [coverageFinding task skill])
      (RequiredSkills task)) (tasks data).
Proof.
  unfold validateSkillCoverageMatrix. cbv zeta.
  rewrite (forEach_pushes_flat (fun task =>
    flat_map (fun skill =>
      if decide (skillAvailable data skill) then []
      else [coverageFinding task skill]) (RequiredSkills task))); [done|].
  intros task _ acc. apply forEach_pushes_flat. intros skill _ acc'.
  rewrite push_if. f_equal. unfold setHas.
  destruct (decide (skillAvailable data skill)) as [H|H].
  - rewrite bool_decide_eq_true_2; [done|].
    apply elem_of_availableSkills. by right.
  - rewrite bool_decide_eq_false_2; [done|].
    intros Hin. apply elem_of_availableSkills in Hin as [Hin|Hin]; [|done].
    by apply elem_of_empty in Hin.
Qed.

Lemma validateMaxConcurrencyFeasibility_eq (data : DataSet) :
  validateMaxConcurrencyFeasibility data =
    flat_map (fun task =>
      if decide (MaxConcurrent task > qualifiedCount data task)%Z
      then [concurrencyFinding task (qualifiedCount data task)]
      else []) (tasks data).
Proof.
  unfold validateMaxConcurrencyFeasibility.
  rewrite (forEach_pushes_flat (fun task =>
    if decide (MaxConcurrent task > qualifiedCount data task)%Z
    then [concurrencyFinding task (qualifiedCount data task)]
    else [])); [done|].
  intros task _ acc. rewrite push_if, qualifiedWorkers_length. f_equal.
  destruct (Z.gtb_spec (MaxConcurrent task) (qualifiedCount data task));
    case_decide; (done || lia).
Qed.

(** ** Which findings are errors *)

Lemma allOfType_flat_map {A : Type} (ty : FindingType) (f : A → list Finding)
    (l : list A) :
  (∀ x, allOfType ty (f x)) → allOfType ty (flat_map f l).
Proof.
  intros Hf. unfold allOfType in *. induction l as [|x l IH]; simpl; [done|].
  apply Forall_app. by split.
Qed.

Lemma allOfType_concat_imap {A : Type} (ty : FindingType)
    (f : nat → A → list Finding) (l : list A) :
  (∀ i x, allOfType ty (f i x)) → allOfType ty (concat (imap f l)).
Proof.
  intros Hf. unfold allOfType in *. revert f Hf.
  induction l as [|x l IH]; intros f Hf; simpl; [done|].
  apply Forall_app. split; [apply Hf|]. apply IH. intros i y. apply Hf.
Qed.

Lemma allOfType_app (ty : FindingType) (l1 l2 : list Finding) :
  allOfType ty l1 → allOfType ty l2 → allOfType ty (l1 ++ l2).
Proof. intros H1 H2. apply Forall_app. by split. Qed.

(** Goals [allOfType ty l] for [l] a comprehension over findings whose
    kind is written out. *)
Ltac allOfType_comprehension :=
  lazymatch goal with
  | |- allOfType _ (_ ++ _) => apply allOfType_app; allOfType_comprehension
  | |- allOfType _ (flat_map _ _) =>
      apply allOfType_flat_map; intros ?; allOfType_comprehension
  | |- allOfType _ (concat (imap _ _)) =>
      apply allOfType_concat_imap; intros ? ?; allOfType_comprehension
  | |- allOfType _ (if ?c then _ else _) => destruct c; allOfType_comprehension
  | |- allOfType _ [] => by apply Forall_nil
  | |- allOfType _ [_] => by apply Forall_singleton
  end.

Lemma missing_are_errors (data : DataSet) :
  allOfType TError (validateMissingRequiredColumns data).
Proof.
  rewrite validateMissingRequiredColumns_eq. unfold missingReports.
  allOfType_comprehension.
Qed.

Lemma duplicates_are_errors (data : DataSet) :
  allOfType TError (validateDuplicateIDs data).
Proof.
  rewrite validateDuplicateIDs_eq.
  unfold duplicateReports, laterOccurrenceReports. allOfType_comprehension.
Qed.

Lemma malformed_are_errors (data : DataSet) :
  allOfType TError (validateMalformedLists data).
Proof. rewrite validateMalformedLists_eq. allOfType_comprehension. Qed.

Lemma ranges_are_errors (data : DataSet) :
  allOfType TError (validateOutOfRangeValues data).
Proof. rewrite validateOutOfRangeValues_eq. allOfType_comprehension. Qed.

Lemma unknown_are_errors (data : DataSet) :
  allOfType TError (validateUnknownReferences data).
Proof. rewrite validateUnknownReferences_eq. allOfType_comprehension. Qed.

Lemma overloaded_are_warnings (data : DataSet) :
  allOfType TWarning (validateOverloadedWorkers data).
Proof. rewrite validateOverloadedWorkers_eq. allOfType_comprehension. Qed.

Lemma saturation_are_warnings (data : DataSet) :
  allOfType TWarning (validatePhaseSlotSaturation data).
Proof.
  rewrite validatePhaseSlotSaturation_eq. unfold saturationEntry.
  allOfType_comprehension.
Qed.

Lemma coverage_are_errors (data : DataSet) :
  allOfType TError (validateSkillCoverageMatrix data).
Proof. rewrite validateSkillCoverageMatrix_eq. allOfType_comprehension. Qed.

Lemma concurrency_are_warnings (data : DataSet) :
  allOfType TWarning (validateMaxConcurrencyFeasibility data).
Proof. rewrite validateMaxConcurrencyFeasibility_eq. allOfType_comprehension. Qed.

Lemma filter_isError_errors (l : list Finding) :
  allOfType TError l → List.filter isError l = l.
Proof.
  induction 1 as [|f l Hf _ IH]; simpl; [done|].
  unfold isError at 1. by rewrite bool_decide_eq_true_2, IH.
Qed.

Lemma filter_isError_warnings (l : list Finding) :
  allOfType TWarning l → List.filter isError l = [].
Proof.
  induction 1 as [|f l Hf _ IH]; simpl; [done|].
  unfold isError at 1. rewrite bool_decide_eq_false_2; [done|]. by rewrite Hf.
Qed.

Lemma filter_isWarning_errors (l : list Finding) :
  allOfType TError l → List.filter isWarning l = [].
Proof.
  induction 1 as [|f l Hf _ IH]; simpl; [done|].
  unfold isWarning at 1. rewrite bool_decide_eq_false_2; [done|]. by rewrite Hf.
Qed.

Lemma filter_isWarning_warnings (l : list Finding) :
  allOfType TWarning l → List.filter isWarning l = l.
Proof.
  induction 1 as [|f l Hf _ IH]; simpl; [done|].
  unfold isWarning at 1. by rewrite bool_decide_eq_true_2, IH.
Qed.

(** The errors of the report are the findings of the six error rules, in
    the order the rules run; its warnings those of the other three. *)
Lemma errors_by_rule (data : DataSet) :
  errors (validateDataSet data) =
    validateMissingRequiredColumns data ++ validateDuplicateIDs data
    ++ validateMalformedLists data ++ validateOutOfRangeValues data
    ++ validateUnknownReferences data ++ validateSkillCoverageMatrix data.
Proof.
  rewrite validateDataSet_errors. unfold allFindings.
  rewrite !List.filter_app, validateBrokenJSON_nil.
  rewrite (filter_isError_errors _ (missing_are_errors data)),
    (filter_isError_errors _ (duplicates_are_errors data)),
    (filter_isError_errors _ (malformed_are_errors data)),
    (filter_isError_errors _ (ranges_are_errors data)),
    (filter_isError_errors _ (unknown_are_errors data)),
    (filter_isError_errors _ (coverage_are_errors data)),
    (filter_isError_warnings _ (overloaded_are_warnings data)),
    (filter_isError_warnings _ (saturation_are_warnings data)),
    (filter_isError_warnings _ (concurrency_are_warnings data)).
  simpl. by rewrite app_nil_r.
Qed.

Lemma warnings_by_rule (data : DataSet) :
  warnings (validateDataSet data) =
    validateOverloadedWorkers data ++ validatePhaseSlotSaturation data
    ++ validateMaxConcurrencyFeasibility data.
Proof.
  rewrite validateDataSet_warnings. unfold allFindings.
  rewrite !List.filter_app, validateBrokenJSON_nil.
  rewrite (filter_isWarning_errors _ (missing_are_errors data)),
    (filter_isWarning_errors _ (duplicates_are_errors data)),
    (filter_isWarning_errors _ (malformed_are_errors data)),
    (filter_isWarning_errors _ (ranges_are_errors data)),
    (filter_isWarning_errors _ (unknown_are_errors data)),
    (filter_isWarning_errors _ (coverage_are_errors data)),
    (filter_isWarning_warnings _ (overloaded_are_warnings data)),
    (filter_isWarning_warnings _ (saturation_are_warnings data)),
    (filter_isWarning_warnings _ (concurrency_are_warnings data)).
  done.
Qed.

Lemma isValid_eq (data : DataSet) :
  isValid (validateDataSet data) = true ↔ errors (validateDataSet data) = [].
Proof.
  unfold validateDataSet. rewrite callValidateDataSet_eq. simpl.
  rewrite Nat.eqb_eq. apply length_zero_iff_nil.
Qed.

Lemma partition_by_type (l : list Finding) :
  List.filter isError l ++ List.filter isWarning l ≡ₚ l.
Proof.
  induction l as [|f l IH]; simpl; [done|].
  unfold isError at 1, isWarning at 1.
  destruct (ValidationError.type f); simpl.
  - by rewrite IH.
  - rewrite <- Permutation_middle. by rewrite IH.
Qed.

(** Property X1.  The report loses nothing and adds nothing: its errors
    are the findings of rules 1, 2, 3, 4, 6 and 11 in the order these rules
    run, its warnings those of the rules on overloaded workers, phase
    saturation and concurrency, and together they are the findings of all
    the rules. *)
Theorem report_is_the_findings_by_rule (data : DataSet) :
  errors (validateDataSet data) =
    validateMissingRequiredColumns data ++ validateDuplicateIDs data
    ++ validateMalformedLists data ++ validateOutOfRangeValues data
    ++ validateUnknownReferences data ++ validateSkillCoverageMatrix data
  ∧ warnings (validateDataSet data) =
    validateOverloadedWorkers data ++ validatePhaseSlotSaturation data
    ++ validateMaxConcurrencyFeasibility data
  ∧ findings (validateDataSet data) ≡ₚ allFindings data
  ∧ length (errors (validateDataSet data)) + length (warnings (validateDataSet data))
    = length (allFindings data).
Proof.
  split; [apply errors_by_rule|]. split; [apply warnings_by_rule|].
  assert (findings (validateDataSet data) ≡ₚ allFindings data) as Hperm.
  { unfold findings. rewrite validateDataSet_errors, validateDataSet_warnings.
    apply partition_by_type. }
  split; [done|].
  rewrite <- length_app. by apply Permutation_length in Hperm.
Qed.

(** ** When a rule reports nothing *)

Lemma and_iff_both (P P' Q Q' : Prop) : (P ↔ P') → (Q ↔ Q') → (P ∧ Q ↔ P' ∧ Q').
Proof. tauto. Qed.

Lemma flat_map_nil {A B : Type} (f : A → list B) (l : list A) :
  flat_map f l = [] ↔ Forall (fun x => f x = []) l.
Proof.
  induction l as [|x l IH]; simpl.
  - split; [by constructor|done].
  - rewrite Forall_cons, <- IH. split.
    + intros H. by apply app_eq_nil in H.
    + by intros [-> ->].
Qed.

Lemma concat_imap_nil {A B : Type} (f : nat → A → list B) (l : list A) :
  concat (imap f l) = [] ↔ ∀ i x, l !! i = Some x → f i x = [].
Proof.
  revert f. induction l as [|y l IH]; intros f; simpl.
  - split; [by intros _ i x|done].
  - split.
    + intros H. apply app_eq_nil in H as [Hy Hl]. intros [|i] x Hx.
      * by injection Hx as <-.
      * by apply (proj1 (IH (f ∘ S)) Hl i x).
    + intros H. rewrite (H 0 y eq_refl). simpl.
      apply IH. intros i x Hx. by apply (H (S i) x).
Qed.

Lemma isMissing_string (s : string) : isMissing (JSString s) = false ↔ s ≠ "".
Proof.
  unfold isMissing. simpl. rewrite orb_false_r, negb_involutive.
  destruct (String.eqb_spec s ""); split; (done || congruence).
Qed.

Lemma isMissing_number (n : Z) : isMissing (JSNumber n) = false ↔ n ≠ 0%Z.
Proof.
  unfold isMissing. simpl. rewrite orb_false_r, negb_involutive.
  destruct (Z.eqb_spec n 0); split; (done || congruence).
Qed.

Lemma isMissing_array (xs : list JSValue) : isMissing (JSArray xs) = false ↔ xs ≠ [].
Proof. unfold isMissing. simpl. destruct xs; simpl; split; (done || congruence). Qed.

Lemma map_nil_iff {A B : Type} (f : A → B) (l : list A) : map f l ≠ [] ↔ l ≠ [].
Proof. destruct l; simpl; split; (done || congruence). Qed.

Lemma missingReports_nil {A : Type} (kind : string) (entity : EntityType)
    (fields : list string) (getField : A → string → JSValue)
    (getID : A → string) (entities : list A) :
  missingReports kind entity fields getField getID entities = []
  ↔ Forall (fun e =>
      Forall (fun field => isMissing (getField e field) = false) fields) entities.
Proof.
  unfold missingReports. rewrite concat_imap_nil, Forall_forall.
  split.
  - intros H e He. apply list_elem_of_lookup in He as [i Hi].
    specialize (H i e Hi). apply flat_map_nil in H.
    eapply Forall_impl; [exact H|]. simpl. intros field Hf.
    by destruct (isMissing _).
  - intros H i e Hi. apply flat_map_nil.
    eapply Forall_impl; [exact (H e (list_elem_of_lookup_2 _ _ _ Hi))|].
    simpl. by intros field ->.
Qed.

Lemma missing_nil (data : DataSet) :
  validateMissingRequiredColumns data = []
  ↔ Forall (fun client =>
      ClientID client ≠ "" ∧ ClientName client ≠ "" ∧ PriorityLevel client ≠ 0%Z)
      (clients data)
    ∧ Forall (fun worker =>
      WorkerID worker ≠ "" ∧ WorkerName worker ≠ ""
      ∧ Skills worker ≠ [] ∧ AvailableSlots worker ≠ []) (workers data)
    ∧ Forall (fun task =>
      TaskID task ≠ "" ∧ TaskName task ≠ ""
      ∧ Duration task ≠ 0%Z ∧ RequiredSkills task ≠ []) (tasks data).
Proof.
  rewrite validateMissingRequiredColumns_eq.
  rewrite !app_nil, !missingReports_nil.
  unfold requiredClientFields, requiredWorkerFields, requiredTaskFields.
  repeat apply and_iff_both; apply Forall_iff; intros e;
    rewrite !Forall_cons, Forall_nil;
    unfold clientField, workerField, taskField; simpl;
    rewrite ?isMissing_string, ?isMissing_number, ?isMissing_array, ?map_nil_iff;
    tauto.
Qed.

Lemma malformed_nil (data : DataSet) :
  validateMalformedLists data = []
  ↔ Forall (fun worker => Forall atLeastOne (AvailableSlots worker))
      (workers data).
Proof.
  rewrite validateMalformedLists_eq, flat_map_nil.
  apply Forall_iff. intros worker. rewrite flat_map_nil.
  apply Forall_iff. intros slot. case_decide; split; done.
Qed.

Lemma ranges_nil (data : DataSet) :
  validateOutOfRangeValues data = []
  ↔ Forall (fun client => (1 ≤ PriorityLevel client ≤ 5)%Z) (clients data)
    ∧ Forall (fun task => (1 ≤ Duration task)%Z) (tasks data).
Proof.
  rewrite validateOutOfRangeValues_eq, app_nil, !flat_map_nil.
  apply and_iff_both; apply Forall_iff; intros e.
  - destruct (Z.ltb_spec (PriorityLevel e) 1), (Z.gtb_spec (PriorityLevel e) 5);
      simpl; split; (done || lia).
  - destruct (Z.ltb_spec (Duration e) 1); split; (done || lia).
Qed.

Lemma unknown_nil (data : DataSet) :
  validateUnknownReferences data = []
  ↔ Forall (fun client => Forall (taskExists data) (RequestedTaskIDs client))
      (clients data).
Proof.
  rewrite validateUnknownReferences_eq, flat_map_nil.
  apply Forall_iff. intros client. rewrite flat_map_nil.
  apply Forall_iff. intros taskID. case_decide; split; done.
Qed.

Lemma coverage_nil (data : DataSet) :
  validateSkillCoverageMatrix data = []
  ↔ Forall (fun task => Forall (skillAvailable data) (RequiredSkills task))
      (tasks data).
Proof.
  rewrite validateSkillCoverageMatrix_eq, flat_map_nil.
  apply Forall_iff. intros task. rewrite flat_map_nil.
  apply Forall_iff. intros skill. case_decide; split; done.
Qed.

(** ** Rule 2, one entity at a time *)

Section LaterOccurrences.
Context {A : Type} (counts : string → bool) (getID : A → string)
  (mkFinding : string → Finding).

Lemma laterOccurrenceReports_snoc (l : list A) (a : A) :
  laterOccurrenceReports counts getID mkFinding (l ++ [a]) =
    laterOccurrenceReports counts getID mkFinding l
    ++ (if counts (getID a) && bool_decide (getID a ∈ map getID l)
        then [mkFinding (getID a)] else []).
Proof.
  unfold laterOccurrenceReports.
  rewrite (List.map_app getID l [a]), imap_app, concat_app.
  cbn [imap concat]. rewrite app_nil_r, Nat.add_0_r. f_equal.
  - f_equal. apply imap_ext. intros i x Hi.
    rewrite take_app_le; [done|].
    rewrite length_map. apply lookup_lt_Some in Hi. lia.
  - rewrite take_app_length'; [done|]. by rewrite length_map.
Qed.
End LaterOccurrences.

Lemma nonEmptyIDs_snoc {A : Type} (getID : A → string) (l : list A) (a : A) :
  nonEmptyIDs getID (l ++ [a]) =
    nonEmptyIDs getID l ++ (if nonEmptyID (getID a) then [getID a] else []).
Proof. unfold nonEmptyIDs. by rewrite List.map_app, List.filter_app. Qed.

Lemma elem_of_nonEmptyIDs {A : Type} (getID : A → string) (l : list A) (x : string) :
  x ∈ nonEmptyIDs getID l ↔ x ≠ "" ∧ x ∈ map getID l.
Proof.
  unfold nonEmptyIDs.
  rewrite !list_elem_of_In, filter_In, nonEmptyID_true. tauto.
Qed.

Lemma laterOccurrenceReports_nil {A : Type} (getID : A → string)
    (mkFinding : string → Finding) (l : list A) :
  laterOccurrenceReports nonEmptyID getID mkFinding l = []
  ↔ NoDup (nonEmptyIDs getID l).
Proof.
  induction l as [|a l IH] using rev_ind.
  - split; [intros _; apply NoDup_nil_2|done].
  - rewrite laterOccurrenceReports_snoc, nonEmptyIDs_snoc, app_nil, IH.
    destruct (nonEmptyID (getID a)) eqn:Hne; simpl.
    + apply nonEmptyID_true in Hne. rewrite NoDup_app.
      case_bool_decide as Hin.
      * split; [by intros [_ ?]|]. intros (_ & Hdisj & _).
        exfalso. apply (Hdisj (getID a)); [|by left].
        by apply elem_of_nonEmptyIDs.
      * split; [|by intros [? _]]. intros [Hnd _].
        split; [done|]. split; [|apply NoDup_singleton].
        intros x Hx Hxa. apply list_elem_of_singleton in Hxa as ->.
        by apply elem_of_nonEmptyIDs in Hx as [_ ?].
    + rewrite app_nil_r. tauto.
Qed.

Lemma laterOccurrenceReports_count {A : Type} (getID : A → string)
    (mkFinding : string → Finding) (l : list A) :
  length (laterOccurrenceReports nonEmptyID getID mkFinding l)
  + size (list_to_set (nonEmptyIDs getID l) : gset string)
  = length (nonEmptyIDs getID l).
Proof.
  induction l as [|a l IH] using rev_ind; [done|].
  rewrite laterOccurrenceReports_snoc, nonEmptyIDs_snoc, !length_app,
    list_to_set_app_L.
  destruct (nonEmptyID (getID a)) eqn:Hne; simpl.
  - apply nonEmptyID_true in Hne. rewrite union_empty_r_L.
    case_bool_decide as Hin; simpl.
    + assert (getID a ∈ (list_to_set (nonEmptyIDs getID l) : gset string)) as Hset.
      { apply elem_of_list_to_set. by apply elem_of_nonEmptyIDs. }
      rewrite (comm_L (∪)), (subseteq_union_1_L {[getID a]})
        by by apply singleton_subseteq_l.
      lia.
    + assert (getID a ∉ (list_to_set (nonEmptyIDs getID l) : gset string)) as Hset.
      { rewrite elem_of_list_to_set. intros Hx.
        by apply elem_of_nonEmptyIDs in Hx as [_ ?]. }
      rewrite size_union, size_singleton by by apply disjoint_singleton_r. lia.
  - rewrite union_empty_r_L. lia.
Qed.

Lemma nonEmptyIDs_all {A : Type} (getID : A → string) (l : list A) :
  Forall (fun e => getID e ≠ "") l → nonEmptyIDs getID l = map getID l.
Proof.
  unfold nonEmptyIDs. induction 1 as [|e l He _ IH]; simpl; [done|].
  apply nonEmptyID_true in He. by rewrite He, IH.
Qed.

Lemma duplicates_nil (data : DataSet) :
  validateDuplicateIDs data = []
  ↔ NoDup (nonEmptyIDs ClientID (clients data))
    ∧ NoDup (nonEmptyIDs WorkerID (workers data))
    ∧ NoDup (nonEmptyIDs TaskID (tasks data)).
Proof.
  rewrite validateDuplicateIDs_eq. unfold duplicateReports.
  by rewrite !app_nil, !laterOccurrenceReports_nil.
Qed.

(** Property X2.  The number of findings of rule 2 is, collection by
    collection, the number of entities with a non-empty ID less the number
    of different non-empty IDs; so the rule reports nothing exactly when no
    non-empty ID is repeated within a collection. *)
Theorem duplicate_findings_count (data : DataSet) :
  length (validateDuplicateIDs data)
  + (size (list_to_set (nonEmptyIDs ClientID (clients data)) : gset string)
     + size (list_to_set (nonEmptyIDs WorkerID (workers data)) : gset string)
     + size (list_to_set (nonEmptyIDs TaskID (tasks data)) : gset string))
  = length (nonEmptyIDs ClientID (clients data))
    + length (nonEmptyIDs WorkerID (workers data))
    + length (nonEmptyIDs TaskID (tasks data))
  ∧ (validateDuplicateIDs data = []
     ↔ NoDup (nonEmptyIDs ClientID (clients data))
       ∧ NoDup (nonEmptyIDs WorkerID (workers data))
       ∧ NoDup (nonEmptyIDs TaskID (tasks data))).
Proof.
  split; [|apply duplicates_nil].
  rewrite validateDuplicateIDs_eq. unfold duplicateReports.
  rewrite !length_app.
  pose proof (laterOccurrenceReports_count ClientID
    (duplicateFinding "client" "ClientID" "ClientID" EClient) (clients data)).
  pose proof (laterOccurrenceReports_count WorkerID
    (duplicateFinding "worker" "WorkerID" "WorkerID" EWorker) (workers data)).
  pose proof (laterOccurrenceReports_count TaskID
    (duplicateFinding "task" "TaskID" "TaskID" ETask) (tasks data)).
  lia.
Qed.

(** ** A report without errors *)

Lemma clientOK_iff (data : DataSet) (client : Client) :
  clientOK data client
  ↔ (ClientID client ≠ "" ∧ ClientName client ≠ "" ∧ PriorityLevel client ≠ 0%Z)
    ∧ (1 ≤ PriorityLevel client ≤ 5)%Z
    ∧ Forall (taskExists data) (RequestedTaskIDs client).
Proof. unfold clientOK. rewrite Forall_forall. intuition lia. Qed.

Lemma workerOK_iff (worker : Worker) :
  workerOK worker
  ↔ (WorkerID worker ≠ "" ∧ WorkerName worker ≠ ""
     ∧ Skills worker ≠ [] ∧ AvailableSlots worker ≠ [])
    ∧ Forall atLeastOne (AvailableSlots worker).
Proof. unfold workerOK. rewrite Forall_forall. tauto. Qed.

Lemma taskOK_iff (data : DataSet) (task : Task) :
  taskOK data task
  ↔ (TaskID task ≠ "" ∧ TaskName task ≠ ""
     ∧ Duration task ≠ 0%Z ∧ RequiredSkills task ≠ [])
    ∧ (1 ≤ Duration task)%Z
    ∧ Forall (skillAvailable data) (RequiredSkills task).
Proof. unfold taskOK. rewrite Forall_forall. intuition lia. Qed.

Lemma ids_present {A : Type} (getID : A → string) (P : A → Prop) (l : list A) :
  Forall (fun e => getID e ≠ "" ∧ P e) l → nonEmptyIDs getID l = map getID l.
Proof.
  intros H. apply nonEmptyIDs_all. eapply Forall_impl; [exact H|]. by intros e [? _].
Qed.

Lemma Forall_and3 {A : Type} (P Q R : A → Prop) (l : list A) :
  Forall (fun x => P x ∧ Q x ∧ R x) l ↔ Forall P l ∧ Forall Q l ∧ Forall R l.
Proof. by rewrite !Forall_and. Qed.

Lemma Forall_and2 {A : Type} (P Q : A → Prop) (l : list A) :
  Forall (fun x => P x ∧ Q x) l ↔ Forall P l ∧ Forall Q l.
Proof. apply Forall_and. Qed.

Lemma errorFree_iff_rules_silent (data : DataSet) :
  errorFree data
  ↔ validateMissingRequiredColumns data = [] ∧ validateDuplicateIDs data = []
    ∧ validateMalformedLists data = [] ∧ validateOutOfRangeValues data = []
    ∧ validateUnknownReferences data = [] ∧ validateSkillCoverageMatrix data = [].
Proof.
  rewrite missing_nil, duplicates_nil, malformed_nil, ranges_nil, unknown_nil,
    coverage_nil.
  unfold errorFree.
  rewrite (Forall_iff _ _ _ (clientOK_iff data)), (Forall_iff _ _ _ workerOK_iff),
    (Forall_iff _ _ _ (taskOK_iff data)).
  rewrite (Forall_and3 _ _ _ (clients data)), (Forall_and2 _ _ (workers data)),
    (Forall_and3 _ _ _ (tasks data)).
  split.
  - intros (Hc & Hw & Ht & Hnc & Hnw & Hnt).
    destruct Hc as (Hc1 & Hc2 & Hc3), Hw as (Hw1 & Hw2), Ht as (Ht1 & Ht2 & Ht3).
    rewrite (ids_present ClientID _ _ Hc1), (ids_present WorkerID _ _ Hw1),
      (ids_present TaskID _ _ Ht1).
    tauto.
  - intros ((Hc1 & Hw1 & Ht1) & (Hnc & Hnw & Hnt) & Hw2 & (Hc2 & Ht2) & Hc3 & Ht3).
    rewrite (ids_present ClientID _ _ Hc1) in Hnc.
    rewrite (ids_present WorkerID _ _ Hw1) in Hnw.
    rewrite (ids_present TaskID _ _ Ht1) in Hnt.
    tauto.
Qed.

(** Property X3.  The report is valid exactly when every client has an ID,
    a name, a priority from 1 to 5 and only requests existing tasks; every
    worker has an ID, a name, at least one skill and at least one slot,
    all slots being at least 1; every task has an ID, a name, a duration of
    at least 1 and at least one required skill, each held by some worker;
    and no ID is repeated within its collection.  Overloaded workers,
    saturated phases and infeasible concurrency play no part. *)
Theorem isValid_iff_errorFree (data : DataSet) :
  isValid (validateDataSet data) = true ↔ errorFree data.
Proof.
  rewrite isValid_eq, errors_by_rule, !app_nil.
  symmetry. apply errorFree_iff_rules_silent.
Qed.

(** ** Identifiers of the findings of rule 1 *)

(** Decides one pair of keys: the identifiers built from them agree only
    when the keys and the rows agree. *)
Ltac missingID_case :=
  intros i1 i2 Heq; unfold missingID in Heq;
  cbv beta iota delta [String.append] in Heq;
  first
    [ discriminate Heq
    | injection Heq as Heq; apply (inj pretty) in Heq; by subst ].

Lemma missingID_inj_keys :
  Forall (fun k1 => Forall (fun k2 =>
    ∀ i1 i2, missingID (fst k1) (snd k1) i1 = missingID (fst k2) (snd k2) i2 →
             k1 = k2 ∧ i1 = i2) requiredKeys) requiredKeys.
Proof.
  unfold requiredKeys, requiredClientFields, requiredWorkerFields,
    requiredTaskFields. cbn [map app fst snd].
  repeat (apply Forall_cons; split); try apply Forall_nil_2; cbn [fst snd];
    missingID_case.
Qed.

Lemma missingID_inj (kind1 field1 kind2 field2 : string) (i1 i2 : nat) :
  (kind1, field1) ∈ requiredKeys → (kind2, field2) ∈ requiredKeys →
  missingID kind1 field1 i1 = missingID kind2 field2 i2 →
  kind1 = kind2 ∧ field1 = field2 ∧ i1 = i2.
Proof.
  intros H1 H2 Heq.
  pose proof missingID_inj_keys as Hall. rewrite Forall_forall in Hall.
  specialize (Hall _ H1). rewrite Forall_forall in Hall.
  destruct (Hall _ H2 i1 i2 Heq) as [[= -> ->] ->]. done.
Qed.

Section MissingIdentifiers.
Context {A : Type} (kind : string) (entity : EntityType) (fields : list string)
  (getField : A → string → JSValue) (getID : A → string).
Hypothesis fields_required : ∀ field, field ∈ fields → (kind, field) ∈ requiredKeys.
Hypothesis fields_NoDup : NoDup fields.

Lemma missingReportsFrom_0 (l : list A) :
  missingReportsFrom 0 kind entity fields getField getID l
  = missingReports kind entity fields getField getID l.
Proof. done. Qed.

Lemma missingReportsFrom_cons (n : nat) (e : A) (l : list A) :
  missingReportsFrom n kind entity fields getField getID (e :: l) =
    flat_map (fun field =>
      if isMissing (getField e field)
      then [missingFinding kind entity field n (getID e)] else []) fields
    ++ missingReportsFrom (S n) kind entity fields getField getID l.
Proof.
  unfold missingReportsFrom. cbn [imap concat]. rewrite Nat.add_0_r. do 2 f_equal.
  apply imap_ext. intros j x _. simpl.
  by replace (n + S j) with (S (n + j)) by lia.
Qed.

(** The identifiers of the findings of one entity: one per reported field. *)
Lemma ids_of_entity (n : nat) (e : A) (fs : list string) :
  (∀ field, field ∈ fs → field ∈ fields) → NoDup fs →
  NoDup (map ValidationError.id (flat_map (fun field =>
    if isMissing (getField e field)
    then [missingFinding kind entity field n (getID e)] else []) fs))
  ∧ ∀ x, x ∈ map ValidationError.id (flat_map (fun field =>
      if isMissing (getField e field)
      then [missingFinding kind entity field n (getID e)] else []) fs) →
      ∃ field, field ∈ fs ∧ x = missingID kind field n.
Proof.
  induction fs as [|f fs IH]; intros Hsub Hnd.
  - split; [apply NoDup_nil_2|]. intros x Hx. by apply elem_of_nil in Hx.
  - apply NoDup_cons in Hnd as [Hf Hnd].
    destruct IH as [IH1 IH2]; [by intros ? ?; apply Hsub; right|done|].
    cbn [flat_map]. rewrite List.map_app. split.
    + apply NoDup_app. split; [|split; [|done]].
      * destruct (isMissing _); [apply NoDup_singleton|apply NoDup_nil_2].
      * intros x Hx Hx'. destruct (isMissing _); [|by apply elem_of_nil in Hx].
        apply list_elem_of_singleton in Hx as ->.
        apply IH2 in Hx' as (f' & Hf' & Heq).
        apply missingID_inj in Heq as (_ & -> & _); [done|..];
          apply fields_required, Hsub; [by left|by right].
    + intros x Hx. apply elem_of_app in Hx as [Hx|Hx].
      * destruct (isMissing _); [|by apply elem_of_nil in Hx].
        apply list_elem_of_singleton in Hx as ->. exists f. split; [by left|done].
      * apply IH2 in Hx as (f' & Hf' & ->). exists f'. split; [by right|done].
Qed.

Lemma ids_of_missingReportsFrom (l : list A) (n : nat) :
  NoDup (map ValidationError.id
           (missingReportsFrom n kind entity fields getField getID l))
  ∧ ∀ x, x ∈ map ValidationError.id
               (missingReportsFrom n kind entity fields getField getID l) →
      ∃ field j, field ∈ fields ∧ n ≤ j ∧ x = missingID kind field j.
Proof.
  revert n. induction l as [|e l IH]; intros n.
  - split; [apply NoDup_nil_2|]. intros x Hx. by apply elem_of_nil in Hx.
  - rewrite missingReportsFrom_cons, List.map_app.
    destruct (ids_of_entity n e fields) as [He1 He2]; [done|done|].
    destruct (IH (S n)) as [IH1 IH2]. split.
    + apply NoDup_app. split; [done|]. split; [|done].
      intros x Hx Hx'. apply He2 in Hx as (f & Hf & ->).
      apply IH2 in Hx' as (f' & j & Hf' & Hj & Heq).
      apply missingID_inj in Heq as (_ & _ & ->); [lia|by apply fields_required..].
    + intros x Hx. apply elem_of_app in Hx as [Hx|Hx].
      * apply He2 in Hx as (f & Hf & ->). exists f, n. by split; [|split; [lia|]].
      * apply IH2 in Hx as (f & j & Hf & Hj & ->). exists f, j.
        split; [done|]. split; [lia|done].
Qed.
End MissingIdentifiers.

Lemma required_client (field : string) :
  field ∈ requiredClientFields → ("client", field) ∈ requiredKeys.
Proof.
  intros H. unfold requiredKeys. apply elem_of_app. left.
  apply list_elem_of_In, in_map, list_elem_of_In, H.
Qed.

Lemma required_worker (field : string) :
  field ∈ requiredWorkerFields → ("worker", field) ∈ requiredKeys.
Proof.
  intros H. unfold requiredKeys. apply elem_of_app. right. apply elem_of_app. left.
  apply list_elem_of_In, in_map, list_elem_of_In, H.
Qed.

Lemma required_task (field : string) :
  field ∈ requiredTaskFields → ("task", field) ∈ requiredKeys.
Proof.
  intros H. unfold requiredKeys. do 2 (apply elem_of_app; right).
  apply list_elem_of_In, in_map, list_elem_of_In, H.
Qed.

Lemma required_fields_NoDup :
  NoDup requiredClientFields ∧ NoDup requiredWorkerFields ∧ NoDup requiredTaskFields.
Proof. repeat split; by apply (bool_decide_unpack _). Qed.

(** Property X4.  The identifiers of the findings of rule 1 are pairwise
    different, whatever the dataset: the identifier holds the kind of
    entity, the field and the row. *)
Theorem missing_identifiers_distinct (data : DataSet) :
  NoDup (map ValidationError.id (validateMissingRequiredColumns data)).
Proof.
  rewrite validateMissingRequiredColumns_eq, !List.map_app.
  destruct required_fields_NoDup as (Hc & Hw & Ht).
  destruct (ids_of_missingReportsFrom "client" EClient requiredClientFields
              clientField ClientID required_client Hc (clients data) 0) as [Hc1 Hc2].
  fold (missingReports "client" EClient requiredClientFields clientField ClientID
          (clients data)) in Hc1, Hc2.
  destruct (ids_of_missingReportsFrom "worker" EWorker requiredWorkerFields
              workerField WorkerID required_worker Hw (workers data) 0) as [Hw1 Hw2].
  fold (missingReports "worker" EWorker requiredWorkerFields workerField WorkerID
          (workers data)) in Hw1, Hw2.
  destruct (ids_of_missingReportsFrom "task" ETask requiredTaskFields
              taskField TaskID required_task Ht (tasks data) 0) as [Ht1 Ht2].
  fold (missingReports "task" ETask requiredTaskFields taskField TaskID
          (tasks data)) in Ht1, Ht2.
  apply NoDup_app. split; [done|]. split.
  - intros x Hx Hx'. apply Hc2 in Hx as (f & j & Hf & _ & ->).
    apply elem_of_app in Hx' as [Hx'|Hx'].
    + apply Hw2 in Hx' as (f' & j' & Hf' & _ & Heq).
      apply missingID_inj in Heq as (? & _); [done|..];
        [by apply required_client|by apply required_worker].
    + apply Ht2 in Hx' as (f' & j' & Hf' & _ & Heq).
      apply missingID_inj in Heq as (? & _); [done|..];
        [by apply required_client|by apply required_task].
  - apply NoDup_app. split; [done|]. split; [|done].
    intros x Hx Hx'. apply Hw2 in Hx as (f & j & Hf & _ & ->).
    apply Ht2 in Hx' as (f' & j' & Hf' & _ & Heq).
    apply missingID_inj in Heq as (? & _); [done|..];
      [by apply required_worker|by apply required_task].
Qed.

(** ** The warnings of rule 10, phase by phase *)








(** ** The rules the claims leave out, entry by entry *)

(** Property X6.  Rule 11 goes through the tasks in order and, for each,
    through its required skills in order; a skill adds exactly one error of
    high severity when no worker holds it, and none when some worker does.
    The rule reports nothing exactly when every required skill is held by
    some worker. *)
Theorem validateSkillCoverageMatrix_per_skill (data : DataSet) :
  validateSkillCoverageMatrix data =
    flat_map (fun task =>
      flat_map (fun skill =>
        if decide (skillAvailable data skill) then []
        else [coverageFinding task skill])
      (RequiredSkills task)) (tasks data)
  ∧ (∀ task skill,
       ValidationError.type (coverageFinding task skill) = TError
       ∧ ValidationError.severity (coverageFinding task skill) = High
       ∧ ValidationError.entityId (coverageFinding task skill) = TaskID task
       ∧ ValidationError.message (coverageFinding task skill)
         = "No worker has required skill: " +:+ skill)
  ∧ (validateSkillCoverageMatrix data = []
     ↔ ∀ task skill, task ∈ tasks data → skill ∈ RequiredSkills task →
         ∃ worker, worker ∈ workers data ∧ skill ∈ Skills worker).
Proof.
  split; [apply validateSkillCoverageMatrix_eq|]. split; [done|].
  rewrite coverage_nil, Forall_forall. unfold skillAvailable.
  split.
  - intros H task skill Ht Hs. specialize (H task Ht).
    rewrite Forall_forall in H. by apply Exists_exists, H.
  - intros H task Ht. apply Forall_forall. intros skill Hs.
    apply Exists_exists. by apply (H task skill).
Qed.

(** Property X7.  Rule 3 goes through the workers in order and, for each,
    through the entries of [AvailableSlots] in order; an entry adds exactly
    one error of medium severity, whose message cites the entry, when it
    is [NaN] or below 1, and none when it is a number that is at least 1.
    The rule reports nothing exactly when every entry is such a number. *)
Theorem validateMalformedLists_per_slot (data : DataSet) :
  validateMalformedLists data =
    flat_map (fun worker =>
      flat_map (fun slot =>
        if decide (atLeastOne slot) then [] else [malformedSlotFinding worker slot])
      (AvailableSlots worker)) (workers data)
  ∧ (¬ atLeastOne NaN ∧ ∀ z, atLeastOne (Int z) ↔ (1 ≤ z)%Z)
  ∧ (∀ worker slot,
       ValidationError.type (malformedSlotFinding worker slot) = TError
       ∧ ValidationError.severity (malformedSlotFinding worker slot) = Medium
       ∧ ValidationError.entityId (malformedSlotFinding worker slot)
         = WorkerID worker
       ∧ ValidationError.message (malformedSlotFinding worker slot)
         = "Invalid AvailableSlot value: " +:+ numberToString slot
             +:+ ". Must be positive numbers.")
  ∧ (validateMalformedLists data = []
     ↔ ∀ worker slot, worker ∈ workers data → slot ∈ AvailableSlots worker →
         atLeastOne slot).
Proof.
  split; [apply validateMalformedLists_eq|].
  split; [split; [by intros []|intros z; reflexivity]|]. split; [done|].
  rewrite malformed_nil, Forall_forall. split.
  - intros H worker slot Hw Hs. specialize (H worker Hw).
    rewrite Forall_forall in H. by apply H.
  - intros H worker Hw. apply Forall_forall. intros slot Hs. by apply (H worker).
Qed.

(** Property X8.  Rule 4 gives, for the clients in order, exactly one
    error of medium severity for each client whose [PriorityLevel] is
    outside 1 to 5, and then, for the tasks in order, exactly one for each
    task whose [Duration] is below 1; the message cites the value. *)
Theorem validateOutOfRangeValues_per_entity (data : DataSet) :
  validateOutOfRangeValues data =
    flat_map (fun client =>
      if decide (1 ≤ PriorityLevel client ≤ 5)%Z then []
      else [priorityRangeFinding client]) (clients data)
    ++ flat_map (fun task =>
      if decide (1 ≤ Duration task)%Z then []
      else [durationRangeFinding task]) (tasks data)
  ∧ (∀ client,
       ValidationError.type (priorityRangeFinding client) = TError
       ∧ ValidationError.severity (priorityRangeFinding client) = Medium
       ∧ ValidationError.message (priorityRangeFinding client)
         = "PriorityLevel must be between 1-5, got: "
             +:+ pretty (PriorityLevel client))
  ∧ (∀ task,
       ValidationError.type (durationRangeFinding task) = TError
       ∧ ValidationError.severity (durationRangeFinding task) = Medium
       ∧ ValidationError.message (durationRangeFinding task)
         = "Duration must be at least 1, got: " +:+ pretty (Duration task)).
Proof.
  split; [|done]. rewrite validateOutOfRangeValues_eq. f_equal.
  - apply flat_map_ext. intros client.
    destruct (Z.ltb_spec (PriorityLevel client) 1),
      (Z.gtb_spec (PriorityLevel client) 5); simpl; case_decide; (done || lia).
  - apply flat_map_ext. intros task.
    destruct (Z.ltb_spec (Duration task) 1); case_decide; (done || lia).
Qed.

(** Property X9.  The rule on overloaded workers gives, for the workers in
    order, exactly one warning of medium severity for each worker that has
    fewer entries in [AvailableSlots] than its [MaxLoadPerPhase], citing
    both numbers, and none for the others. *)
Theorem validateOverloadedWorkers_per_worker (data : DataSet) :
  validateOverloadedWorkers data =
    flat_map (fun worker =>
      if decide (lengthOf (AvailableSlots worker) < MaxLoadPerPhase worker)%Z
      then [overloadedFinding worker] else []) (workers data)
  ∧ (∀ worker,
       ValidationError.type (overloadedFinding worker) = TWarning
       ∧ ValidationError.severity (overloadedFinding worker) = Medium
       ∧ ValidationError.message (overloadedFinding worker)
         = "Worker has " +:+ pretty (lengthOf (AvailableSlots worker))
             +:+ " available slots but MaxLoadPerPhase is "
             +:+ pretty (MaxLoadPerPhase worker))
  ∧ (validateOverloadedWorkers data = []
     ↔ ∀ worker, worker ∈ workers data →
         (MaxLoadPerPhase worker ≤ lengthOf (AvailableSlots worker))%Z).
Proof.
  split; [apply validateOverloadedWorkers_eq|]. split; [done|].
  rewrite validateOverloadedWorkers_eq, flat_map_nil, Forall_forall.
  split; intros H worker Hw; specialize (H worker Hw).
  - case_decide; [done|lia].
  - case_decide; [lia|done].
Qed.

(** ** A dataset without workers *)



(** ** One more worker *)

Lemma sublist_flat_map {A B : Type} (f g : A → list B) (l : list A) :
  (∀ x, f x `sublist_of` g x) → flat_map f l `sublist_of` flat_map g l.
Proof.
  intros Hfg. induction l as [|x l IH]; simpl; [done|]. by apply sublist_app.
Qed.

Lemma skillAvailable_addWorker (data : DataSet) (worker : Worker) (skill : string) :
  skillAvailable (addWorker data worker) skill
  ↔ skillAvailable data skill ∨ skill ∈ Skills worker.
Proof.
  unfold skillAvailable, addWorker. simpl.
  rewrite Exists_app, Exists_cons, Exists_nil. tauto.
Qed.

Lemma qualifiedCount_addWorker (data : DataSet) (worker : Worker) (task : Task) :
  qualifiedCount (addWorker data worker) task
  = (qualifiedCount data task
     + if decide (qualifiedFor task worker) then 1 else 0)%Z.
Proof.
  unfold qualifiedCount, addWorker, lengthOf. simpl.
  rewrite List.filter_app, length_app. simpl.
  destruct (decide (qualifiedFor task worker)) as [H|H].
  - rewrite bool_decide_eq_true_2 by done. simpl. lia.
  - rewrite bool_decide_eq_false_2 by done. simpl. lia.
Qed.

(** Property X11.  Adding a worker to the dataset never adds a coverage
    error or a concurrency warning: the coverage errors of the larger
    dataset are among those of the smaller one, in the same order, those
    that go being the ones on skills the new worker holds; and the tasks
    with a concurrency warning are among those that had one. *)
Theorem adding_a_worker (data : DataSet) (worker : Worker) :
  validateSkillCoverageMatrix (addWorker data worker)
    `sublist_of` validateSkillCoverageMatrix data
  ∧ validateSkillCoverageMatrix (addWorker data worker) =
    flat_map (fun task =>
      flat_map (fun skill =>
        if decide (skillAvailable data skill ∨ skill ∈ Skills worker) then []
        else [coverageFinding task skill])
      (RequiredSkills task)) (tasks data)
  ∧ map ValidationError.id (validateMaxConcurrencyFeasibility (addWorker data worker))
    `sublist_of` map ValidationError.id (validateMaxConcurrencyFeasibility data).
Proof.
  rewrite !validateSkillCoverageMatrix_eq, !validateMaxConcurrencyFeasibility_eq.
  cbn [addWorker tasks]. split; [|split].
  - apply sublist_flat_map. intros task. apply sublist_flat_map. intros skill.
    destruct (decide (skillAvailable data skill)) as [H|H].
    + rewrite decide_True; [done|]. apply skillAvailable_addWorker. by left.
    + case_decide; [apply sublist_nil_l|done].
  - apply flat_map_ext. intros task. apply flat_map_ext. intros skill.
    apply decide_ext, skillAvailable_addWorker.
  - induction (tasks data) as [|task ts IH]; simpl; [done|].
    rewrite !List.map_app. apply sublist_app; [|done].
    rewrite qualifiedCount_addWorker.
    destruct (decide (MaxConcurrent task > qualifiedCount data task)%Z) as [H|H].
    + case_decide; [done|apply sublist_nil_l].
    + rewrite decide_False; [done|]. case_decide; lia.
Qed.

(** ** The fields the rules do not read *)

Lemma forEach_from_map {A B St : Type} (g : A → B) (l : list A)
    (body : B → nat → St → St) (n : nat) (s : St) :
  forEach_from (map g l) n body s
  = forEach_from l n (fun x index acc => body (g x) index acc) s.
Proof. revert n s. induction l as [|x l IH]; intros n s; simpl; [done|apply IH]. Qed.

Lemma forEach_map {A B St : Type} (g : A → B) (l : list A)
    (body : B → nat → St → St) (s : St) :
  forEach (map g l) body s
  = forEach l (fun x index acc => body (g x) index acc) s.
Proof. apply forEach_from_map. Qed.

Lemma blank_missing (data : DataSet) :
  validateMissingRequiredColumns (blankUnread data)
  = validateMissingRequiredColumns data.
Proof.
  unfold validateMissingRequiredColumns, blankUnread. cbn [clients workers tasks].
  rewrite !forEach_map. reflexivity.
Qed.

Lemma blank_duplicates (data : DataSet) :
  validateDuplicateIDs (blankUnread data) = validateDuplicateIDs data.
Proof.
  unfold validateDuplicateIDs, duplicateLoop, blankUnread.
  cbn [clients workers tasks]. rewrite !forEach_map. reflexivity.
Qed.

Lemma blank_malformed (data : DataSet) :
  validateMalformedLists (blankUnread data) = validateMalformedLists data.
Proof.
  unfold validateMalformedLists, blankUnread. cbn [clients workers tasks].
  rewrite !forEach_map. reflexivity.
Qed.

Lemma blank_ranges (data : DataSet) :
  validateOutOfRangeValues (blankUnread data) = validateOutOfRangeValues data.
Proof.
  unfold validateOutOfRangeValues, blankUnread. cbn [clients workers tasks].
  rewrite !forEach_map. reflexivity.
Qed.

Lemma blank_unknown (data : DataSet) :
  validateUnknownReferences (blankUnread data) = validateUnknownReferences data.
Proof.
  unfold validateUnknownReferences, blankUnread. cbn [clients workers tasks].
  rewrite !forEach_map, List.map_map. reflexivity.
Qed.

Lemma blank_overloaded (data : DataSet) :
  validateOverloadedWorkers (blankUnread data) = validateOverloadedWorkers data.
Proof.
  unfold validateOverloadedWorkers, blankUnread. cbn [clients workers tasks].
  rewrite !forEach_map. reflexivity.
Qed.

Lemma blank_saturation (data : DataSet) :
  validatePhaseSlotSaturation (blankUnread data) = validatePhaseSlotSaturation data.
Proof.
  unfold validatePhaseSlotSaturation, phaseDemandOf, phaseSupplyOf, blankUnread.
  cbn [clients workers tasks]. rewrite !forEach_map. reflexivity.
Qed.

Lemma blank_coverage (data : DataSet) :
  validateSkillCoverageMatrix (blankUnread data) = validateSkillCoverageMatrix data.
Proof.
  unfold validateSkillCoverageMatrix, blankUnread. cbn [clients workers tasks].
  rewrite !forEach_map. reflexivity.
Qed.

Lemma filter_map_length {A B : Type} (f : B → bool) (g : A → B) (l : list A) :
  length (List.filter f (map g l)) = length (List.filter (fun x => f (g x)) l).
Proof.
  induction l as [|x l IH]; simpl; [done|]. destruct (f (g x)); simpl; by rewrite IH.
Qed.

Lemma blank_concurrency (data : DataSet) :
  validateMaxConcurrencyFeasibility (blankUnread data)
  = validateMaxConcurrencyFeasibility data.
Proof.
  unfold validateMaxConcurrencyFeasibility, blankUnread. cbn [clients workers tasks].
  rewrite !forEach_map. unfold forEach. generalize 0 at 1 2.
  generalize (@nil Finding).
  induction (tasks data) as [|task ts IH]; intros acc n; simpl; [done|].
  rewrite <- IH. do 2 f_equal.
  unfold qualifiedWorkers, lengthOf. cbn [workers].
  by rewrite filter_map_length.
Qed.

(** Property X12.  The report does not depend on [GroupTag] and
    [AttributesJSON] of the clients, on [WorkerGroup] and
    [QualificationLevel] of the workers, nor on [Category] of the tasks:
    blanking them all leaves every finding as it was. *)
Theorem report_ignores_unread_fields (data : DataSet) :
  validateDataSet (blankUnread data) = validateDataSet data.
Proof.
  unfold validateDataSet. rewrite !callValidateDataSet_eq. cbn [fst].
  assert (allFindings (blankUnread data) = allFindings data) as ->; [|done].
  unfold allFindings.
  by rewrite blank_missing, blank_duplicates, blank_malformed, blank_ranges,
    !validateBrokenJSON_nil, blank_unknown, blank_overloaded, blank_saturation,
    blank_coverage, blank_concurrency.
Qed.

(** ** A line of CSV *)

Lemma str_append_cons (a : Ascii.ascii) (s t : string) :
  String a s +:+ t = String a (s +:+ t).
Proof. reflexivity. Qed.

Lemma str_append_nil_r (s : string) : s +:+ EmptyString = s.
Proof. induction s as [|a s IH]; [done|]. by rewrite str_append_cons, IH. Qed.

Lemma str_append_assoc (s t u : string) : (s +:+ t) +:+ u = s +:+ (t +:+ u).
Proof. induction s as [|a s IH]; [done|]. by rewrite !str_append_cons, IH. Qed.

Lemma str_append_snoc (current : string) (c : Ascii.ascii) (s : string) :
  (current +:+ String c EmptyString) +:+ s = current +:+ String c s.
Proof. by rewrite str_append_assoc. Qed.

(** What follows a field in a row: nothing, or a comma and more. *)
Definition fieldEnd (rest : string) : Prop :=
  rest = EmptyString ∨ ∃ more, rest = String commaChar more.

(** Inside quotes, the escaped text of a field and its closing quote are
    read back as the field. *)
Lemma loop_in_quotes (s rest : string) (result : list string) (current : string) :
  fieldEnd rest →
  parseCSVLineLoop (doubleQuotes s +:+ String quoteChar rest) result current true
  = parseCSVLineLoop rest result (current +:+ s) false.
Proof.
  intros Hrest. revert current. induction s as [|c s IH]; intros current.
  - rewrite str_append_nil_r. cbn [doubleQuotes]. change (EmptyString +:+ ?t) with t.
    destruct Hrest as [->|[more ->]]; reflexivity.
  - cbn [doubleQuotes]. destruct (Ascii.eqb c quoteChar) eqn:Hc.
    + apply Ascii.eqb_eq in Hc as ->. rewrite !str_append_cons.
      cbn [parseCSVLineLoop]. rewrite Ascii.eqb_refl. cbn [andb].
      by rewrite IH, str_append_snoc.
    + rewrite str_append_cons. cbn [parseCSVLineLoop]. rewrite Hc.
      cbn [negb andb]. rewrite andb_false_r.
      by rewrite IH, str_append_snoc.
Qed.

Lemma loop_open_quote (c : Ascii.ascii) (rest : string) (result : list string)
    (current : string) :
  parseCSVLineLoop (String quoteChar (String c rest)) result current false
  = parseCSVLineLoop (String c rest) result current true.
Proof. reflexivity. Qed.

Lemma escaped_not_empty (s rest : string) :
  ∃ c more, doubleQuotes s +:+ String quoteChar rest = String c more.
Proof.
  destruct s as [|a s]; cbn [doubleQuotes].
  - by eexists _, _.
  - destruct (Ascii.eqb a quoteChar); rewrite str_append_cons; by eexists _, _.
Qed.

(** One escaped cell, followed by the end of the field. *)
Lemma loop_escaped_cell (cell : CellValue) (rest : string) (result : list string) :
  fieldEnd rest →
  parseCSVLineLoop (escapeCSVValue cell +:+ rest) result EmptyString false
  = parseCSVLineLoop rest result (stringValueOf cell) false.
Proof.
  intros Hrest.
  assert (∀ v, parseCSVLineLoop
            (String quoteChar (doubleQuotes v +:+ String quoteChar EmptyString)
               +:+ rest) result EmptyString false
          = parseCSVLineLoop rest result v false) as Hquoted.
  { intros v. rewrite str_append_cons, str_append_assoc. rewrite str_append_cons.
    change (EmptyString +:+ rest) with rest.
    destruct (escaped_not_empty v rest) as (c & more & Heq).
    rewrite Heq, loop_open_quote, <- Heq.
    by rewrite loop_in_quotes. }
  destruct cell; try apply Hquoted. reflexivity.
Qed.

Lemma csvRow_cons (cell next : CellValue) (cells : list CellValue) :
  csvRow (cell :: next :: cells)
  = escapeCSVValue cell +:+ String commaChar (csvRow (next :: cells)).
Proof. reflexivity. Qed.

Lemma loop_comma (rest : string) (result : list string) (current : string) :
  parseCSVLineLoop (String commaChar rest) result current false
  = parseCSVLineLoop rest (push result current) EmptyString false.
Proof. reflexivity. Qed.

Lemma loop_csvRow (cell : CellValue) (cells : list CellValue) (result : list string) :
  parseCSVLineLoop (csvRow (cell :: cells)) result EmptyString false
  = result ++ map stringValueOf (cell :: cells).
Proof.
  revert cell result. induction cells as [|next cells IH]; intros cell result.
  - unfold csvRow, joinComma. cbn [map String.concat].
    rewrite <- (str_append_nil_r (escapeCSVValue cell)).
    rewrite loop_escaped_cell by by left. reflexivity.
  - rewrite csvRow_cons, loop_escaped_cell by (right; by eexists).
    rewrite loop_comma, IH. unfold push. by rewrite <- app_assoc.
Qed.

(** Property X13.  Reading back a row that the export wrote gives, cell by
    cell, the text that was escaped, whatever quotes and commas it holds:
    a string comes back as it was, a number as its decimal text, an array
    as its elements joined by commas, a missing value as the empty text.
    An object does not come back as its JSON text: its quotes are escaped
    twice and read back once, so they come back doubled. *)
Theorem parseCSVLine_reads_back_csvRow :
  (∀ (cell : CellValue) (cells : list CellValue),
     parseCSVLine (csvRow (cell :: cells)) = map stringValueOf (cell :: cells))
  ∧ (∀ (s : string) (fields : list string),
       parseCSVLine (csvRow (map CellString (s :: fields))) = s :: fields)
  ∧ (∀ json : string,
       parseCSVLine (csvRow [CellObject json]) = [doubleQuotes json]).
Proof.
  assert (∀ cell cells,
    parseCSVLine (csvRow (cell :: cells)) = map stringValueOf (cell :: cells))
    as Hrow.
  { intros cell cells. unfold parseCSVLine. by rewrite loop_csvRow. }
  split; [done|]. split.
  - intros s fields. cbn [map]. rewrite Hrow. cbn [map stringValueOf]. f_equal.
    induction fields as [|f fields IH]; simpl; [done|]. by rewrite IH.
  - intros json. by rewrite Hrow.
Qed.

Lemma plainText_cons (c : Ascii.ascii) (s : string) :
  plainText (String c s) ↔ (c ≠ quoteChar ∧ c ≠ commaChar) ∧ plainText s.
Proof.
  unfold plainText. cbn [String.list_ascii_of_string].
  apply (Forall_cons (fun c => c ≠ quoteChar ∧ c ≠ commaChar)).
Qed.

(** Outside quotes, a text without quote or comma is copied to the field. *)
Lemma loop_plain (s rest : string) (result : list string) (current : string) :
  plainText s →
  parseCSVLineLoop (s +:+ rest) result current false
  = parseCSVLineLoop rest result (current +:+ s) false.
Proof.
  revert current. induction s as [|c s IH]; intros current Hs.
  - by rewrite str_append_nil_r.
  - apply plainText_cons in Hs as [[Hq Hc] Hs].
    rewrite str_append_cons. cbn [parseCSVLineLoop].
    apply Ascii.eqb_neq in Hq, Hc. rewrite Hq, Hc. cbn [andb].
    by rewrite IH, str_append_snoc.
Qed.

Lemma loop_plain_fields (f : string) (fields : list string) (result : list string) :
  Forall plainText (f :: fields) →
  parseCSVLineLoop (joinComma (f :: fields)) result EmptyString false
  = result ++ f :: fields.
Proof.
  revert f result. induction fields as [|g fields IH]; intros f result Hall.
  - apply Forall_cons in Hall as [Hf _]. unfold joinComma. cbn [String.concat].
    pose proof (loop_plain f EmptyString result EmptyString Hf) as Hloop.
    rewrite str_append_nil_r in Hloop. rewrite Hloop. reflexivity.
  - apply Forall_cons in Hall as [Hf Hall].
    change (joinComma (f :: g :: fields))
      with (f +:+ String commaChar (joinComma (g :: fields))).
    rewrite loop_plain, loop_comma, IH by done. unfold push.
    by rewrite <- app_assoc.
Qed.

(** Property X14.  A line made of fields without quote or comma, joined by
    commas, is read back as these fields, spaces included. *)
Theorem parseCSVLine_plain_fields (f : string) (fields : list string) :
  Forall plainText (f :: fields) →
  parseCSVLine (joinComma (f :: fields)) = f :: fields.
Proof. intros Hall. unfold parseCSVLine. by rewrite loop_plain_fields. Qed.

(** The fields of [plainFields] are read back from ["C1,Acme Corp,3"]. *)
Lemma parseCSVLine_plain_fields_witness :
  parseCSVLine "C1,Acme Corp,3" = plainFields.
Proof.
  apply (parseCSVLine_plain_fields "C1" ["Acme Corp"; "3"]).
  repeat (apply Forall_cons; split; [by apply (bool_decide_unpack _)|]).
  apply Forall_nil_2.
Defined.

Lemma string_pair_ind (P : string → Prop) :
  P EmptyString →
  (∀ c, P (String c EmptyString)) →
  (∀ c d s, P s → P (String d s) → P (String c (String d s))) →
  ∀ s, P s.
Proof.
  intros H0 H1 H2 s.
  assert (P s ∧ ∀ c, P (String c s)) as [? _]; [|done].
  induction s as [|d s [IH1 IH2]]; [by split|].
  split; [apply IH2|]. intros c. by apply H2.
Qed.

Lemma commaCount_cons (c : Ascii.ascii) (s : string) :
  commaCount (String c s)
  = (if Ascii.eqb commaChar c then 1 else 0) + commaCount s.
Proof.
  unfold commaCount. cbn [String.list_ascii_of_string List.filter].
  by destruct (Ascii.eqb commaChar c).
Qed.

Lemma parseCSVLineLoop_cons (char : Ascii.ascii) (rest' : string)
    (result : list string) (current : string) (inQuotes : bool) :
  parseCSVLineLoop (String char rest') result current inQuotes =
    if Ascii.eqb char quoteChar then
      match rest' with
      | String next rest'' =>
          if inQuotes && Ascii.eqb next quoteChar then
            parseCSVLineLoop rest'' result
              (current +:+ String quoteChar EmptyString) inQuotes
          else parseCSVLineLoop rest' result current (negb inQuotes)
      | EmptyString => parseCSVLineLoop rest' result current (negb inQuotes)
      end
    else if Ascii.eqb char commaChar && negb inQuotes then
      parseCSVLineLoop rest' (push result current) EmptyString inQuotes
    else
      parseCSVLineLoop rest' result (current +:+ String char EmptyString) inQuotes.
Proof. reflexivity. Qed.

Lemma loop_length (rest : string) :
  ∀ (result : list string) (current : string) (inQuotes : bool),
    length result + 1 ≤ length (parseCSVLineLoop rest result current inQuotes)
    ∧ length (parseCSVLineLoop rest result current inQuotes)
      ≤ length result + 1 + commaCount rest.
Proof.
  induction rest as [|c|c d s IHs IHd] using string_pair_ind;
    intros result current inQuotes.
  - cbn [parseCSVLineLoop]. unfold push. rewrite length_app. simpl. lia.
  - rewrite commaCount_cons. cbn [parseCSVLineLoop].
    rewrite (Ascii.eqb_sym commaChar c).
    destruct (Ascii.eqb c quoteChar) eqn:Hq.
    + apply Ascii.eqb_eq in Hq as ->. change (Ascii.eqb quoteChar commaChar) with false. cbv iota.
      unfold push. rewrite length_app. cbn [length]. lia.
    + destruct (Ascii.eqb c commaChar), inQuotes; cbn [andb negb];
        unfold push; rewrite !length_app; cbn [length]; lia.
  - rewrite (commaCount_cons c), parseCSVLineLoop_cons.
    rewrite (Ascii.eqb_sym commaChar c).
    destruct (Ascii.eqb c quoteChar) eqn:Hq.
    + apply Ascii.eqb_eq in Hq as ->. change (Ascii.eqb quoteChar commaChar) with false. cbv iota.
      destruct (inQuotes && Ascii.eqb d quoteChar).
      * specialize (IHs result (current +:+ String quoteChar EmptyString) inQuotes).
        rewrite commaCount_cons. destruct (Ascii.eqb commaChar d); lia.
      * specialize (IHd result current (negb inQuotes)). lia.
    + destruct (Ascii.eqb c commaChar), inQuotes; cbn [andb negb].
      * specialize (IHd result (current +:+ String c EmptyString) true). lia.
      * specialize (IHd (push result current) EmptyString false).
        assert (length (push result current) = length result + 1) as Hpush
          by apply length_app.
        rewrite Hpush in IHd. lia.
      * specialize (IHd result (current +:+ String c EmptyString) true). lia.
      * specialize (IHd result (current +:+ String c EmptyString) false). lia.
Qed.

(** Property X15.  Whatever the line, [parseCSVLine] returns at least one
    field and at most one more than the line has commas; the empty line
    gives one empty field. *)
Theorem parseCSVLine_field_count (line : string) :
  1 ≤ length (parseCSVLine line)
  ∧ length (parseCSVLine line) ≤ 1 + commaCount line
  ∧ parseCSVLine EmptyString = [EmptyString].
Proof.
  destruct (loop_length line [] EmptyString false) as [Hlow Hhigh].
  unfold parseCSVLine. cbn [length] in *. repeat split; (done || lia).
Qed.

(** ** The keyword helpers *)

(** Property X16.  Whatever the text, the rule built from it is active,
    keeps the text as its description, is a constraint or a preference and
    never a requirement, and has priority 3, 4 or 5.  The priority is 5
    exactly when the lower-cased text mentions [high priority] or
    [critical]; the rule is a preference exactly when the text mentions
    [should] or [prefer] and neither [must] nor [never]. *)
Theorem convertNaturalLanguageToRule_shape
    (toLowerCase : string → string) (now : Z) (text : string) :
  let rule := convertNaturalLanguageToRule toLowerCase now text in
  let says := mentions toLowerCase text in
  BusinessRule.active rule = true
  ∧ BusinessRule.description rule = text
  ∧ BusinessRule.type rule ≠ Requirement
  ∧ (BusinessRule.priority rule = 3 ∨ BusinessRule.priority rule = 4
     ∨ BusinessRule.priority rule = 5)%Z
  ∧ (BusinessRule.priority rule = 5%Z
     ↔ says "high priority" = true ∨ says "critical" = true)
  ∧ (BusinessRule.priority rule = 4%Z
     ↔ (says "must" = true ∨ says "never" = true)
       ∧ says "high priority" = false ∧ says "critical" = false)
  ∧ (BusinessRule.type rule = Preference
     ↔ (says "should" = true ∨ says "prefer" = true)
       ∧ says "must" = false ∧ says "never" = false).
Proof.
  unfold convertNaturalLanguageToRule, mentions. cbv zeta.
  destruct (stringIncludes (toLowerCase text) "should"),
    (stringIncludes (toLowerCase text) "prefer"),
    (stringIncludes (toLowerCase text) "must"),
    (stringIncludes (toLowerCase text) "never"),
    (stringIncludes (toLowerCase text) "high priority"),
    (stringIncludes (toLowerCase text) "critical");
    cbn [orb BusinessRule.active BusinessRule.description BusinessRule.type
         BusinessRule.priority];
    repeat split; try done; try (intros [? | ?]; done); try tauto;
    try (intros [[?|?] [? ?]]; done); try (by left); try (by right);
    try (by right; left); try (by right; right); intuition congruence.
Qed.

(** Property X17.  The recommendations are two, three or four; the first
    two are always [rec-1] and [rec-2]; their identifiers are pairwise
    different and none of them is active.  [rec-3] is among them exactly
    when some worker has more than three skills, [rec-4] exactly when some
    task lasts more than 5. *)
Theorem generateRuleRecommendations_shape (dataSet : DataSet) :
  let recommendations := generateRuleRecommendations dataSet in
  let ids := map BusinessRule.id recommendations in
  2 ≤ length recommendations ≤ 4
  ∧ take 2 ids = ["rec-1"; "rec-2"]
  ∧ NoDup ids
  ∧ Forall (fun r => BusinessRule.active r = false) recommendations
  ∧ ("rec-3" ∈ ids
     ↔ ∃ worker, worker ∈ workers dataSet ∧ (lengthOf (Skills worker) > 3)%Z)
  ∧ ("rec-4" ∈ ids
     ↔ ∃ task, task ∈ tasks dataSet ∧ (Duration task > 5)%Z).
Proof.
  assert (existsb (fun w => (lengthOf (Skills w) >? 3)%Z) (workers dataSet) = true
          ↔ ∃ worker, worker ∈ workers dataSet ∧ (lengthOf (Skills worker) > 3)%Z)
    as Hworkers.
  { rewrite existsb_exists. split; intros (w & Hw & Hgt); exists w.
    - split; [by apply list_elem_of_In|]. by apply Z.gtb_gt in Hgt.
    - split; [by apply list_elem_of_In|]. by apply Z.gtb_gt. }
  assert (existsb (fun t => (Duration t >? 5)%Z) (tasks dataSet) = true
          ↔ ∃ task, task ∈ tasks dataSet ∧ (Duration task > 5)%Z) as Htasks.
  { rewrite existsb_exists. split; intros (t & Ht & Hgt); exists t.
    - split; [by apply list_elem_of_In|]. by apply Z.gtb_gt in Hgt.
    - split; [by apply list_elem_of_In|]. by apply Z.gtb_gt. }
  cbv zeta. rewrite <- Hworkers, <- Htasks. unfold generateRuleRecommendations.
  destruct (existsb _ (workers dataSet)), (existsb _ (tasks dataSet));
    cbv zeta; unfold push; cbn [app map length take BusinessRule.id];
    (split; [lia|]); (split; [done|]);
    (split; [by apply (bool_decide_unpack _)|]);
    (split; [by repeat constructor|]);
    split; (split; [intros Hin|intros Heq]);
      try done; try (by apply (bool_decide_unpack _));
      by apply (bool_decide_pack _) in Hin.
Qed.

Lemma clients_are_entities (dataSet : DataSet) (f : Client → bool) :
  Forall (entityOf dataSet) (map AClient (List.filter f (clients dataSet))).
Proof.
  apply Forall_forall. intros e He.
  apply list_elem_of_In, in_map_iff in He as (c & <- & Hc).
  apply filter_In in Hc as [Hc _]. by apply list_elem_of_In.
Qed.

Lemma workers_are_entities (dataSet : DataSet) (f : Worker → bool) :
  Forall (entityOf dataSet) (map AWorker (List.filter f (workers dataSet))).
Proof.
  apply Forall_forall. intros e He.
  apply list_elem_of_In, in_map_iff in He as (w & <- & Hw).
  apply filter_In in Hw as [Hw _]. by apply list_elem_of_In.
Qed.

Lemma tasks_are_entities (dataSet : DataSet) (f : Task → bool) :
  Forall (entityOf dataSet) (map ATask (List.filter f (tasks dataSet))).
Proof.
  apply Forall_forall. intros e He.
  apply list_elem_of_In, in_map_iff in He as (t & <- & Ht).
  apply filter_In in Ht as [Ht _]. by apply list_elem_of_In.
Qed.

(** Property X18.  Whatever the query, [queryDataWithNL] returns at most
    ten results, and each of them is a client, a worker or a task of the
    dataset it was given. *)
Theorem queryDataWithNL_results
    (toLowerCase : string → string) (query : string) (dataSet : DataSet) :
  length (queryDataWithNL toLowerCase query dataSet) ≤ 10
  ∧ Forall (entityOf dataSet) (queryDataWithNL toLowerCase query dataSet).
Proof.
  unfold queryDataWithNL. cbv zeta. split.
  - rewrite length_take. lia.
  - apply Forall_take.
    repeat match goal with
           | |- Forall _ (if ?c then _ else _) => destruct c
           end;
      rewrite ?Forall_app; repeat split;
      auto using clients_are_entities, workers_are_entities, tasks_are_entities.
Qed.

(** ** The page's validation against the library's *)

Lemma noError_app (l1 l2 : list Finding) :
  noError (l1 ++ l2) ↔ noError l1 ∧ noError l2.
Proof. unfold noError. by rewrite List.filter_app, app_nil. Qed.

Lemma noError_single (e : Finding) :
  noError [e] ↔ ValidationError.type e = TWarning.
Proof.
  unfold noError. cbn [List.filter]. unfold isError.
  destruct (ValidationError.type e); simpl; split; (done || congruence).
Qed.

Lemma noError_pushIf (c : bool) (errs : list Finding) (e : Finding) :
  noError (pushIf c errs e)
  ↔ noError errs ∧ (c = true → ValidationError.type e = TWarning).
Proof.
  unfold pushIf, push. destruct c.
  - rewrite noError_app, noError_single. tauto.
  - split; [by split|by intros [? _]].
Qed.

Lemma noError_pushIfRandom (c : bool) (n : nat) (errs : list Finding)
    (e : string → Finding) (random : nat → string) :
  noError (snd (pushIfRandom c (n, errs) e random))
  ↔ noError errs ∧ (c = true → ValidationError.type (e (random n)) = TWarning).
Proof.
  unfold pushIfRandom, push. destruct c; cbn [fst snd].
  - rewrite noError_app, noError_single. tauto.
  - split; [by split|by intros [? _]].
Qed.

Lemma pushIf_app (c : bool) (errs : list Finding) (e : Finding) :
  pushIf c errs e = errs ++ pushIf c [] e.
Proof. unfold pushIf, push. destruct c; [done|by rewrite app_nil_r]. Qed.

Lemma pushIfRandom_app (c : bool) (n : nat) (errs : list Finding)
    (e : string → Finding) (random : nat → string) :
  pushIfRandom c (n, errs) e random
  = (fst (pushIfRandom c (n, []) e random),
     errs ++ snd (pushIfRandom c (n, []) e random)).
Proof. unfold pushIfRandom, push. destruct c; cbn [fst snd]; [done|by rewrite app_nil_r]. Qed.

Lemma pageValidateClient_appends (random : nat → string) :
  appendsOnly (pageValidateClient random).
Proof.
  intros client n errs. unfold pageValidateClient. cbv zeta.
  rewrite pushIfRandom_app. cbn [fst snd].
  rewrite (pushIf_app _ (pushIf _ _ _)), (pushIf_app _ (errs ++ _)).
  rewrite (pushIf_app _ (pushIf _ (snd _) _)), (pushIf_app _ (snd _)).
  by rewrite <- !app_assoc.
Qed.

Lemma pageValidateWorker_appends (random : nat → string) :
  appendsOnly (pageValidateWorker random).
Proof.
  intros worker n errs. unfold pageValidateWorker. cbv zeta.
  rewrite pushIfRandom_app. cbn [fst snd].
  rewrite (pushIf_app _ (pushIf _ (pushIf _ (errs ++ _) _) _)),
    (pushIf_app _ (pushIf _ (errs ++ _) _)), (pushIf_app _ (errs ++ _)).
  rewrite (pushIf_app _ (pushIf _ (pushIf _ (snd _) _) _)),
    (pushIf_app _ (pushIf _ (snd _) _)), (pushIf_app _ (snd _)).
  by rewrite <- !app_assoc.
Qed.

Lemma pageValidateTask_appends (random : nat → string) :
  appendsOnly (pageValidateTask random).
Proof.
  intros task n errs. unfold pageValidateTask. cbv zeta.
  rewrite pushIfRandom_app. cbn [fst snd].
  rewrite (pushIf_app _ (pushIf _ (pushIf _ (errs ++ _) _) _)),
    (pushIf_app _ (pushIf _ (errs ++ _) _)), (pushIf_app _ (errs ++ _)).
  rewrite (pushIf_app _ (pushIf _ (pushIf _ (snd _) _) _)),
    (pushIf_app _ (pushIf _ (snd _) _)), (pushIf_app _ (snd _)).
  by rewrite <- !app_assoc.
Qed.

Lemma loop_noError {A : Type}
    (step : A → nat * list Finding → nat * list Finding) (good : A → Prop) :
  appendsOnly step →
  (∀ x n, noError (snd (step x (n, []))) ↔ good x) →
  ∀ xs n errs,
    noError (snd (forEach xs (fun x _ state => step x state) (n, errs)))
    ↔ noError errs ∧ Forall good xs.
Proof.
  intros Happ Hgood xs n errs. unfold forEach.
  rewrite (forEach_from_fold (fun state x => step x state)).
  revert n errs. induction xs as [|x xs IH]; intros n errs; simpl.
  - rewrite Forall_nil. tauto.
  - rewrite Happ, IH, noError_app, Hgood, Forall_cons. tauto.
Qed.

Lemma not_truthy_string (s : string) :
  negb (truthy (JSString s)) = true ↔ s = "".
Proof.
  simpl. rewrite negb_involutive. destruct (String.eqb_spec s ""); split;
    (done || congruence).
Qed.

Lemma lengthOf_zero {A : Type} (l : list A) : (lengthOf l =? 0)%Z = true ↔ l = [].
Proof.
  unfold lengthOf. rewrite Z.eqb_eq. destruct l; simpl; split; (done || lia).
Qed.

Lemma error_never_warning (P : Prop) : (P → TError = TWarning) ↔ ¬ P.
Proof. split; [intros H HP; by specialize (H HP)|by intros H HP]. Qed.

Lemma noError_nil : noError [].
Proof. done. Qed.

Lemma pageClient_noError (random : nat → string) (client : Client) (n : nat) :
  noError (snd (pageValidateClient random client (n, [])))
  ↔ ClientID client ≠ "" ∧ ClientName client ≠ ""
    ∧ (1 ≤ PriorityLevel client ≤ 5)%Z.
Proof.
  unfold pageValidateClient. cbv zeta. cbn [fst snd].
  rewrite !noError_pushIf, noError_pushIfRandom.
  cbn [pageFinding ValidationError.type].
  rewrite !error_never_warning, !not_truthy_string, orb_true_iff, Z.ltb_lt, Z.gtb_gt.
  pose proof noError_nil. intuition lia.
Qed.

Lemma pageWorker_noError (random : nat → string) (worker : Worker) (n : nat) :
  noError (snd (pageValidateWorker random worker (n, []))) ↔ pageWorkerOK worker.
Proof.
  unfold pageValidateWorker, pageWorkerOK. cbv zeta. cbn [fst snd].
  rewrite !noError_pushIf, noError_pushIfRandom.
  cbn [pageFinding ValidationError.type].
  rewrite !error_never_warning, !not_truthy_string, !lengthOf_zero.
  pose proof noError_nil. tauto.
Qed.

Lemma pageTask_noError (random : nat → string) (task : Task) (n : nat) :
  noError (snd (pageValidateTask random task (n, []))) ↔ pageTaskOK task.
Proof.
  unfold pageValidateTask, pageTaskOK. cbv zeta. cbn [fst snd].
  rewrite !noError_pushIf, noError_pushIfRandom.
  cbn [pageFinding ValidationError.type].
  rewrite !error_never_warning, !not_truthy_string, Z.ltb_lt.
  pose proof noError_nil. intuition lia.
Qed.

Lemma noError_flat_map {A : Type} (f : A → list Finding) (l : list A) :
  noError (flat_map f l) ↔ Forall (fun x => noError (f x)) l.
Proof.
  induction l as [|x l IH]; simpl.
  - rewrite Forall_nil. by split.
  - by rewrite noError_app, Forall_cons, IH.
Qed.

Lemma pushIf_eq (c : bool) (errs : list Finding) (e : Finding) :
  pushIf c errs e = errs ++ (if c then [e] else []).
Proof. apply push_if. Qed.

Lemma pageFindings_noError (random : nat → string) (data : DataSet) :
  noError (pageFindings random data) ↔ pageErrorFree data.
Proof.
  unfold pageFindings. cbv zeta.
  rewrite (forEach_pushes_flat (fun task =>
    flat_map (fun skill =>
      if negb (setHas (list_to_set (flat_map Skills (workers data))) skill)
      then [pageFinding
              ("unavailable-skill-" +:+ TaskID task +:+ "-" +:+ skill) TWarning
              ("Requires skill '" +:+ skill +:+ "' but no worker has it")
              "RequiredSkills" ETask (TaskID task) High]
      else []) (RequiredSkills task)));
    [|intros task _ acc; apply forEach_pushes_flat; intros; apply pushIf_eq].
  rewrite (forEach_pushes_flat (fun client =>
    flat_map (fun taskID =>
      if negb (setHas (list_to_set (map TaskID (tasks data))) taskID)
      then [pageFinding
              ("invalid-task-ref-" +:+ ClientID client +:+ "-" +:+ taskID) TError
              ("References non-existent task: " +:+ taskID)
              "RequestedTaskIDs" EClient (ClientID client) High]
      else []) (RequestedTaskIDs client)));
    [|intros client _ acc; apply forEach_pushes_flat; intros; apply pushIf_eq].
  rewrite !noError_app.
  destruct (forEach (clients data) _ (0, [])) as [n1 errs1] eqn:Hclients.
  destruct (forEach (workers data) _ (n1, errs1)) as [n2 errs2] eqn:Hworkers.
  pose proof (loop_noError _ _ (pageValidateClient_appends random)
                (pageClient_noError random) (clients data) 0 []) as H1.
  pose proof (loop_noError _ _ (pageValidateWorker_appends random)
                (pageWorker_noError random) (workers data) n1 errs1) as H2.
  pose proof (loop_noError _ _ (pageValidateTask_appends random)
                (pageTask_noError random) (tasks data) n2 errs2) as H3.
  rewrite Hclients in H1. rewrite Hworkers in H2. cbn [snd] in H1, H2.
  rewrite H3, H2, H1. clear.
  rewrite !noError_flat_map. unfold pageErrorFree.
  assert (Forall (fun client =>
      noError (flat_map (fun taskID =>
        if negb (setHas (list_to_set (map TaskID (tasks data))) taskID)
        then [pageFinding
                ("invalid-task-ref-" +:+ ClientID client +:+ "-" +:+ taskID) TError
                ("References non-existent task: " +:+ taskID)
                "RequestedTaskIDs" EClient (ClientID client) High]
        else []) (RequestedTaskIDs client))) (clients data)
    ↔ Forall (fun client => Forall (taskExists data) (RequestedTaskIDs client))
        (clients data)) as ->.
  { apply Forall_iff. intros client. rewrite noError_flat_map.
    apply Forall_iff. intros taskID. rewrite setHas_list_to_set, taskExists_iff.
    case_bool_decide; simpl; [by split|].
    rewrite noError_single. split; done. }
  assert (Forall (fun task =>
      noError (flat_map (fun skill =>
        if negb (setHas (list_to_set (flat_map Skills (workers data))) skill)
        then [pageFinding
                ("unavailable-skill-" +:+ TaskID task +:+ "-" +:+ skill) TWarning
                ("Requires skill '" +:+ skill +:+ "' but no worker has it")
                "RequiredSkills" ETask (TaskID task) High]
        else []) (RequiredSkills task))) (tasks data)) as Hskills.
  { apply Forall_forall. intros task _. apply noError_flat_map.
    apply Forall_forall. intros skill _. by destruct (negb _). }
  unfold pageClientOK. rewrite !Forall_forall in *.
  split.
  - intros (((((_ & Hc) & Hw) & Ht) & Hrefs) & _). split; [|by split].
    intros x Hx. destruct (Hc x Hx) as (? & ? & ?).
    specialize (Hrefs x Hx). rewrite Forall_forall in Hrefs.
    split; [done|]. split; [done|]. split; [done|exact Hrefs].
  - intros (Hc & Hw & Ht). split; [|exact Hskills].
    split; [split; [split; [split; [done|]|done]|done]|].
    + intros x Hx. by destruct (Hc x Hx) as (? & ? & ? & ?).
    + intros x Hx. apply Forall_forall. by apply (Hc x Hx).
Qed.

Lemma pageValid_eq (random : nat → string) (data : DataSet) :
  isValid (pageValidateDataSet random data) = true
  ↔ noError (pageFindings random data).
Proof.
  unfold pageValidateDataSet, noError. cbn [isValid].
  rewrite Nat.eqb_eq. apply length_zero_iff_nil.
Qed.

Lemma errorFree_pageErrorFree (data : DataSet) :
  errorFree data → pageErrorFree data.
Proof.
  intros (Hc & Hw & Ht & _). split; [done|]. split.
  - eapply Forall_impl; [exact Hw|]. intros w (? & ? & _ & ? & _). by repeat split.
  - eapply Forall_impl; [exact Ht|]. intros t (? & ? & ? & _). by repeat split.
Qed.

(** Property X19.  Whatever numbers [Math.random] returns, the report of
    the page's own validation is valid exactly when every client has an
    ID, a name, a priority from 1 to 5 and only requests existing tasks,
    every worker has an ID, a name and at least one slot, and every task
    has an ID, a name and a duration of at least 1.  Repeated IDs, slots
    below 1, missing skills and uncovered skills do not make it invalid. *)
Theorem pageValidateDataSet_valid_iff (random : nat → string) (data : DataSet) :
  isValid (pageValidateDataSet random data) = true ↔ pageErrorFree data.
Proof. by rewrite pageValid_eq, pageFindings_noError. Qed.

Lemma twoClientsC1_pageErrorFree : pageErrorFree twoClientsC1.
Proof.
  unfold pageErrorFree, twoClientsC1, sampleClient; cbn [clients workers tasks].
  split; [|by split].
  repeat (apply Forall_cons; split); [| |apply Forall_nil_2];
    (split; [done|]; split; [done|]; split; [simpl; lia|]);
    intros taskID Hin; by apply elem_of_nil in Hin.
Qed.

(** Property X20.  The validator of the library is at least as strict as
    the validation the page runs: a dataset whose report from the library
    is valid gets a valid report from the page too, whatever numbers
    [Math.random] returns.  The converse fails: two clients sharing an ID
    are valid for the page and not for the library. *)
Theorem library_valid_then_page_valid :
  (∀ (random : nat → string) (data : DataSet),
     isValid (validateDataSet data) = true →
     isValid (pageValidateDataSet random data) = true)
  ∧ (∀ random : nat → string,
       isValid (pageValidateDataSet random twoClientsC1) = true
       ∧ isValid (validateDataSet twoClientsC1) = false).
Proof.
  split.
  - intros random data.
    rewrite isValid_eq, errors_by_rule, !app_nil, <- errorFree_iff_rules_silent.
    rewrite pageValid_eq, pageFindings_noError. apply errorFree_pageErrorFree.
  - intros random. split; [|by vm_compute].
    rewrite pageValid_eq, pageFindings_noError.
    apply twoClientsC1_pageErrorFree.
Qed.

(** The dataset [concurrencyInput] is valid for the library, hence for the
    page. *)
Lemma library_valid_then_page_valid_witness :
  isValid (pageValidateDataSet sampleRandom concurrencyInput) = true.
Proof.
  apply (proj1 library_valid_then_page_valid sampleRandom concurrencyInput).
  by vm_compute.
Defined.
